(** * aws-janitor: the cleanup engine of package [action]

    A shallow embedding of [cleanup_enis.go], [cleanup_vpc.go],
    [cleanup_elbv2.go] and of [waitUntil], with the properties of the
    mark-then-delete protocol proved over it.

    The cloud provider is the system boundary.  It is a value of type
    [Provider W]: [W] is the provider's state, read calls are functions of
    the state, mutating calls return a new state.  Every cleaner runs in
    the monad [M], which threads the provider state and records, in
    program order, each provider call with its outcome and each log
    line.

    What is assumed of the SDK and the provider:
    - a [Describe...] call does not change the provider's state, and its
      answer is determined by that state;
    - a paginated listing delivers finitely many pages, fixed when the
      listing starts, and ends with the last page or with a failed
      request;
    - an unpaginated [DescribeNetworkInterfaces] returns the whole
      listing or fails;
    - the identifiers and tag keys of the objects returned are set. *)

From Stdlib Require Import List String ZArith Bool Arith Lia.
Import ListNotations.
Open Scope string_scope.
Open Scope list_scope.

(** String concatenation, as the format strings of the source build
    their messages. *)
Infix "^^" := String.append (at level 60, right associativity).

(** ** Errors and results *)

(** A Go [error] is modelled by its message; [nil] is [None]. *)
Definition error := string.

Inductive Result (A : Type) : Type :=
| Ok (a : A)
| Err (e : error).
Arguments Ok {A} a.
Arguments Err {A} e.

(** [fmt.Errorf("<prefix>: %w", err)]. *)
Definition Errorf (pre : string) (e : error) : error := pre ^^ ": " ^^ e.

(** ** The SDK's data, restricted to the fields the cleaners read

    Pointers to strings and booleans that the provider always fills in
    are modelled as values ([aws.StringValue] and [aws.BoolValue] are then
    the identity).  [Tags] of the dependent objects is a field of the SDK
    structures which the cleaners never read. *)

Record Tag := { Key : string; Value : string }.

Record NetworkInterface := {
  NetworkInterfaceId : string;
  NetworkInterface_SubnetId : string;
  Description : string;
  TagSet : list Tag }.

Record Vpc := { VpcId : string; IsDefault : bool; Vpc_Tags : list Tag }.

Record NatGateway := { NatGatewayId : string; NatGateway_Tags : list Tag }.

Record InternetGateway := {
  InternetGatewayId : string;
  InternetGateway_Tags : list Tag }.

Record RouteTableAssociation := { Main : bool }.

Record RouteTable := {
  RouteTableId : string;
  Associations : list RouteTableAssociation;
  RouteTable_Tags : list Tag }.

Record Subnet := { SubnetId : string; Subnet_Tags : list Tag }.

Record LoadBalancer := { LoadBalancerArn : string; LoadBalancerName : string }.

Record TagDescription := { ResourceArn : string; Tags : list Tag }.

Record TargetGroup := { TargetGroupArn : string }.

(** A paginated listing as the SDK's paginator delivers it: every request
    either fails, or yields a page together with the information whether
    more pages follow. *)
Inductive Paged (A : Type) : Type :=
| LastPage (items : list A)
| MorePages (items : list A) (rest : Paged A)
| PageErr (e : error).
Arguments LastPage {A} items.
Arguments MorePages {A} items rest.
Arguments PageErr {A} e.

Fixpoint pagedItems {A} (p : Paged A) : list A :=
  match p with
  | LastPage items => items
  | MorePages items rest => items ++ pagedItems rest
  | PageErr _ => []
  end.

Fixpoint pagedErr {A} (p : Paged A) : option error :=
  match p with
  | LastPage _ => None
  | MorePages _ rest => pagedErr rest
  | PageErr e => Some e
  end.

(** ** Provider calls, log lines and traces *)

Inductive Call : Type :=
| DescribeNetworkInterfaces
| CreateTags (resource key value : string)
| DeleteNetworkInterface (id : string)
| DescribeVpcsPage
| DeleteVpc (vpcId : string)
| DescribeNatGateways (vpcId : string)
| DeleteNatGateway (id : string)
| DescribeInternetGateways (vpcId : string)
| DetachInternetGateway (id vpcId : string)
| DeleteInternetGateway (id : string)
| DescribeRouteTables (vpcId : string)
| DeleteRouteTable (id : string)
| DescribeSubnets (vpcId : string)
| DeleteSubnet (id : string)
| DescribeLoadBalancersPage
| DescribeTags (arn : string)
| AddTags (arn key value : string)
| DescribeTargetGroups (arn : string)
| DeleteLoadBalancer (arn : string)
| WaitUntilLoadBalancersDeleted (arn : string)
| DeleteTargetGroup (arn : string).

(** The calls that change provider state: tagging, detaching, deleting. *)
Definition mutating (c : Call) : bool :=
  match c with
  | CreateTags _ _ _ | AddTags _ _ _
  | DeleteNetworkInterface _ | DeleteVpc _ | DeleteNatGateway _
  | DetachInternetGateway _ _ | DeleteInternetGateway _
  | DeleteRouteTable _ | DeleteSubnet _
  | DeleteLoadBalancer _ | DeleteTargetGroup _ => true
  | _ => false
  end.

Definition isAddTag (c : Call) : bool :=
  match c with
  | CreateTags _ _ _ | AddTags _ _ _ => true
  | _ => false
  end.

Definition isDelete (c : Call) : bool := mutating c && negb (isAddTag c).

(** The listing call a cleaner starts with. *)
Definition isListing (c : Call) : bool :=
  match c with
  | DescribeNetworkInterfaces | DescribeVpcsPage | DescribeLoadBalancersPage => true
  | _ => false
  end.

Inductive Level : Type := LvlInfo | LvlDebug | LvlWarning | LvlError.

Inductive Event : Type :=
| EvCall (c : Call) (err : option error)
| EvLog (lvl : Level) (msg : string).

Definition Trace := list Event.

Fixpoint calls (t : Trace) : list Call :=
  match t with
  | [] => []
  | EvCall c _ :: t' => c :: calls t'
  | EvLog _ _ :: t' => calls t'
  end.

(** ** The provider *)

Record Provider (W : Type) : Type := {
  (** the mutating calls: outcome and new state *)
  mutate : Call -> W -> option error * W;
  describeNetworkInterfaces : W -> Result (list NetworkInterface);
  describeVpcsPages : W -> Paged Vpc;
  describeNatGateways : string -> W -> Result (list NatGateway);
  describeInternetGateways : string -> W -> Result (list InternetGateway);
  describeRouteTables : string -> W -> Result (list RouteTable);
  describeSubnets : string -> W -> Result (list Subnet);
  describeLoadBalancersPages : W -> Paged LoadBalancer;
  describeTags : string -> W -> Result (list TagDescription);
  describeTargetGroups : string -> W -> Result (list TargetGroup);
  (** the SDK's waiter: time passes, the state may move on *)
  waitUntilLoadBalancersDeleted : string -> W -> option error * W }.

Arguments mutate {W} _ _ _.
Arguments describeNetworkInterfaces {W} _ _.
Arguments describeVpcsPages {W} _ _.
Arguments describeNatGateways {W} _ _ _.
Arguments describeInternetGateways {W} _ _ _.
Arguments describeRouteTables {W} _ _ _.
Arguments describeSubnets {W} _ _ _.
Arguments describeLoadBalancersPages {W} _ _.
Arguments describeTags {W} _ _ _.
Arguments describeTargetGroups {W} _ _ _.
Arguments waitUntilLoadBalancersDeleted {W} _ _ _.

(** ** The state-and-trace monad *)

Definition M (W A : Type) : Type := W -> A * W * Trace.

Definition valueOf {W A} (r : A * W * Trace) : A := fst (fst r).
Definition worldOf {W A} (r : A * W * Trace) : W := snd (fst r).
Definition traceOf {W A} (r : A * W * Trace) : Trace := snd r.

Definition ret {W A} (a : A) : M W A := fun w => (a, w, []).

Definition bind {W A B} (m : M W A) (f : A -> M W B) : M W B :=
  fun w =>
    let r1 := m w in
    let r2 := f (valueOf r1) (worldOf r1) in
    (valueOf r2, worldOf r2, traceOf r1 ++ traceOf r2).

Declare Scope janitor_scope.
Delimit Scope janitor_scope with janitor.
Notation "x <- m ;; k" := (bind m (fun x => k))
  (at level 61, m at next level, right associativity) : janitor_scope.
Notation "m ;; k" := (bind m (fun _ => k))
  (at level 61, right associativity) : janitor_scope.
Open Scope janitor_scope.

Definition emit {W} (e : Event) : M W unit := fun w => (tt, w, [e]).

Definition Log {W} (msg : string) : M W unit := emit (EvLog LvlInfo msg).
Definition LogDebug {W} (msg : string) : M W unit := emit (EvLog LvlDebug msg).
Definition LogWarning {W} (msg : string) : M W unit := emit (EvLog LvlWarning msg).
Definition LogError {W} (msg : string) : M W unit := emit (EvLog LvlError msg).

Definition resultErr {A} (r : Result A) : option error :=
  match r with Ok _ => None | Err e => Some e end.

(** A read call: the state is left alone, the call is recorded. *)
Definition query {W A} (c : Call) (read : W -> Result A) : M W (Result A) :=
  fun w => let r := read w in (r, w, [EvCall c (resultErr r)]).

(** A call that may move the provider's state on. *)
Definition step {W} (c : Call) (op : W -> option error * W) : M W (option error) :=
  fun w => let r := op w in (fst r, snd r, [EvCall c (fst r)]).

(** A mutating call. *)
Definition exec {W} (client : Provider W) (c : Call) : M W (option error) :=
  step c (mutate client c).

(** [for _, x := range l { body }]. *)
Fixpoint forM_ {W A} (l : list A) (body : A -> M W unit) : M W unit :=
  match l with
  | [] => ret tt
  | x :: l' => body x ;; forM_ l' body
  end.

(** [for _, x := range l { body }] where the body updates a variable of
    the enclosing function. *)
Fixpoint foldM {W A S} (l : list A) (body : A -> S -> M W S) (s : S) : M W S :=
  match l with
  | [] => ret s
  | x :: l' => s' <- body x s ;; foldM l' body s'
  end.

(** The SDK's [Describe...PagesWithContext]: request a page, hand it to
    the callback with the last-page flag, stop when the callback returns
    false, when the last page was delivered or when a request fails.
    [S] is the state the callback closes over. *)
Fixpoint eachPage {W A S} (c : Call) (p : Paged A)
    (fn : list A -> bool -> S -> M W (bool * S)) (s : S) : M W (option error * S) :=
  match p with
  | PageErr e => emit (EvCall c (Some e)) ;; ret (Some e, s)
  | LastPage items =>
      emit (EvCall c None) ;;
      r <- fn items true s ;;
      ret (None, snd r)
  | MorePages items rest =>
      emit (EvCall c None) ;;
      r <- fn items false s ;;
      if fst r then eachPage c rest fn (snd r) else ret (None, snd r)
  end.

Definition whenSome {W} (o : option error) (k : error -> M W unit) : M W unit :=
  match o with
  | Some e => k e
  | None => ret tt
  end.

(** ** Scope and orchestrator *)

Record CleanupScope := { IgnoreTag : string }.

Record action := { commit : bool }.

Definition hasKey (k : string) (tags : list Tag) : bool :=
  existsb (fun tag => Key tag =? k) tags.

(** ** The cleaners

    [DeletionTag] is a constant of the package declared outside the three
    files; it is a parameter here. *)

Section Cleaners.

Context {W : Type}.
Variable client : Provider W.
Variable DeletionTag : string.

(** *** cleanup_enis.go *)

(** The tag loop of [cleanNetworkInterfaces] and [cleanLoadBalancersV2]:
    [switch key { case input.IgnoreTag: ...; case DeletionTag: ... }];
    the first matching case is taken. *)
Definition scanTag (input : CleanupScope) (st : bool * bool) (tag : Tag) : bool * bool :=
  if Key tag =? IgnoreTag input then (true, snd st)
  else if Key tag =? DeletionTag then (fst st, true)
  else st.

Definition scanTags (input : CleanupScope) (tags : list Tag) : bool * bool :=
  fold_left (scanTag input) tags (false, false).

(** The body of the loop over [out.NetworkInterfaces]. *)
Definition cleanNetworkInterface (a : action) (input : CleanupScope)
    (ni : NetworkInterface) : M W unit :=
  let st := scanTags input (TagSet ni) in
  let ignore := fst st in
  let markedForDeletion := snd st in
  if ignore then
    LogDebug ("network interface " ^^ NetworkInterfaceId ni ^^ " has ignore tag, skipping cleanup")
  else if negb markedForDeletion then
    if commit a then
      LogDebug ("network interface " ^^ NetworkInterfaceId ni
                ^^ " does not have deletion tag, marking for future deletion and skipping cleanup") ;;
      err <- exec client (CreateTags (NetworkInterfaceId ni) DeletionTag "true") ;;
      whenSome err (fun e =>
        LogError ("failed to mark network interface " ^^ NetworkInterfaceId ni
                  ^^ " for future deletion: " ^^ e))
    else ret tt
  else if negb (commit a) then
    LogDebug ("skipping deletion of network interface " ^^ NetworkInterfaceId ni
              ^^ " as running in dry-mode")
  else
    Log ("Deleting unattached network interface " ^^ NetworkInterfaceId ni
         ^^ " (subnet " ^^ NetworkInterface_SubnetId ni ^^ ", desc=" ^^ Description ni ^^ ")") ;;
    err <- exec client (DeleteNetworkInterface (NetworkInterfaceId ni)) ;;
    whenSome err (fun e =>
      LogWarning ("failed to delete network interface " ^^ NetworkInterfaceId ni ^^ ": " ^^ e)).

Definition cleanNetworkInterfaces (a : action) (input : CleanupScope) : M W (option error) :=
  out <- query DescribeNetworkInterfaces (describeNetworkInterfaces client) ;;
  match out with
  | Err err => ret (Some (Errorf "failed to describe network interfaces" err))
  | Ok nis =>
      if (List.length nis =? 0)%nat then
        Log "no unattached network interfaces to delete" ;; ret None
      else
        forM_ nis (cleanNetworkInterface a input) ;; ret None
  end.

(** *** cleanup_vpc.go *)

(** The tag loop of [cleanVPCs]: ignore, markedForDeletion,
    managedByCloudFormation. *)
Definition scanVpcTag (input : CleanupScope) (st : bool * bool * bool) (tag : Tag)
    : bool * bool * bool :=
  let '(ignore, markedForDeletion, managedByCloudFormation) := st in
  if Key tag =? IgnoreTag input then (true, markedForDeletion, managedByCloudFormation)
  else if Key tag =? DeletionTag then (ignore, true, managedByCloudFormation)
  else if (Key tag =? "aws:cloudformation:stack-name")
          || (Key tag =? "aws:cloudformation:stack-id")
       then (ignore, markedForDeletion, true)
  else st.

Definition scanVpcTags (input : CleanupScope) (tags : list Tag) : bool * bool * bool :=
  fold_left (scanVpcTag input) tags (false, false, false).

Definition markVPCForFutureDeletion (vpcId : string) : M W (option error) :=
  Log ("Marking VPC " ^^ vpcId ^^ " for future deletion") ;;
  exec client (CreateTags vpcId DeletionTag "true").

Definition deleteNATGateways (vpcId : string) : M W (option error) :=
  resp <- query (DescribeNatGateways vpcId) (describeNatGateways client vpcId) ;;
  match resp with
  | Err err => ret (Some (Errorf "failed to describe NAT gateways" err))
  | Ok natGateways =>
      forM_ natGateways (fun natGw =>
        LogDebug ("Deleting NAT Gateway " ^^ NatGatewayId natGw) ;;
        err <- exec client (DeleteNatGateway (NatGatewayId natGw)) ;;
        whenSome err (fun e =>
          LogError ("failed to delete NAT gateway " ^^ NatGatewayId natGw ^^ ": " ^^ e))) ;;
      ret None
  end.

(** The body of the loop over [resp.InternetGateways]. *)
Definition deleteInternetGateway (vpcId : string) (igw : InternetGateway) : M W unit :=
  LogDebug ("Detaching and deleting Internet Gateway " ^^ InternetGatewayId igw) ;;
  err <- exec client (DetachInternetGateway (InternetGatewayId igw) vpcId) ;;
  match err with
  | Some e =>
      LogError ("failed to detach internet gateway " ^^ InternetGatewayId igw ^^ ": " ^^ e)
  | None =>
      err <- exec client (DeleteInternetGateway (InternetGatewayId igw)) ;;
      whenSome err (fun e =>
        LogError ("failed to delete internet gateway " ^^ InternetGatewayId igw ^^ ": " ^^ e))
  end.

Definition deleteInternetGateways (vpcId : string) : M W (option error) :=
  resp <- query (DescribeInternetGateways vpcId) (describeInternetGateways client vpcId) ;;
  match resp with
  | Err err => ret (Some (Errorf "failed to describe internet gateways" err))
  | Ok internetGateways =>
      forM_ internetGateways (deleteInternetGateway vpcId) ;; ret None
  end.

(** [isMain]: some association of the route table has [Main] set. *)
Definition isMain (rt : RouteTable) : bool := existsb Main (Associations rt).

(** The body of the loop over [resp.RouteTables]. *)
Definition deleteRouteTable (rt : RouteTable) : M W unit :=
  if isMain rt then
    LogDebug ("Skipping main route table " ^^ RouteTableId rt)
  else
    LogDebug ("Deleting route table " ^^ RouteTableId rt) ;;
    err <- exec client (DeleteRouteTable (RouteTableId rt)) ;;
    whenSome err (fun e =>
      LogError ("failed to delete route table " ^^ RouteTableId rt ^^ ": " ^^ e)).

Definition deleteRouteTables (vpcId : string) : M W (option error) :=
  resp <- query (DescribeRouteTables vpcId) (describeRouteTables client vpcId) ;;
  match resp with
  | Err err => ret (Some (Errorf "failed to describe route tables" err))
  | Ok routeTables => forM_ routeTables deleteRouteTable ;; ret None
  end.

Definition deleteSubnets (vpcId : string) : M W (option error) :=
  resp <- query (DescribeSubnets vpcId) (describeSubnets client vpcId) ;;
  match resp with
  | Err err => ret (Some (Errorf "failed to describe subnets" err))
  | Ok subnets =>
      forM_ subnets (fun subnet =>
        LogDebug ("Deleting subnet " ^^ SubnetId subnet) ;;
        err <- exec client (DeleteSubnet (SubnetId subnet)) ;;
        whenSome err (fun e =>
          LogError ("failed to delete subnet " ^^ SubnetId subnet ^^ ": " ^^ e))) ;;
      ret None
  end.

Definition cleanVPCDependencies (vpcId : string) : M W (option error) :=
  LogDebug ("Cleaning VPC dependencies for " ^^ vpcId) ;;
  err <- deleteNATGateways vpcId ;;
  whenSome err (fun e =>
    LogError ("failed to delete NAT gateways for VPC " ^^ vpcId ^^ ": " ^^ e)) ;;
  err <- deleteInternetGateways vpcId ;;
  whenSome err (fun e =>
    LogError ("failed to delete internet gateways for VPC " ^^ vpcId ^^ ": " ^^ e)) ;;
  err <- deleteRouteTables vpcId ;;
  whenSome err (fun e =>
    LogError ("failed to delete route tables for VPC " ^^ vpcId ^^ ": " ^^ e)) ;;
  err <- deleteSubnets vpcId ;;
  whenSome err (fun e =>
    LogError ("failed to delete subnets for VPC " ^^ vpcId ^^ ": " ^^ e)) ;;
  ret None.

Definition deleteVPC (vpcId : string) : M W (option error) :=
  Log ("Deleting VPC " ^^ vpcId ^^ " and its dependencies") ;;
  err <- cleanVPCDependencies vpcId ;;
  whenSome err (fun e =>
    LogError ("failed to clean VPC dependencies for " ^^ vpcId ^^ ": " ^^ e)) ;;
  err <- exec client (DeleteVpc vpcId) ;;
  match err with
  | Some e => ret (Some (Errorf ("failed to delete vpc " ^^ vpcId) e))
  | None => Log ("Successfully deleted VPC " ^^ vpcId) ;; ret None
  end.

(** The body of the loop of [pageFunc] over [page.Vpcs]; the state is
    [vpcsToDelete]. *)
Definition classifyVpc (a : action) (input : CleanupScope) (vpc : Vpc)
    (vpcsToDelete : list Vpc) : M W (list Vpc) :=
  let '(ignore, markedForDeletion, managedByCloudFormation) :=
    scanVpcTags input (Vpc_Tags vpc) in
  if ignore || IsDefault vpc then
    LogDebug ("vpc " ^^ VpcId vpc ^^ " has ignore tag or is a default vpc, skipping cleanup") ;;
    ret vpcsToDelete
  else if managedByCloudFormation then
    LogDebug ("vpc " ^^ VpcId vpc
              ^^ " is managed by CloudFormation, should be cleaned by stack deletion, skipping") ;;
    ret vpcsToDelete
  else if negb markedForDeletion then
    (if commit a then
       LogDebug ("vpc " ^^ VpcId vpc
                 ^^ " does not have deletion tag, marking for future deletion and skipping cleanup") ;;
       err <- markVPCForFutureDeletion (VpcId vpc) ;;
       whenSome err (fun e =>
         LogError ("failed to mark vpc " ^^ VpcId vpc ^^ " for future deletion: " ^^ e))
     else ret tt) ;;
    ret vpcsToDelete
  else
    LogDebug ("adding vpc " ^^ VpcId vpc ^^ " to delete list") ;;
    ret (vpcsToDelete ++ [vpc]).

Definition vpcPageFunc (a : action) (input : CleanupScope)
    (page : list Vpc) (lastPage : bool) (vpcsToDelete : list Vpc)
    : M W (bool * list Vpc) :=
  l <- foldM page (classifyVpc a input) vpcsToDelete ;;
  ret (true, l).

(** The body of the loop over [vpcsToDelete]. *)
Definition deleteListedVpc (a : action) (vpc : Vpc) : M W unit :=
  if negb (commit a) then
    LogDebug ("skipping deletion of vpc " ^^ VpcId vpc ^^ " as running in dry-mode")
  else
    err <- deleteVPC (VpcId vpc) ;;
    whenSome err (fun e =>
      LogError ("failed to delete vpc " ^^ VpcId vpc ^^ ": " ^^ e)).

Definition cleanVPCs (a : action) (input : CleanupScope) : M W (option error) :=
  vpcs <- (fun w => eachPage DescribeVpcsPage (describeVpcsPages client w)
                      (vpcPageFunc a input) [] w) ;;
  match fst vpcs with
  | Some err => ret (Some (Errorf "failed getting list of vpcs" err))
  | None =>
      let vpcsToDelete := snd vpcs in
      if (List.length vpcsToDelete =? 0)%nat then
        Log "no vpcs to delete" ;; ret None
      else
        forM_ vpcsToDelete (deleteListedVpc a) ;; ret None
  end.

(** *** cleanup_elbv2.go *)

Definition markLoadBalancerV2ForFutureDeletion (lbArn : string) : M W (option error) :=
  Log ("Marking ELBv2 " ^^ lbArn ^^ " for future deletion") ;;
  exec client (AddTags lbArn DeletionTag "true").

(** On a failed [DescribeTargetGroups] the SDK returns the empty output
    it allocated for the request together with the error: [tgsOut] is not
    nil and [tgsOut.TargetGroups] is empty. *)
Definition targetGroupsOf (r : Result (list TargetGroup)) : list TargetGroup :=
  match r with
  | Ok tgs => tgs
  | Err _ => []
  end.

Definition deleteLoadBalancerV2 (lbArn : string) : M W (option error) :=
  Log ("Deleting ELBv2 " ^^ lbArn ^^ " and its target groups") ;;
  tgsOut <- query (DescribeTargetGroups lbArn) (describeTargetGroups client lbArn) ;;
  whenSome (resultErr tgsOut) (fun e =>
    LogWarning ("failed to list target groups for lb " ^^ lbArn ^^ ": " ^^ e)) ;;
  err <- exec client (DeleteLoadBalancer lbArn) ;;
  match err with
  | Some e => ret (Some (Errorf ("failed to delete elbv2 " ^^ lbArn) e))
  | None =>
      err <- step (WaitUntilLoadBalancersDeleted lbArn)
               (waitUntilLoadBalancersDeleted client lbArn) ;;
      whenSome err (fun e =>
        LogWarning ("failed waiting for elbv2 " ^^ lbArn ^^ " deletion: " ^^ e)) ;;
      forM_ (targetGroupsOf tgsOut) (fun tg =>
        Log ("Deleting target group " ^^ TargetGroupArn tg) ;;
        err <- exec client (DeleteTargetGroup (TargetGroupArn tg)) ;;
        whenSome err (fun e =>
          LogWarning ("failed to delete target group " ^^ TargetGroupArn tg ^^ ": " ^^ e))) ;;
      ret None
  end.

(** The two nested tag loops over [tagOut.TagDescriptions]. *)
Definition scanTagDescriptions (input : CleanupScope) (descs : list TagDescription)
    : bool * bool :=
  fold_left (fun st desc => fold_left (scanTag input) (Tags desc) st) descs (false, false).

(** The body of the loop of [pageFunc] over [page.LoadBalancers]; the
    state is [lbsToDelete]. *)
Definition classifyLoadBalancer (a : action) (input : CleanupScope) (lb : LoadBalancer)
    (lbsToDelete : list string) : M W (list string) :=
  tagOut <- query (DescribeTags (LoadBalancerArn lb)) (describeTags client (LoadBalancerArn lb)) ;;
  match tagOut with
  | Err e =>
      LogError ("failed getting tags for elbv2 " ^^ LoadBalancerName lb ^^ ": " ^^ e) ;;
      ret lbsToDelete
  | Ok descs =>
      let st := scanTagDescriptions input descs in
      let ignore := fst st in
      let markedForDeletion := snd st in
      if ignore then
        LogDebug ("elbv2 " ^^ LoadBalancerName lb ^^ " has ignore tag, skipping cleanup") ;;
        ret lbsToDelete
      else if negb markedForDeletion then
        (if commit a then
           LogDebug ("elbv2 " ^^ LoadBalancerName lb
                     ^^ " does not have deletion tag, marking for future deletion and skipping cleanup") ;;
           err <- markLoadBalancerV2ForFutureDeletion (LoadBalancerArn lb) ;;
           whenSome err (fun e =>
             LogError ("failed to mark elbv2 " ^^ LoadBalancerName lb
                       ^^ " for future deletion: " ^^ e))
         else ret tt) ;;
        ret lbsToDelete
      else
        LogDebug ("adding elbv2 " ^^ LoadBalancerName lb ^^ " to delete list") ;;
        ret (lbsToDelete ++ [LoadBalancerArn lb])
  end.

Definition lbPageFunc (a : action) (input : CleanupScope)
    (page : list LoadBalancer) (lastPage : bool) (lbsToDelete : list string)
    : M W (bool * list string) :=
  l <- foldM page (classifyLoadBalancer a input) lbsToDelete ;;
  ret (true, l).

(** The body of the loop over [lbsToDelete]. *)
Definition deleteListedLoadBalancer (a : action) (arn : string) : M W unit :=
  if negb (commit a) then
    LogDebug ("skipping deletion of elbv2 " ^^ arn ^^ " as running in dry-mode")
  else
    err <- deleteLoadBalancerV2 arn ;;
    whenSome err (fun e => LogError ("failed to delete elbv2 " ^^ arn ^^ ": " ^^ e)).

Definition cleanLoadBalancersV2 (a : action) (input : CleanupScope) : M W (option error) :=
  lbs <- (fun w => eachPage DescribeLoadBalancersPage (describeLoadBalancersPages client w)
                     (lbPageFunc a input) [] w) ;;
  match fst lbs with
  | Some err => ret (Some (Errorf "failed getting list of elbv2 load balancers" err))
  | None =>
      let lbsToDelete := snd lbs in
      if (List.length lbsToDelete =? 0)%nat then
        Log "no elbv2 load balancers to delete" ;; ret None
      else
        forM_ lbsToDelete (deleteListedLoadBalancer a) ;; ret None
  end.

End Cleaners.

(** ** waitUntil

    Time is explicit: [now] is the reading of the clock, in the unit of
    [time.Duration].  The context is the instant at which [ctx.Done()] is
    closed, if ever, and the error [ctx.Err()] reports from then on.
    [check] runs against a state of type [S]; it returns its two results,
    the state it leaves and the clock reading at its return.  When both
    channels of the [select] are ready at the same instant Go chooses one
    of them at random: [pickDone] is that choice. *)

Module Waiter.

Local Open Scope Z_scope.

Record Ctx := { doneAt : option Z; ctxErr : error }.

Inductive WaitEvent : Type :=
| Checked (at_ : Z)
| Slept (from till : Z).

Record Checked_ (S : Type) := {
  done : bool;
  err : option error;
  state : S;
  clock : Z }.
Arguments done {S} _.
Arguments err {S} _.
Arguments state {S} _.
Arguments clock {S} _.

(** The outcome of the [select]. *)
Inductive Selected : Type :=
| CtxDone (at_ : Z)
| TimerFired (at_ : Z).

(** [time.After(d)] fires at once for a non-positive [d]. *)
Definition timerAt (now interval : Z) : Z := now + Z.max 0 interval.

Definition select (ctx : Ctx) (pickDone : Z -> bool) (now interval : Z) : Selected :=
  match doneAt ctx with
  | None => TimerFired (timerAt now interval)
  | Some c =>
      if c <? timerAt now interval then CtxDone (Z.max now c)
      else if timerAt now interval <? c then TimerFired (timerAt now interval)
      else if pickDone now then CtxDone (Z.max now c)
      else TimerFired (timerAt now interval)
  end.

Record Returned (S : Type) := {
  result : option error;
  final : S;
  returnedAt : Z;
  events : list WaitEvent }.
Arguments result {S} _.
Arguments final {S} _.
Arguments returnedAt {S} _.
Arguments events {S} _.

Definition addEvents {S} (evs : list WaitEvent) (r : Returned S) : Returned S :=
  {| result := result r; final := final r; returnedAt := returnedAt r;
     events := evs ++ events r |}.

Section WaitUntil.

Context {S : Type}.
Variable ctx : Ctx.
Variable pickDone : Z -> bool.
Variable interval : Z.
Variable check : Ctx -> Z -> S -> Checked_ S.

(** The [for] loop; [fuel] bounds the number of iterations. *)
Fixpoint waitLoop (fuel : nat) (waitFor now : Z) (s : S) : option (Returned S) :=
  match fuel with
  | O => None
  | Datatypes.S fuel' =>
      if waitFor <? now then
        Some {| result := Some "timeout exceeded"; final := s;
                returnedAt := now; events := [] |}
      else
        let c := check ctx now s in
        match err c with
        | Some e =>
            Some {| result := Some e; final := state c;
                    returnedAt := clock c; events := [Checked now] |}
        | None =>
            if done c then
              Some {| result := None; final := state c;
                      returnedAt := clock c; events := [Checked now] |}
            else
              match select ctx pickDone (clock c) interval with
              | CtxDone t =>
                  Some {| result := Some (ctxErr ctx); final := state c;
                          returnedAt := t; events := [Checked now] |}
              | TimerFired t =>
                  option_map (addEvents [Checked now; Slept (clock c) t])
                    (waitLoop fuel' waitFor t (state c))
              end
        end
  end.

End WaitUntil.

Definition waitUntil {S} (fuel : nat) (ctx : Ctx) (pickDone : Z -> bool)
    (now timeout interval : Z) (check : Ctx -> Z -> S -> Checked_ S) (s : S)
    : option (Returned S) :=
  let waitFor := now + timeout in
  waitLoop ctx pickDone interval check fuel waitFor now s.

End Waiter.

(** ** The vocabulary of the specification *)

(** The three classes of the tag policy, as functions of the tag set:
    the ignore key wins over the deletion key. *)
Inductive Classification : Type := Ignored | Marked | Unmarked.

Definition classify (ignoreTag deletionTag : string) (tags : list Tag) : Classification :=
  if hasKey ignoreTag tags then Ignored
  else if hasKey deletionTag tags then Marked
  else Unmarked.

(** The mark/delete decision table: the mutating calls one classified
    resource receives in one pass. *)
Definition decisionTable (commit : bool) (cl : Classification)
    (addTag delete : Call) : list Call :=
  match cl, commit with
  | Unmarked, true => [addTag]
  | Marked, true => [delete]
  | _, _ => []
  end.

Definition allTags (descs : list TagDescription) : list Tag :=
  flat_map Tags descs.

(** The tag keys by which CloudFormation marks what a stack owns. *)
Definition isStackKey (k : string) : bool :=
  (k =? "aws:cloudformation:stack-name") || (k =? "aws:cloudformation:stack-id").

Definition managedByCloudFormation (tags : list Tag) : bool :=
  existsb (fun tag => isStackKey (Key tag)) tags.

(** The networks that are never candidates. *)
Definition excludedVpc (vpc : Vpc) : bool :=
  IsDefault vpc || managedByCloudFormation (Vpc_Tags vpc).

Definition niDecision (deletionTag : string) (a : action) (input : CleanupScope)
    (ni : NetworkInterface) : list Call :=
  decisionTable (commit a) (classify (IgnoreTag input) deletionTag (TagSet ni))
    (CreateTags (NetworkInterfaceId ni) deletionTag "true")
    (DeleteNetworkInterface (NetworkInterfaceId ni)).

Definition vpcMark (deletionTag : string) (a : action) (input : CleanupScope)
    (vpc : Vpc) : list Call :=
  if excludedVpc vpc then []
  else match classify (IgnoreTag input) deletionTag (Vpc_Tags vpc), commit a with
       | Unmarked, true => [CreateTags (VpcId vpc) deletionTag "true"]
       | _, _ => []
       end.

Definition vpcListed (deletionTag : string) (input : CleanupScope) (vpc : Vpc) : bool :=
  negb (excludedVpc vpc) &&
  match classify (IgnoreTag input) deletionTag (Vpc_Tags vpc) with
  | Marked => true
  | _ => false
  end.

Definition vpcDelete (deletionTag : string) (a : action) (input : CleanupScope)
    (vpc : Vpc) : list Call :=
  if vpcListed deletionTag input vpc && commit a then [DeleteVpc (VpcId vpc)] else [].

(** The decision table applied to one listed load balancer at the state
    in which the pass reaches it.  The triple holds the add-tag calls
    issued so far, the worklist so far and the provider's state: the
    tags are those the provider reports in that state, an unmarked load
    balancer is tagged when [commit] is true, a marked one joins the
    worklist, one whose tags cannot be fetched is passed over. *)
Definition lbDecide {W} (client : Provider W) (deletionTag : string) (a : action)
    (input : CleanupScope) (st : list Call * list string * W) (lb : LoadBalancer)
    : list Call * list string * W :=
  let marks := fst (fst st) in
  let worklist := snd (fst st) in
  let w := snd st in
  match describeTags client (LoadBalancerArn lb) w with
  | Err _ => st
  | Ok descs =>
      match classify (IgnoreTag input) deletionTag (allTags descs) with
      | Ignored => st
      | Marked => (marks, worklist ++ [LoadBalancerArn lb], w)
      | Unmarked =>
          if commit a then
            (marks ++ [AddTags (LoadBalancerArn lb) deletionTag "true"], worklist,
             snd (mutate client (AddTags (LoadBalancerArn lb) deletionTag "true") w))
          else st
      end
  end.

(** The table over the load balancers of a listing, in listing order,
    from the state [w]. *)
Definition lbDecisions {W} (client : Provider W) (deletionTag : string) (a : action)
    (input : CleanupScope) (lbs : list LoadBalancer) (w : W)
    : list Call * list string * W :=
  fold_left (lbDecide client deletionTag a input) lbs ([], [], w).

(** Tagging and deleting a network, as opposed to its dependents. *)
Definition isVpcCall (c : Call) : bool :=
  match c with
  | CreateTags _ _ _ | DeleteVpc _ => true
  | _ => false
  end.

Definition isLoadBalancerCall (c : Call) : bool :=
  match c with
  | AddTags _ _ _ | DeleteLoadBalancer _ => true
  | _ => false
  end.

(** The calls that name a given network interface, network or load
    balancer as the object they act on. *)
Definition concernsNetworkInterface (x : string) (c : Call) : bool :=
  match c with
  | CreateTags r _ _ => r =? x
  | DeleteNetworkInterface id => id =? x
  | _ => false
  end.

Definition concernsVpc (x : string) (c : Call) : bool :=
  match c with
  | CreateTags r _ _ => r =? x
  | DeleteVpc v | DescribeNatGateways v | DescribeInternetGateways v
  | DescribeRouteTables v | DescribeSubnets v | DetachInternetGateway _ v => v =? x
  | _ => false
  end.

Definition concernsLoadBalancer (x : string) (c : Call) : bool :=
  match c with
  | AddTags arn _ _ | DeleteLoadBalancer arn | DescribeTargetGroups arn
  | WaitUntilLoadBalancersDeleted arn => arn =? x
  | _ => false
  end.

Definition deletesRouteTable (x : string) (c : Call) : bool :=
  match c with
  | DeleteRouteTable id => id =? x
  | _ => false
  end.

Definition deletesSubnet (x : string) (c : Call) : bool :=
  match c with
  | DeleteSubnet id => id =? x
  | _ => false
  end.

(** The four teardown phases of a network. *)
Definition natPhase (c : Call) : bool :=
  match c with DescribeNatGateways _ | DeleteNatGateway _ => true | _ => false end.

Definition igwPhase (c : Call) : bool :=
  match c with
  | DescribeInternetGateways _ | DetachInternetGateway _ _ | DeleteInternetGateway _ => true
  | _ => false
  end.

Definition routeTablePhase (c : Call) : bool :=
  match c with DescribeRouteTables _ | DeleteRouteTable _ => true | _ => false end.

Definition subnetPhase (c : Call) : bool :=
  match c with DescribeSubnets _ | DeleteSubnet _ => true | _ => false end.

Definition endsWith (suffix s : string) : Prop := exists pre, s = pre ^^ suffix.

(** A failed call is reported: a warning or error line of the trace ends
    with its error. *)
Definition reported (e : error) (t : Trace) : Prop :=
  exists lvl msg,
    In (EvLog lvl msg) t /\ (lvl = LvlWarning \/ lvl = LvlError) /\ endsWith e msg.

(** Every failed call of the trace other than a listing request is
    reported in the trace. *)
Definition failuresReported (t : Trace) : Prop :=
  forall c e, In (EvCall c (Some e)) t -> isListing c = false -> reported e t.

(** The same for a function that returns an error to its caller: a
    failed call is reported in the trace or its error is the tail of the
    error returned. *)
Definition reportedOrReturned (r : option error) (t : Trace) : Prop :=
  forall c e, In (EvCall c (Some e)) t -> isListing c = false ->
    reported e t \/ exists e', r = Some e' /\ endsWith e e'.

(** The lines by which a cleaner announces an empty worklist. *)
Definition nothingToDelete (ev : Event) : bool :=
  match ev with
  | EvLog LvlInfo msg =>
      (msg =? "no unattached network interfaces to delete")
      || (msg =? "no vpcs to delete")
      || (msg =? "no elbv2 load balancers to delete")
  | _ => false
  end.

Definition deleteOrNothing (ev : Event) : bool :=
  match ev with
  | EvCall c _ => isDelete c
  | _ => nothingToDelete ev
  end.

Definition isAddTagEvent (ev : Event) : bool :=
  match ev with
  | EvCall c _ => isAddTag c
  | _ => false
  end.

Definition isListingEvent (ev : Event) : bool :=
  match ev with
  | EvCall c _ => isListing c
  | _ => false
  end.

(** [before p q t]: some event satisfying [p] occurs in [t] earlier than
    some event satisfying [q]. *)
Fixpoint before (p q : Event -> bool) (t : Trace) : bool :=
  match t with
  | [] => false
  | ev :: t' => (p ev && existsb q t') || before p q t'
  end.

(** No call of the trace satisfies [p]. *)
Definition avoids (p : Call -> bool) (t : Trace) : Prop :=
  existsb p (calls t) = false.

(** The networks [classifyVpc] passes over without looking at the
    deletion tag. *)
Definition skipsVpc (deletionTag : string) (input : CleanupScope) (vpc : Vpc) : bool :=
  let '(ignore, _, cfn) := scanVpcTags deletionTag input (Vpc_Tags vpc) in
  (ignore || IsDefault vpc) || cfn.

(** The networks [classifyVpc] appends to [vpcsToDelete], and those it
    tags. *)
Definition listsVpc (deletionTag : string) (input : CleanupScope) (vpc : Vpc) : bool :=
  negb (skipsVpc deletionTag input vpc)
  && snd (fst (scanVpcTags deletionTag input (Vpc_Tags vpc))).

Definition marksVpc (deletionTag : string) (a : action) (input : CleanupScope)
    (vpc : Vpc) : bool :=
  negb (skipsVpc deletionTag input vpc)
  && negb (snd (fst (scanVpcTags deletionTag input (Vpc_Tags vpc))))
  && commit a.

(** A computation that leaves the provider's state as it found it and
    issues no mutating call. *)
Definition readOnly {W A} (m : M W A) : Prop :=
  forall w, worldOf (m w) = w /\ existsb mutating (calls (traceOf (m w))) = false.

(** ** A scripted provider

    The answers of the read calls and the outcomes of the mutating calls
    are fixed in advance; the state is the journal of the mutating calls
    received so far. *)

Record Script := {
  sNetworkInterfaces : Result (list NetworkInterface);
  sVpcs : Paged Vpc;
  sNatGateways : string -> Result (list NatGateway);
  sInternetGateways : string -> Result (list InternetGateway);
  sRouteTables : string -> Result (list RouteTable);
  sSubnets : string -> Result (list Subnet);
  sLoadBalancers : Paged LoadBalancer;
  sTags : string -> Result (list TagDescription);
  sTargetGroups : string -> Result (list TargetGroup);
  sFails : Call -> option error }.

Definition scripted (s : Script) : Provider (list Call) := {|
  mutate := fun c w => (sFails s c, w ++ [c]);
  describeNetworkInterfaces := fun _ => sNetworkInterfaces s;
  describeVpcsPages := fun _ => sVpcs s;
  describeNatGateways := fun v _ => sNatGateways s v;
  describeInternetGateways := fun v _ => sInternetGateways s v;
  describeRouteTables := fun v _ => sRouteTables s v;
  describeSubnets := fun v _ => sSubnets s v;
  describeLoadBalancersPages := fun _ => sLoadBalancers s;
  describeTags := fun arn _ => sTags s arn;
  describeTargetGroups := fun arn _ => sTargetGroups s arn;
  waitUntilLoadBalancersDeleted := fun arn w => (sFails s (WaitUntilLoadBalancersDeleted arn), w)
|}.

(** A value for the package's [DeletionTag], for the examples. *)
Definition sampleDeletionTag : string := "aws-janitor/marked-for-deletion".

Definition keep : CleanupScope := {| IgnoreTag := "keep" |}.

Definition tag (k : string) : Tag := {| Key := k; Value := "true" |}.

(** One resource of each kind carrying both the ignore key and the
    deletion key. *)
Definition protectedScript : Script := {|
  sNetworkInterfaces :=
    Ok [{| NetworkInterfaceId := "eni-1"; NetworkInterface_SubnetId := "subnet-1";
           Description := "idle"; TagSet := [tag "keep"; tag sampleDeletionTag] |}];
  sVpcs := LastPage [{| VpcId := "vpc-1"; IsDefault := false;
                        Vpc_Tags := [tag sampleDeletionTag; tag "keep"] |}];
  sNatGateways := fun _ => Ok [];
  sInternetGateways := fun _ => Ok [];
  sRouteTables := fun _ => Ok [];
  sSubnets := fun _ => Ok [];
  sLoadBalancers := LastPage [{| LoadBalancerArn := "lb-1"; LoadBalancerName := "web" |}];
  sTags := fun arn =>
    Ok [{| ResourceArn := arn; Tags := [tag "keep"; tag sampleDeletionTag] |}];
  sTargetGroups := fun _ => Ok [];
  sFails := fun _ => None |}.

(** A network marked for deletion whose only subnet carries the ignore
    key. *)
Definition keptSubnet : Subnet :=
  {| SubnetId := "subnet-1"; Subnet_Tags := [tag "keep"] |}.

Definition keptSubnetScript : Script := {|
  sNetworkInterfaces := Ok [];
  sVpcs := LastPage [{| VpcId := "vpc-1"; IsDefault := false;
                        Vpc_Tags := [tag sampleDeletionTag] |}];
  sNatGateways := fun _ => Ok [];
  sInternetGateways := fun _ => Ok [];
  sRouteTables := fun _ => Ok [];
  sSubnets := fun _ => Ok [keptSubnet];
  sLoadBalancers := LastPage [];
  sTags := fun _ => Ok [];
  sTargetGroups := fun _ => Ok [];
  sFails := fun _ => None |}.

(** The default network, untagged, next to a marked network with a main
    and an ordinary route table. *)
Definition defaultVpc : Vpc :=
  {| VpcId := "vpc-default"; IsDefault := true; Vpc_Tags := [] |}.

Definition excludedScript : Script := {|
  sNetworkInterfaces := Ok [];
  sVpcs := LastPage [defaultVpc;
                     {| VpcId := "vpc-1"; IsDefault := false;
                        Vpc_Tags := [tag sampleDeletionTag] |}];
  sNatGateways := fun _ => Ok [];
  sInternetGateways := fun _ => Ok [];
  sRouteTables := fun _ =>
    Ok [{| RouteTableId := "rtb-main"; Associations := [{| Main := true |}];
           RouteTable_Tags := [] |};
        {| RouteTableId := "rtb-1"; Associations := [{| Main := false |}];
           RouteTable_Tags := [] |}];
  sSubnets := fun _ => Ok [];
  sLoadBalancers := LastPage [];
  sTags := fun _ => Ok [];
  sTargetGroups := fun _ => Ok [];
  sFails := fun _ => None |}.

(** Three unattached network interfaces: one with the ignore key, one
    without tags, one with the deletion key. *)
Definition scenarioScript : Script := {|
  sNetworkInterfaces :=
    Ok [{| NetworkInterfaceId := "eni-a"; NetworkInterface_SubnetId := "subnet-1";
           Description := ""; TagSet := [tag "keep"] |};
        {| NetworkInterfaceId := "eni-b"; NetworkInterface_SubnetId := "subnet-1";
           Description := ""; TagSet := [] |};
        {| NetworkInterfaceId := "eni-c"; NetworkInterface_SubnetId := "subnet-1";
           Description := ""; TagSet := [tag sampleDeletionTag] |}];
  sVpcs := LastPage [];
  sNatGateways := fun _ => Ok [];
  sInternetGateways := fun _ => Ok [];
  sRouteTables := fun _ => Ok [];
  sSubnets := fun _ => Ok [];
  sLoadBalancers := LastPage [];
  sTags := fun _ => Ok [];
  sTargetGroups := fun _ => Ok [];
  sFails := fun _ => None |}.

Definition committing : action := {| commit := true |}.

(** Three load balancers marked for deletion: the tags of the first
    cannot be fetched, the target groups of the second cannot be
    listed, the third has one target group. *)
Definition flakyScript : Script := {|
  sNetworkInterfaces := Ok [];
  sVpcs := LastPage [];
  sNatGateways := fun _ => Ok [];
  sInternetGateways := fun _ => Ok [];
  sRouteTables := fun _ => Ok [];
  sSubnets := fun _ => Ok [];
  sLoadBalancers :=
    LastPage [{| LoadBalancerArn := "lb-1"; LoadBalancerName := "one" |};
              {| LoadBalancerArn := "lb-2"; LoadBalancerName := "two" |};
              {| LoadBalancerArn := "lb-3"; LoadBalancerName := "three" |}];
  sTags := fun arn =>
    if arn =? "lb-1" then Err "Throttling"
    else Ok [{| ResourceArn := arn; Tags := [tag sampleDeletionTag] |}];
  sTargetGroups := fun arn =>
    if arn =? "lb-2" then Err "AccessDenied"
    else Ok [{| TargetGroupArn := "tg-3" |}];
  sFails := fun _ => None |}.

(** Two pages of networks: an untagged network on the first, a marked
    one on the second. *)
Definition twoPageScript : Script := {|
  sNetworkInterfaces := Ok [];
  sVpcs := MorePages [{| VpcId := "vpc-1"; IsDefault := false; Vpc_Tags := [] |}]
             (LastPage [{| VpcId := "vpc-2"; IsDefault := false;
                           Vpc_Tags := [tag sampleDeletionTag] |}]);
  sNatGateways := fun _ => Ok [];
  sInternetGateways := fun _ => Ok [];
  sRouteTables := fun _ => Ok [];
  sSubnets := fun _ => Ok [];
  sLoadBalancers := LastPage [];
  sTags := fun _ => Ok [];
  sTargetGroups := fun _ => Ok [];
  sFails := fun _ => None |}.

(** Two pages of load balancers: an untagged one on the first page, a
    marked one on the second. *)
Definition twoPageBalancers : Script := {|
  sNetworkInterfaces := Ok [];
  sVpcs := LastPage [];
  sNatGateways := fun _ => Ok [];
  sInternetGateways := fun _ => Ok [];
  sRouteTables := fun _ => Ok [];
  sSubnets := fun _ => Ok [];
  sLoadBalancers :=
    MorePages [{| LoadBalancerArn := "lb-1"; LoadBalancerName := "one" |}]
      (LastPage [{| LoadBalancerArn := "lb-2"; LoadBalancerName := "two" |}]);
  sTags := fun arn =>
    if String.eqb arn "lb-2"
    then Ok [{| ResourceArn := arn; Tags := [tag sampleDeletionTag] |}]
    else Ok [{| ResourceArn := arn; Tags := [] |}];
  sTargetGroups := fun _ => Ok [];
  sFails := fun _ => None |}.

Definition markedVpc (id : string) : Vpc :=
  {| VpcId := id; IsDefault := false; Vpc_Tags := [tag sampleDeletionTag] |}.

(** Three networks marked for deletion; the provider rejects the
    deletion of the first. *)
Definition stuckVpcScript : Script := {|
  sNetworkInterfaces := Ok [];
  sVpcs := LastPage [markedVpc "vpc-a"; markedVpc "vpc-b"; markedVpc "vpc-c"];
  sNatGateways := fun _ => Ok [];
  sInternetGateways := fun _ => Ok [];
  sRouteTables := fun _ => Ok [];
  sSubnets := fun _ => Ok [];
  sLoadBalancers := LastPage [];
  sTags := fun _ => Ok [];
  sTargetGroups := fun _ => Ok [];
  sFails := fun c =>
    match c with
    | DeleteVpc v => if v =? "vpc-a" then Some "DependencyViolation" else None
    | _ => None
    end |}.

(** A context cancelled at instant 25 and a [check] that counts its
    evaluations: done from the third on, failing at the seventh, one
    tick per evaluation. *)
Definition sampleCtx : Waiter.Ctx :=
  {| Waiter.doneAt := Some 25%Z; Waiter.ctxErr := "context canceled" |}.

Definition sampleCheck (_ : Waiter.Ctx) (t : Z) (n : nat) : Waiter.Checked_ nat :=
  {| Waiter.done := (3 <=? n)%nat;
     Waiter.err := if (n =? 7)%nat then Some "boom" else None;
     Waiter.state := S n;
     Waiter.clock := (t + 1)%Z |}.

(** An add-tag call writes [deletionTag] with the value "true". *)
Definition writesDeletionTag (deletionTag : string) (c : Call) : bool :=
  match c with
  | CreateTags _ k v | AddTags _ k v => (k =? deletionTag) && (v =? "true")
  | _ => true
  end.

(** Every call of the trace satisfies [q]. *)
Definition confined (q : Call -> bool) (t : Trace) : Prop :=
  forallb q (calls t) = true.

(** The calls that tag or delete a listed kind of resource name one of
    [ids]; the calls on dependents are left alone. *)
Definition touchesOnly (ids : list string) (c : Call) : bool :=
  match c with
  | CreateTags r _ _ | AddTags r _ _ | DeleteNetworkInterface r
  | DeleteVpc r | DeleteLoadBalancer r => existsb (String.eqb r) ids
  | _ => true
  end.

Definition isTeardownCall (c : Call) : bool :=
  natPhase c || igwPhase c || routeTablePhase c || subnetPhase c.

(** A listing of networks that fails on its second page. *)
Definition brokenListingScript : Script := {|
  sNetworkInterfaces := Err "RequestLimitExceeded";
  sVpcs := MorePages [{| VpcId := "vpc-1"; IsDefault := false; Vpc_Tags := [] |};
                      markedVpc "vpc-2"]
             (PageErr "RequestLimitExceeded");
  sNatGateways := fun _ => Ok [];
  sInternetGateways := fun _ => Ok [];
  sRouteTables := fun _ => Ok [];
  sSubnets := fun _ => Ok [];
  sLoadBalancers :=
    MorePages [{| LoadBalancerArn := "lb-1"; LoadBalancerName := "one" |}]
      (PageErr "RequestLimitExceeded");
  sTags := fun arn => Ok [{| ResourceArn := arn; Tags := [tag sampleDeletionTag] |}];
  sTargetGroups := fun _ => Ok [];
  sFails := fun _ => None |}.

(** The lines a dry run logs for one listed network interface. *)
Definition dryRunLines (deletionTag : string) (input : CleanupScope)
    (ni : NetworkInterface) : Trace :=
  match classify (IgnoreTag input) deletionTag (TagSet ni) with
  | Ignored =>
      [EvLog LvlDebug ("network interface " ^^ NetworkInterfaceId ni
                       ^^ " has ignore tag, skipping cleanup")]
  | Marked =>
      [EvLog LvlDebug ("skipping deletion of network interface " ^^ NetworkInterfaceId ni
                       ^^ " as running in dry-mode")]
  | Unmarked => []
  end.

(** A provider that keeps the unattached network interfaces of an
    account and never fails: [CreateTags] appends the tag to the
    interface named, [DeleteNetworkInterface] removes it, the listing
    returns what is there.  The other services are empty. *)
Definition addTag (id k v : string) (ni : NetworkInterface) : NetworkInterface :=
  if NetworkInterfaceId ni =? id then
    {| NetworkInterfaceId := NetworkInterfaceId ni;
       NetworkInterface_SubnetId := NetworkInterface_SubnetId ni;
       Description := Description ni;
       TagSet := TagSet ni ++ [{| Key := k; Value := v |}] |}
  else ni.

Definition interfaceStore : Provider (list NetworkInterface) := {|
  mutate := fun c w =>
    match c with
    | CreateTags r k v => (None, map (addTag r k v) w)
    | DeleteNetworkInterface id =>
        (None, filter (fun ni => negb (NetworkInterfaceId ni =? id)) w)
    | _ => (None, w)
    end;
  describeNetworkInterfaces := fun w => Ok w;
  describeVpcsPages := fun _ => LastPage [];
  describeNatGateways := fun _ _ => Ok [];
  describeInternetGateways := fun _ _ => Ok [];
  describeRouteTables := fun _ _ => Ok [];
  describeSubnets := fun _ _ => Ok [];
  describeLoadBalancersPages := fun _ => LastPage [];
  describeTags := fun _ _ => Ok [];
  describeTargetGroups := fun _ _ => Ok [];
  waitUntilLoadBalancersDeleted := fun _ w => (None, w) |}.

(** What one committing pass makes of an interface of the store. *)
Definition afterPass (deletionTag : string) (input : CleanupScope)
    (nis : list NetworkInterface) : list NetworkInterface :=
  flat_map (fun ni =>
    match classify (IgnoreTag input) deletionTag (TagSet ni) with
    | Ignored => [ni]
    | Unmarked => [addTag (NetworkInterfaceId ni) deletionTag "true" ni]
    | Marked => []
    end) nis.

(** The provider operations each cleaner uses. *)
Definition interfaceOperation (c : Call) : bool :=
  match c with
  | DescribeNetworkInterfaces | CreateTags _ _ _ | DeleteNetworkInterface _ => true
  | _ => false
  end.

Definition networkOperation (c : Call) : bool :=
  match c with
  | DescribeVpcsPage | CreateTags _ _ _ | DeleteVpc _ => true
  | _ => isTeardownCall c
  end.

Definition loadBalancerOperation (c : Call) : bool :=
  match c with
  | DescribeLoadBalancersPage | DescribeTags _ | AddTags _ _ _ | DescribeTargetGroups _
  | DeleteLoadBalancer _ | WaitUntilLoadBalancersDeleted _ | DeleteTargetGroup _ => true
  | _ => false
  end.

(** Three interfaces of one account: ignored, untagged, marked. *)
Definition sampleInterfaces : list NetworkInterface :=
  [{| NetworkInterfaceId := "eni-a"; NetworkInterface_SubnetId := "subnet-1";
      Description := ""; TagSet := [tag "keep"] |};
   {| NetworkInterfaceId := "eni-b"; NetworkInterface_SubnetId := "subnet-1";
      Description := ""; TagSet := [] |};
   {| NetworkInterfaceId := "eni-c"; NetworkInterface_SubnetId := "subnet-1";
      Description := ""; TagSet := [tag sampleDeletionTag] |}].

(** The number of requests a paginated listing takes: one per page, the
    failed request included. *)
Fixpoint requests {A} (p : Paged A) : nat :=
  match p with
  | LastPage _ => 1
  | MorePages _ rest => S (requests rest)
  | PageErr _ => 1
  end.

(** The number of evaluations of [check] among the events of a wait. *)
Fixpoint checks (evs : list Waiter.WaitEvent) : nat :=
  match evs with
  | [] => 0
  | Waiter.Checked _ :: evs' => S (checks evs')
  | Waiter.Slept _ _ :: evs' => checks evs'
  end.

(** An evaluation of [check] at or before the deadline, or a sleep of
    one interval. *)
Definition wellTimed (interval waitFor : Z) (ev : Waiter.WaitEvent) : bool :=
  match ev with
  | Waiter.Checked t => (t <=? waitFor)%Z
  | Waiter.Slept from till => (till =? from + Z.max 0 interval)%Z
  end.

(** * Properties *)

(** ** The monad and its loops *)

Section MonadFacts.

Context {W : Type}.

Lemma calls_app (t1 t2 : Trace) : calls (t1 ++ t2) = calls t1 ++ calls t2.
Proof.
  induction t1 as [|[c e|lvl msg] t1 IH]; simpl; [reflexivity| |assumption].
  now rewrite IH.
Qed.

Lemma traceOf_bind {A B} (m : M W A) (f : A -> M W B) (w : W) :
  traceOf (bind m f w) = traceOf (m w) ++ traceOf (f (valueOf (m w)) (worldOf (m w))).
Proof. reflexivity. Qed.

Lemma valueOf_bind {A B} (m : M W A) (f : A -> M W B) (w : W) :
  valueOf (bind m f w) = valueOf (f (valueOf (m w)) (worldOf (m w))).
Proof. reflexivity. Qed.

Lemma worldOf_bind {A B} (m : M W A) (f : A -> M W B) (w : W) :
  worldOf (bind m f w) = worldOf (f (valueOf (m w)) (worldOf (m w))).
Proof. reflexivity. Qed.

Lemma worldOf_emit (e : Event) (w : W) : worldOf (emit e w) = w.
Proof. reflexivity. Qed.

Lemma traceOf_emit (e : Event) (w : W) : traceOf (emit e w) = [e].
Proof. reflexivity. Qed.

Lemma worldOf_ret {A} (a : A) (w : W) : worldOf (ret a w) = w.
Proof. reflexivity. Qed.

Lemma traceOf_ret {A} (a : A) (w : W) : traceOf (ret a w) = [].
Proof. reflexivity. Qed.

Lemma valueOf_ret {A} (a : A) (w : W) : valueOf (ret a w) = a.
Proof. reflexivity. Qed.

(** A property of traces that holds of the empty trace and is kept by
    concatenation holds of a loop as soon as it holds of each round. *)
Lemma forM_trace {A} (P : Trace -> Prop) (l : list A) (body : A -> M W unit) :
  P [] ->
  (forall t1 t2, P t1 -> P t2 -> P (t1 ++ t2)) ->
  (forall x w, In x l -> P (traceOf (body x w))) ->
  forall w, P (traceOf (forM_ l body w)).
Proof.
  intros Hnil Happ.
  induction l as [|x l IH]; intros Hbody w.
  - exact Hnil.
  - simpl forM_. rewrite traceOf_bind. apply Happ.
    + apply Hbody. now left.
    + apply IH. intros y w' Hy. apply Hbody. now right.
Qed.

Lemma foldM_trace {A S} (P : Trace -> Prop) (R : S -> Prop)
    (l : list A) (body : A -> S -> M W S) :
  P [] ->
  (forall t1 t2, P t1 -> P t2 -> P (t1 ++ t2)) ->
  (forall x s w, In x l -> R s ->
     R (valueOf (body x s w)) /\ P (traceOf (body x s w))) ->
  forall s w, R s ->
    R (valueOf (foldM l body s w)) /\ P (traceOf (foldM l body s w)).
Proof.
  intros Hnil Happ.
  induction l as [|x l IH]; intros Hbody s w Hs.
  - split; [exact Hs | exact Hnil].
  - simpl foldM. rewrite traceOf_bind, valueOf_bind.
    destruct (Hbody x s w (or_introl eq_refl) Hs) as [HR HP].
    destruct (IH (fun y s' w' Hy => Hbody y s' w' (or_intror Hy))
                 (valueOf (body x s w)) (worldOf (body x s w)) HR) as [HR' HP'].
    split; [exact HR' | now apply Happ].
Qed.

(** The paginator with a callback that is a loop over the page. *)
Lemma eachPage_trace {A S} (P : Trace -> Prop) (R : S -> Prop) (c : Call)
    (p : Paged A) (fn : list A -> bool -> S -> M W (bool * S)) :
  P [] ->
  (forall t1 t2, P t1 -> P t2 -> P (t1 ++ t2)) ->
  (forall e, P [EvCall c e]) ->
  (forall page lastPage s w, incl page (pagedItems p) -> R s ->
     R (snd (valueOf (fn page lastPage s w))) /\ P (traceOf (fn page lastPage s w))) ->
  forall s w, R s ->
    R (snd (valueOf (eachPage c p fn s w))) /\ P (traceOf (eachPage c p fn s w)).
Proof.
  intros Hnil Happ Hcall.
  induction p as [items|items rest IH|e]; intros Hfn s w Hs.
  - simpl eachPage. rewrite !traceOf_bind, !valueOf_bind. simpl.
    destruct (Hfn items true s w (incl_refl _) Hs) as [HR HP].
    split; [exact HR|].
    apply (Happ [_]); [apply Hcall|]. rewrite app_nil_r. exact HP.
  - simpl eachPage. rewrite !traceOf_bind, !valueOf_bind.
    rewrite !worldOf_emit, traceOf_emit.
    assert (Hin : incl items (pagedItems (MorePages items rest)))
      by (simpl; apply incl_appl, incl_refl).
    destruct (Hfn items false s w Hin Hs) as [HR HP].
    destruct (fst (valueOf (fn items false s w))).
    + destruct (IH (fun page lp s' w' Hp => Hfn page lp s' w'
                      (fun x Hx => in_or_app _ _ _ (or_intror (Hp x Hx))))
                   (snd (valueOf (fn items false s w)))
                   (worldOf (fn items false s w)) HR) as [HR' HP'].
      split; [exact HR'|].
      apply (Happ [_]); [apply Hcall|]. now apply Happ.
    + split; [exact HR|].
      apply (Happ [_]); [apply Hcall|]. rewrite traceOf_ret, app_nil_r. exact HP.
  - simpl. split; [exact Hs|]. apply (Happ [_] []); [apply Hcall | exact Hnil].
Qed.

(** [F] maps traces to lists and commutes with concatenation. *)
Section Homs.

Context {B : Type}.
Variable F : Trace -> list B.
Hypothesis F_nil : F [] = [].
Hypothesis F_app : forall t1 t2, F (t1 ++ t2) = F t1 ++ F t2.

Lemma forM_hom {A} (l : list A) (body : A -> M W unit) (g : A -> list B) :
  (forall x w, In x l -> F (traceOf (body x w)) = g x) ->
  forall w, F (traceOf (forM_ l body w)) = flat_map g l.
Proof.
  induction l as [|x l IH]; intros Hbody w; [exact F_nil|].
  simpl forM_. rewrite traceOf_bind, F_app. simpl flat_map.
  rewrite (Hbody x w (or_introl eq_refl)). f_equal.
  apply IH. intros y w' Hy. apply Hbody. now right.
Qed.

Lemma foldM_hom {A S} (l : list A) (body : A -> S -> M W S) (g : A -> list B) :
  (forall x s w, F (traceOf (body x s w)) = g x) ->
  forall s w, F (traceOf (foldM l body s w)) = flat_map g l.
Proof.
  intros Hbody. induction l as [|x l IH]; intros s w; [exact F_nil|].
  simpl foldM. rewrite traceOf_bind, F_app. simpl flat_map.
  now rewrite Hbody, IH.
Qed.

Lemma eachPage_hom {A S} (c : Call) (p : Paged A)
    (fn : list A -> bool -> S -> M W (bool * S)) (g : A -> list B) :
  (forall e, F [EvCall c e] = []) ->
  (forall page lastPage s w,
     F (traceOf (fn page lastPage s w)) = flat_map g page
     /\ fst (valueOf (fn page lastPage s w)) = true) ->
  forall s w, F (traceOf (eachPage c p fn s w)) = flat_map g (pagedItems p).
Proof.
  intros Hcall Hfn.
  induction p as [items|items rest IH|e]; intros s w; simpl eachPage.
  - rewrite !traceOf_bind, worldOf_emit, traceOf_emit, traceOf_ret, !F_app, F_nil, Hcall.
    rewrite (proj1 (Hfn _ _ _ _)). simpl. now rewrite app_nil_r.
  - rewrite !traceOf_bind, worldOf_emit, traceOf_emit.
    rewrite !F_app, Hcall, (proj1 (Hfn _ _ _ _)), (proj2 (Hfn _ _ _ _)), IH.
    simpl. now rewrite flat_map_app.
  - rewrite traceOf_bind, traceOf_emit, traceOf_ret, F_app, F_nil, Hcall. reflexivity.
Qed.

End Homs.

Lemma eachPage_err {A S} (c : Call) (p : Paged A)
    (fn : list A -> bool -> S -> M W (bool * S)) :
  (forall page lastPage s w, fst (valueOf (fn page lastPage s w)) = true) ->
  forall s w, fst (valueOf (eachPage c p fn s w)) = pagedErr p.
Proof.
  intros Hfn. induction p as [items|items rest IH|e]; intros s w; simpl eachPage.
  - reflexivity.
  - rewrite !valueOf_bind, worldOf_emit, Hfn. apply IH.
  - reflexivity.
Qed.

(** The value of a loop that only ever appends to its state. *)
Lemma foldM_value {A S} (l : list A) (body : A -> list S -> M W (list S))
    (g : A -> list S) :
  (forall x s w, valueOf (body x s w) = s ++ g x) ->
  forall s w, valueOf (foldM l body s w) = s ++ flat_map g l.
Proof.
  intros Hbody. induction l as [|x l IH]; intros s w; simpl.
  - now rewrite app_nil_r.
  - rewrite valueOf_bind, IH, Hbody. now rewrite <- app_assoc.
Qed.

Lemma eachPage_value {A S} (c : Call) (p : Paged A)
    (fn : list A -> bool -> list S -> M W (bool * list S)) (g : A -> list S) :
  (forall page lastPage s w,
     valueOf (fn page lastPage s w) = (true, s ++ flat_map g page)) ->
  forall s w,
    valueOf (eachPage c p fn s w) = (pagedErr p, s ++ flat_map g (pagedItems p)).
Proof.
  intros Hfn.
  induction p as [items|items rest IH|e]; intros s w; simpl eachPage.
  - now rewrite !valueOf_bind, valueOf_ret, Hfn.
  - rewrite !valueOf_bind, worldOf_emit, Hfn. cbn [fst snd].
    rewrite IH. simpl. now rewrite flat_map_app, app_assoc.
  - rewrite valueOf_bind, valueOf_ret. simpl. now rewrite app_nil_r.
Qed.

End MonadFacts.

(** ** The tag scans compute the classification *)

Section TagScan.

Variable DeletionTag : string.
Variable input : CleanupScope.

Lemma scanTags_from (tags : list Tag) (ignore marked : bool) :
  fold_left (scanTag DeletionTag input) tags (ignore, marked) =
  (ignore || hasKey (IgnoreTag input) tags,
   marked || existsb (fun t => negb (Key t =? IgnoreTag input) && (Key t =? DeletionTag)) tags).
Proof.
  revert ignore marked.
  induction tags as [|t tags IH]; intros ignore marked; simpl.
  - now rewrite !orb_false_r.
  - unfold scanTag at 2. simpl.
    destruct (Key t =? IgnoreTag input); simpl.
    + rewrite IH. now rewrite orb_true_r.
    + destruct (Key t =? DeletionTag); simpl; rewrite IH; [|reflexivity].
      now rewrite orb_true_r.
Qed.

Lemma unmasked_key (k : string) (tags : list Tag) (p : string -> bool) :
  hasKey k tags = false ->
  existsb (fun t => negb (Key t =? k) && p (Key t)) tags =
  existsb (fun t => p (Key t)) tags.
Proof.
  unfold hasKey. induction tags as [|t tags IH]; simpl; [reflexivity|].
  intros H. apply orb_false_elim in H. destruct H as [Hk Hr].
  rewrite Hk, (IH Hr). reflexivity.
Qed.

Lemma scanTags_classify (tags : list Tag) :
  scanTags DeletionTag input tags =
  match classify (IgnoreTag input) DeletionTag tags with
  | Ignored => (true, snd (scanTags DeletionTag input tags))
  | Marked => (false, true)
  | Unmarked => (false, false)
  end.
Proof.
  unfold scanTags, classify. rewrite scanTags_from. simpl.
  destruct (hasKey (IgnoreTag input) tags) eqn:Hi; [reflexivity|].
  rewrite (unmasked_key _ _ (fun k => k =? DeletionTag) Hi).
  fold (hasKey DeletionTag tags).
  now destruct (hasKey DeletionTag tags).
Qed.

Lemma scanTagDescriptions_allTags (descs : list TagDescription) :
  scanTagDescriptions DeletionTag input descs = scanTags DeletionTag input (allTags descs).
Proof.
  unfold scanTagDescriptions, scanTags, allTags.
  generalize (false, false).
  induction descs as [|d descs IH]; intros st; simpl; [reflexivity|].
  now rewrite fold_left_app, IH.
Qed.

Lemma scanVpcTags_from (tags : list Tag) (ignore marked cfn : bool) :
  fold_left (scanVpcTag DeletionTag input) tags (ignore, marked, cfn) =
  (ignore || hasKey (IgnoreTag input) tags,
   marked || existsb (fun t => negb (Key t =? IgnoreTag input) && (Key t =? DeletionTag)) tags,
   cfn || existsb (fun t => negb (Key t =? IgnoreTag input)
                            && (negb (Key t =? DeletionTag) && isStackKey (Key t))) tags).
Proof.
  revert ignore marked cfn.
  induction tags as [|t tags IH]; intros ignore marked cfn; simpl.
  - now rewrite !orb_false_r.
  - unfold isStackKey.
    destruct (Key t =? IgnoreTag input); simpl.
    + rewrite IH. now rewrite orb_true_r.
    + destruct (Key t =? DeletionTag); simpl.
      * rewrite IH. now rewrite orb_true_r.
      * destruct ((Key t =? "aws:cloudformation:stack-name")
                  || (Key t =? "aws:cloudformation:stack-id")); simpl; rewrite IH;
          [now rewrite orb_true_r | reflexivity].
Qed.

(** When [DeletionTag] is not itself one of the stack keys, the third
    flag of the network scan is [managedByCloudFormation]. *)
Lemma scanVpcTags_classify (tags : list Tag) :
  isStackKey DeletionTag = false ->
  scanVpcTags DeletionTag input tags =
  match classify (IgnoreTag input) DeletionTag tags with
  | Ignored => (true, snd (fst (scanVpcTags DeletionTag input tags)),
                snd (scanVpcTags DeletionTag input tags))
  | Marked => (false, true, managedByCloudFormation tags)
  | Unmarked => (false, false, managedByCloudFormation tags)
  end.
Proof.
  intros HD. unfold scanVpcTags, classify. rewrite scanVpcTags_from. simpl.
  destruct (hasKey (IgnoreTag input) tags) eqn:Hi; [reflexivity|].
  rewrite (unmasked_key _ _ (fun k => k =? DeletionTag) Hi).
  rewrite (unmasked_key _ _ (fun k => negb (k =? DeletionTag) && isStackKey k) Hi).
  fold (hasKey DeletionTag tags).
  assert (Hc : existsb (fun t => negb (Key t =? DeletionTag) && isStackKey (Key t)) tags
               = managedByCloudFormation tags).
  { unfold managedByCloudFormation. clear Hi.
    induction tags as [|t tags IH]; simpl; [reflexivity|]. rewrite IH. f_equal.
    destruct (Key t =? DeletionTag) eqn:E; simpl; [|reflexivity].
    apply String.eqb_eq in E. rewrite E. now rewrite HD. }
  rewrite Hc. now destruct (hasKey DeletionTag tags).
Qed.

(** Whatever [DeletionTag] is, a network with the ignore key has the
    first flag set. *)
Lemma scanVpcTags_ignore (tags : list Tag) :
  fst (fst (scanVpcTags DeletionTag input tags)) = hasKey (IgnoreTag input) tags.
Proof. unfold scanVpcTags. now rewrite scanVpcTags_from. Qed.

End TagScan.

(** ** Traces of the basic steps *)

Section Steps.

Context {W : Type}.
Variable client : Provider W.

Lemma traceOf_exec (c : Call) (w : W) :
  traceOf (exec client c w) = [EvCall c (valueOf (exec client c w))].
Proof. reflexivity. Qed.

Lemma valueOf_exec (c : Call) (w : W) :
  valueOf (exec client c w) = fst (mutate client c w).
Proof. reflexivity. Qed.

Lemma traceOf_step (c : Call) (op : W -> option error * W) (w : W) :
  traceOf (step c op w) = [EvCall c (fst (op w))].
Proof. reflexivity. Qed.

Lemma traceOf_query {A} (c : Call) (read : W -> Result A) (w : W) :
  traceOf (query c read w) = [EvCall c (resultErr (read w))].
Proof. reflexivity. Qed.

Lemma valueOf_query {A} (c : Call) (read : W -> Result A) (w : W) :
  valueOf (query c read w) = read w.
Proof. reflexivity. Qed.

Lemma worldOf_query {A} (c : Call) (read : W -> Result A) (w : W) :
  worldOf (query c read w) = w.
Proof. reflexivity. Qed.

Lemma traceOf_whenSome_log (o : option error) (lvl : Level) (msg : error -> string) (w : W) :
  traceOf (whenSome o (fun e => emit (EvLog lvl (msg e))) w) =
  match o with Some e => [EvLog lvl (msg e)] | None => [] end.
Proof. now destruct o. Qed.

Lemma worldOf_whenSome_log (o : option error) (lvl : Level) (msg : error -> string) (w : W) :
  worldOf (whenSome o (fun e => emit (EvLog lvl (msg e))) w) = w.
Proof. now destruct o. Qed.

Lemma calls_optional_log (o : option error) (lvl : Level) (msg : error -> string) :
  calls (match o with Some e => [EvLog lvl (msg e)] | None => [] end) = [].
Proof. now destruct o. Qed.

(** The calls of a loop are the calls of its rounds, in order, when the
    calls of a round do not depend on the provider's state. *)
Lemma forM_calls {A} (l : list A) (body : A -> M W unit) (g : A -> list Call) :
  (forall x w, In x l -> calls (traceOf (body x w)) = g x) ->
  forall w, calls (traceOf (forM_ l body w)) = flat_map g l.
Proof.
  induction l as [|x l IH]; intros Hbody w; [reflexivity|].
  simpl forM_. rewrite traceOf_bind, calls_app. simpl flat_map.
  rewrite (Hbody x w (or_introl eq_refl)). f_equal.
  apply IH. intros y w' Hy. apply Hbody. now right.
Qed.

Lemma flat_map_single {A B} (f : A -> B) (l : list A) :
  flat_map (fun x => [f x]) l = map f l.
Proof. induction l; simpl; congruence. Qed.

End Steps.

Create Rewrite HintDb run.

#[export] Hint Rewrite @traceOf_bind @valueOf_bind @worldOf_bind
  @traceOf_emit @worldOf_emit @traceOf_ret @worldOf_ret @valueOf_ret
  @traceOf_query @valueOf_query @worldOf_query @traceOf_exec @traceOf_step
  @traceOf_whenSome_log @worldOf_whenSome_log calls_optional_log
  calls_app @app_nil_r : run.

(** Unfold one level of a straight-line body: the trace of a sequence is
    the concatenation of the traces of its steps. *)
Ltac run :=
  unfold Log, LogDebug, LogWarning, LogError;
  autorewrite with run.

(** ** Dependency teardown of a network *)

Section Teardown.

Context {W : Type}.
Variable client : Provider W.
Variable DeletionTag : string.

Lemma deleteNATGateways_calls (vpcId : string) (w : W) :
  calls (traceOf (deleteNATGateways client vpcId w)) =
  DescribeNatGateways vpcId ::
  match describeNatGateways client vpcId w with
  | Ok gws => map (fun g => DeleteNatGateway (NatGatewayId g)) gws
  | Err _ => []
  end.
Proof.
  unfold deleteNATGateways.
  rewrite traceOf_bind, calls_app, traceOf_query, valueOf_query, worldOf_query.
  simpl. f_equal.
  destruct (describeNatGateways client vpcId w) as [gws|e]; [|reflexivity].
  rewrite traceOf_bind, calls_app, traceOf_ret, app_nil_r.
  rewrite (forM_calls _ _ (fun g => [DeleteNatGateway (NatGatewayId g)])).
  - apply flat_map_single.
  - intros g w' _. now run.
Qed.

Lemma deleteSubnets_calls (vpcId : string) (w : W) :
  calls (traceOf (deleteSubnets client vpcId w)) =
  DescribeSubnets vpcId ::
  match describeSubnets client vpcId w with
  | Ok subnets => map (fun s => DeleteSubnet (SubnetId s)) subnets
  | Err _ => []
  end.
Proof.
  unfold deleteSubnets.
  rewrite traceOf_bind, calls_app, traceOf_query, valueOf_query, worldOf_query.
  simpl. f_equal.
  destruct (describeSubnets client vpcId w) as [subnets|e]; [|reflexivity].
  rewrite traceOf_bind, calls_app, traceOf_ret, app_nil_r.
  rewrite (forM_calls _ _ (fun s => [DeleteSubnet (SubnetId s)])).
  - apply flat_map_single.
  - intros s w' _. now run.
Qed.

Lemma deleteRouteTable_calls (rt : RouteTable) (w : W) :
  calls (traceOf (deleteRouteTable client rt w)) =
  if isMain rt then [] else [DeleteRouteTable (RouteTableId rt)].
Proof.
  unfold deleteRouteTable. destruct (isMain rt); [reflexivity|]. now run.
Qed.

Lemma deleteRouteTables_calls (vpcId : string) (w : W) :
  calls (traceOf (deleteRouteTables client vpcId w)) =
  DescribeRouteTables vpcId ::
  match describeRouteTables client vpcId w with
  | Ok rts => map (fun rt => DeleteRouteTable (RouteTableId rt))
                  (filter (fun rt => negb (isMain rt)) rts)
  | Err _ => []
  end.
Proof.
  unfold deleteRouteTables.
  rewrite traceOf_bind, calls_app, traceOf_query, valueOf_query, worldOf_query.
  simpl. f_equal.
  destruct (describeRouteTables client vpcId w) as [rts|e]; [|reflexivity].
  rewrite traceOf_bind, calls_app, traceOf_ret, app_nil_r.
  rewrite (forM_calls _ _ (fun rt => if isMain rt then [] else [DeleteRouteTable (RouteTableId rt)])).
  - induction rts as [|rt rts IH]; simpl; [reflexivity|].
    destruct (isMain rt); simpl; now rewrite IH.
  - intros rt w' _. apply deleteRouteTable_calls.
Qed.

Lemma deleteInternetGateway_calls (vpcId : string) (igw : InternetGateway) (w : W) :
  calls (traceOf (deleteInternetGateway client vpcId igw w)) =
  match fst (mutate client (DetachInternetGateway (InternetGatewayId igw) vpcId) w) with
  | Some _ => [DetachInternetGateway (InternetGatewayId igw) vpcId]
  | None => [DetachInternetGateway (InternetGatewayId igw) vpcId;
             DeleteInternetGateway (InternetGatewayId igw)]
  end.
Proof.
  unfold deleteInternetGateway. run. rewrite valueOf_exec.
  destruct (fst (mutate client (DetachInternetGateway (InternetGatewayId igw) vpcId) w));
    now run.
Qed.

Lemma deleteInternetGateways_phase (vpcId : string) (w : W) :
  forallb igwPhase (calls (traceOf (deleteInternetGateways client vpcId w))) = true.
Proof.
  unfold deleteInternetGateways.
  rewrite traceOf_bind, calls_app, traceOf_query, valueOf_query, worldOf_query.
  simpl.
  destruct (describeInternetGateways client vpcId w) as [igws|e]; [|reflexivity].
  rewrite traceOf_bind, calls_app, traceOf_ret, app_nil_r.
  apply (forM_trace (fun t => forallb igwPhase (calls t) = true)).
  - reflexivity.
  - intros t1 t2 H1 H2. rewrite calls_app, forallb_app. now rewrite H1, H2.
  - intros igw w' _. rewrite deleteInternetGateway_calls.
    now destruct (fst (mutate client _ w')).
Qed.

Lemma cleanVPCDependencies_calls (vpcId : string) (w : W) :
  let n := deleteNATGateways client vpcId w in
  let i := deleteInternetGateways client vpcId (worldOf n) in
  let r := deleteRouteTables client vpcId (worldOf i) in
  let s := deleteSubnets client vpcId (worldOf r) in
  calls (traceOf (cleanVPCDependencies client vpcId w)) =
    calls (traceOf n) ++ calls (traceOf i) ++ calls (traceOf r) ++ calls (traceOf s)
  /\ worldOf (cleanVPCDependencies client vpcId w) = worldOf s.
Proof.
  intros n i r s. unfold cleanVPCDependencies. run.
  split; reflexivity.
Qed.

Lemma forallb_map_const {A} (p : Call -> bool) (f : A -> Call) (l : list A) :
  (forall x, p (f x) = true) -> forallb p (map f l) = true.
Proof. intros H. induction l; simpl; [reflexivity|]. now rewrite H. Qed.

Lemma deleteVPC_calls (vpcId : string) (w : W) :
  calls (traceOf (deleteVPC client vpcId w)) =
  calls (traceOf (cleanVPCDependencies client vpcId w)) ++ [DeleteVpc vpcId].
Proof.
  unfold deleteVPC. run.
  replace (calls (traceOf (match valueOf (exec client (DeleteVpc vpcId)
              (worldOf (cleanVPCDependencies client vpcId w))) with
            | Some e => ret (Some (Errorf ("failed to delete vpc " ^^ vpcId) e))
            | None => emit (EvLog LvlInfo ("Successfully deleted VPC " ^^ vpcId)) ;; ret None
            end (worldOf (exec client (DeleteVpc vpcId)
                   (worldOf (cleanVPCDependencies client vpcId w))))))) with (@nil Call)
    by (now destruct (valueOf (exec client (DeleteVpc vpcId) _))).
  cbn [calls app]. now rewrite ?app_nil_r.
Qed.

(** C5.  A network deletion runs the four teardown phases in the order
    NAT gateways, internet gateways, route tables, subnets, each in the
    state its predecessor left, and issues [DeleteVpc] after the last of
    them.  Each phase issues the delete call of every object its listing
    returned (of every route table that is not main).  In the internet
    gateway phase a gateway whose detach fails receives no delete call,
    and the loop goes on with the next gateway. *)
Theorem teardown_phases_precede_DeleteVpc (vpcId : string) (w : W) :
  let n := deleteNATGateways client vpcId w in
  let i := deleteInternetGateways client vpcId (worldOf n) in
  let r := deleteRouteTables client vpcId (worldOf i) in
  let s := deleteSubnets client vpcId (worldOf r) in
  calls (traceOf (deleteVPC client vpcId w)) =
    calls (traceOf n) ++ calls (traceOf i) ++ calls (traceOf r) ++ calls (traceOf s)
    ++ [DeleteVpc vpcId]
  /\ forallb natPhase (calls (traceOf n)) = true
  /\ forallb igwPhase (calls (traceOf i)) = true
  /\ forallb routeTablePhase (calls (traceOf r)) = true
  /\ forallb subnetPhase (calls (traceOf s)) = true
  /\ calls (traceOf n) =
       DescribeNatGateways vpcId ::
       match describeNatGateways client vpcId w with
       | Ok gws => map (fun g => DeleteNatGateway (NatGatewayId g)) gws
       | Err _ => []
       end
  /\ calls (traceOf r) =
       DescribeRouteTables vpcId ::
       match describeRouteTables client vpcId (worldOf i) with
       | Ok rts => map (fun rt => DeleteRouteTable (RouteTableId rt))
                       (filter (fun rt => negb (isMain rt)) rts)
       | Err _ => []
       end
  /\ calls (traceOf s) =
       DescribeSubnets vpcId ::
       match describeSubnets client vpcId (worldOf r) with
       | Ok subnets => map (fun sn => DeleteSubnet (SubnetId sn)) subnets
       | Err _ => []
       end
  /\ calls (traceOf i) =
       DescribeInternetGateways vpcId ::
       match describeInternetGateways client vpcId (worldOf n) with
       | Ok igws => calls (traceOf (forM_ igws (deleteInternetGateway client vpcId) (worldOf n)))
       | Err _ => []
       end
  /\ (forall igw rest w',
        let g := deleteInternetGateway client vpcId igw w' in
        traceOf (forM_ (igw :: rest) (deleteInternetGateway client vpcId) w') =
          traceOf g ++ traceOf (forM_ rest (deleteInternetGateway client vpcId) (worldOf g))
        /\ calls (traceOf g) =
           match fst (mutate client (DetachInternetGateway (InternetGatewayId igw) vpcId) w') with
           | Some _ => [DetachInternetGateway (InternetGatewayId igw) vpcId]
           | None => [DetachInternetGateway (InternetGatewayId igw) vpcId;
                      DeleteInternetGateway (InternetGatewayId igw)]
           end).
Proof.
  intros n i r s.
  assert (Hn := deleteNATGateways_calls vpcId w).
  assert (Hr := deleteRouteTables_calls vpcId (worldOf i)).
  assert (Hs := deleteSubnets_calls vpcId (worldOf r)).
  fold n in Hn. fold r in Hr. fold s in Hs.
  repeat split.
  - rewrite deleteVPC_calls.
    destruct (cleanVPCDependencies_calls vpcId w) as [Hc Hw]. cbv zeta in Hc, Hw.
    fold n i r s in Hc. rewrite Hc. now rewrite <- ?app_assoc.
  - rewrite Hn. simpl. destruct (describeNatGateways client vpcId w); [|reflexivity].
    now apply forallb_map_const.
  - apply deleteInternetGateways_phase.
  - rewrite Hr. simpl. destruct (describeRouteTables client vpcId (worldOf i)); [|reflexivity].
    now apply forallb_map_const.
  - rewrite Hs. simpl. destruct (describeSubnets client vpcId (worldOf r)); [|reflexivity].
    now apply forallb_map_const.
  - exact Hn.
  - exact Hr.
  - exact Hs.
  - unfold i, deleteInternetGateways. run. simpl. f_equal.
    destruct (describeInternetGateways client vpcId (worldOf n)); [|reflexivity]. now run.
  - apply deleteInternetGateway_calls.
Qed.

(** C10.  [cleanVPCDependencies] returns nil whatever the provider
    answers, so the handler of its error in [deleteVPC] never runs, and
    [DeleteVpc] is issued right after the teardown. *)
Theorem cleanVPCDependencies_returns_nil (vpcId : string) (w : W) :
  valueOf (cleanVPCDependencies client vpcId w) = None
  /\ (forall handler : error -> M W unit,
        whenSome (valueOf (cleanVPCDependencies client vpcId w)) handler = ret tt)
  /\ exists rest,
       traceOf (deleteVPC client vpcId w) =
       EvLog LvlInfo ("Deleting VPC " ^^ vpcId ^^ " and its dependencies")
       :: traceOf (cleanVPCDependencies client vpcId w)
       ++ EvCall (DeleteVpc vpcId)
            (fst (mutate client (DeleteVpc vpcId)
                    (worldOf (cleanVPCDependencies client vpcId w))))
       :: rest.
Proof.
  assert (H : valueOf (cleanVPCDependencies client vpcId w) = None) by reflexivity.
  split; [exact H|]. split; [intros handler; now rewrite H|].
  eexists. unfold deleteVPC. run. rewrite H. simpl. rewrite valueOf_exec. reflexivity.
Qed.

End Teardown.

(** ** Dry-run *)

Section DryRun.

Context {W : Type}.
Variable client : Provider W.
Variable DeletionTag : string.

Lemma readOnly_ret {A} (a : A) : readOnly (@ret W A a).
Proof. intros w. split; reflexivity. Qed.

Lemma readOnly_log (lvl : Level) (msg : string) : readOnly (@emit W (EvLog lvl msg)).
Proof. intros w. split; reflexivity. Qed.

Lemma readOnly_query {A} (c : Call) (read : W -> Result A) :
  mutating c = false -> readOnly (query c read).
Proof. intros Hc w. split; [reflexivity|]. simpl. now rewrite Hc. Qed.

Lemma readOnly_bind {A B} (m : M W A) (f : A -> M W B) :
  readOnly m -> (forall a, readOnly (f a)) -> readOnly (bind m f).
Proof.
  intros Hm Hf w. destruct (Hm w) as [Hw Ht].
  destruct (Hf (valueOf (m w)) (worldOf (m w))) as [Hw' Ht'].
  rewrite worldOf_bind, traceOf_bind, calls_app, existsb_app, Ht, Ht', Hw', Hw.
  split; reflexivity.
Qed.

Lemma readOnly_forM {A} (l : list A) (body : A -> M W unit) :
  (forall x, readOnly (body x)) -> readOnly (forM_ l body).
Proof.
  intros Hbody. induction l as [|x l IH]; simpl.
  - apply readOnly_ret.
  - apply readOnly_bind; [apply Hbody | intros _; exact IH].
Qed.

Lemma readOnly_foldM {A S} (l : list A) (body : A -> S -> M W S) (s : S) :
  (forall x s', readOnly (body x s')) -> readOnly (foldM l body s).
Proof.
  intros Hbody. revert s. induction l as [|x l IH]; intros s; simpl.
  - apply readOnly_ret.
  - apply readOnly_bind; [apply Hbody | intros s'; apply IH].
Qed.

Lemma readOnly_eachPage {A S} (c : Call) (p : Paged A)
    (fn : list A -> bool -> S -> M W (bool * S)) (s : S) :
  mutating c = false ->
  (forall page lastPage s', readOnly (fn page lastPage s')) ->
  readOnly (eachPage c p fn s).
Proof.
  intros Hc Hfn. revert s.
  assert (Hcall : forall e, readOnly (@emit W (EvCall c e))).
  { intros e w. split; [reflexivity|]. simpl. now rewrite Hc. }
  induction p as [items|items rest IH|e]; intros s; simpl.
  - apply readOnly_bind; [apply Hcall|intros _].
    apply readOnly_bind; [apply Hfn|intros r]. apply readOnly_ret.
  - apply readOnly_bind; [apply Hcall|intros _].
    apply readOnly_bind; [apply Hfn|intros r].
    destruct (fst r); [apply IH | apply readOnly_ret].
  - apply readOnly_bind; [apply Hcall|intros _]. apply readOnly_ret.
Qed.

(** The paginated listing reads the provider's state once, when it
    starts. *)
Lemma readOnly_listing {A S} (c : Call) (pages : W -> Paged A)
    (fn : list A -> bool -> S -> M W (bool * S)) (s : S) :
  mutating c = false ->
  (forall page lastPage s', readOnly (fn page lastPage s')) ->
  readOnly (fun w => eachPage c (pages w) fn s w).
Proof. intros Hc Hfn w. now apply readOnly_eachPage. Qed.

Ltac read_only :=
  unfold Log, LogDebug, LogWarning, LogError;
  repeat first
    [ apply readOnly_ret
    | apply readOnly_log
    | apply readOnly_query; reflexivity
    | apply readOnly_bind; [|intros ?] ].

Let dry : action := {| commit := false |}.

Lemma cleanNetworkInterfaces_dry (input : CleanupScope) :
  readOnly (cleanNetworkInterfaces client DeletionTag dry input).
Proof.
  unfold cleanNetworkInterfaces. apply readOnly_bind; [read_only|].
  intros [nis|e]; [|read_only].
  destruct (List.length nis =? 0)%nat; [read_only|].
  apply readOnly_bind; [|intros; read_only].
  apply readOnly_forM. intros ni. unfold cleanNetworkInterface. simpl commit.
  destruct (fst (scanTags DeletionTag input (TagSet ni))); [read_only|].
  destruct (snd (scanTags DeletionTag input (TagSet ni))); read_only.
Qed.

Lemma cleanVPCs_dry (input : CleanupScope) :
  readOnly (cleanVPCs client DeletionTag dry input).
Proof.
  unfold cleanVPCs. apply readOnly_bind.
  - apply readOnly_listing; [reflexivity|].
    intros page lastPage s. unfold vpcPageFunc.
    apply readOnly_bind; [|intros; read_only].
    apply readOnly_foldM. intros vpc l. unfold classifyVpc. simpl commit.
    destruct (scanVpcTags DeletionTag input (Vpc_Tags vpc)) as [[ignore marked] cfn].
    destruct (ignore || IsDefault vpc); [read_only|].
    destruct cfn; [read_only|]. destruct marked; read_only.
  - intros [[e|] l]; simpl fst; simpl snd; [read_only|].
    destruct (List.length l =? 0)%nat; [read_only|].
    apply readOnly_bind; [|intros; read_only].
    apply readOnly_forM. intros vpc. unfold deleteListedVpc. simpl. read_only.
Qed.

Lemma cleanLoadBalancersV2_dry (input : CleanupScope) :
  readOnly (cleanLoadBalancersV2 client DeletionTag dry input).
Proof.
  unfold cleanLoadBalancersV2. apply readOnly_bind.
  - apply readOnly_listing; [reflexivity|].
    intros page lastPage s. unfold lbPageFunc.
    apply readOnly_bind; [|intros; read_only].
    apply readOnly_foldM. intros lb l. unfold classifyLoadBalancer. simpl commit.
    apply readOnly_bind; [read_only|]. intros [descs|e]; [|read_only].
    destruct (fst (scanTagDescriptions DeletionTag input descs)); [read_only|].
    destruct (snd (scanTagDescriptions DeletionTag input descs)); read_only.
  - intros [[e|] l]; simpl fst; simpl snd; [read_only|].
    destruct (List.length l =? 0)%nat; [read_only|].
    apply readOnly_bind; [|intros; read_only].
    apply readOnly_forM. intros arn. unfold deleteListedLoadBalancer. simpl. read_only.
Qed.

(** C3.  With [commit] false each of the three cleaners leaves the
    provider's state as it was and issues no mutating call; run again in
    the state it left, it returns the same value and produces the same
    trace, the classification lines of the log included. *)
Theorem dry_run_mutates_nothing (input : CleanupScope) (w : W) :
  (let r := cleanNetworkInterfaces client DeletionTag {| commit := false |} input w in
   worldOf r = w
   /\ existsb mutating (calls (traceOf r)) = false
   /\ cleanNetworkInterfaces client DeletionTag {| commit := false |} input (worldOf r) = r)
  /\ (let r := cleanVPCs client DeletionTag {| commit := false |} input w in
      worldOf r = w
      /\ existsb mutating (calls (traceOf r)) = false
      /\ cleanVPCs client DeletionTag {| commit := false |} input (worldOf r) = r)
  /\ (let r := cleanLoadBalancersV2 client DeletionTag {| commit := false |} input w in
      worldOf r = w
      /\ existsb mutating (calls (traceOf r)) = false
      /\ cleanLoadBalancersV2 client DeletionTag {| commit := false |} input (worldOf r) = r).
Proof.
  destruct (cleanNetworkInterfaces_dry input w) as [H1 H1'].
  destruct (cleanVPCs_dry input w) as [H2 H2'].
  destruct (cleanLoadBalancersV2_dry input w) as [H3 H3'].
  unfold dry in *. cbv zeta.
  repeat split; try assumption.
  - now rewrite H1.
  - now rewrite H2.
  - now rewrite H3.
Qed.

End DryRun.

(** ** The polling waiter *)

Module WaiterFacts.

Import Waiter.
Local Open Scope Z_scope.

Section Loop.

Context {S : Type}.
Variable ctx : Ctx.
Variable pickDone : Z -> bool.
Variable interval : Z.
Variable check : Ctx -> Z -> S -> Checked_ S.

Lemma select_ctx_first (now c : Z) :
  doneAt ctx = Some c -> c < timerAt now interval ->
  select ctx pickDone now interval = CtxDone (Z.max now c).
Proof.
  intros Hc Hlt. unfold select. rewrite Hc.
  now destruct (Z.ltb_spec c (timerAt now interval)); [|lia].
Qed.

Lemma select_timer_first (now : Z) :
  (doneAt ctx = None \/ exists c, doneAt ctx = Some c /\ timerAt now interval < c) ->
  select ctx pickDone now interval = TimerFired (timerAt now interval).
Proof.
  intros [Hn|[c [Hc Hlt]]]; unfold select; rewrite ?Hn, ?Hc; [reflexivity|].
  destruct (Z.ltb_spec c (timerAt now interval)); [lia|].
  now destruct (Z.ltb_spec (timerAt now interval) c); [|lia].
Qed.

Lemma select_timer_at (now : Z) (t : Z) :
  select ctx pickDone now interval = TimerFired t -> t = timerAt now interval.
Proof.
  unfold select. destruct (doneAt ctx) as [c|]; [|now intros [= <-]].
  destruct (c <? timerAt now interval); [discriminate|].
  destruct (timerAt now interval <? c); [now intros [= <-]|].
  destruct (pickDone now); [discriminate | now intros [= <-]].
Qed.

Lemma waitLoop_iteration (fuel : nat) (waitFor now : Z) (s : S) :
  waitLoop ctx pickDone interval check (Datatypes.S fuel) waitFor now s =
  if waitFor <? now then
    Some {| result := Some "timeout exceeded"%string; final := s;
            returnedAt := now; events := [] |}
  else
    let c := check ctx now s in
    match err c with
    | Some e =>
        Some {| result := Some e; final := state c;
                returnedAt := clock c; events := [Checked now] |}
    | None =>
        if done c then
          Some {| result := None; final := state c;
                  returnedAt := clock c; events := [Checked now] |}
        else
          match select ctx pickDone (clock c) interval with
          | CtxDone t =>
              Some {| result := Some (ctxErr ctx); final := state c;
                      returnedAt := t; events := [Checked now] |}
          | TimerFired t =>
              option_map (addEvents [Checked now; Slept (clock c) t])
                (waitLoop ctx pickDone interval check fuel waitFor t (state c))
          end
    end.
Proof. reflexivity. Qed.

(** With a positive interval and a clock that [check] does not turn
    back, the loop returns: the deadline is reached after finitely many
    sleeps. *)
Lemma waitLoop_returns (n : nat) :
  0 < interval ->
  (forall t s, t <= clock (check ctx t s)) ->
  forall waitFor now s,
    waitFor - now < Z.of_nat n * interval ->
    exists r, waitLoop ctx pickDone interval check (Datatypes.S n) waitFor now s = Some r.
Proof.
  intros Hpos Hmono. induction n as [|n IH]; intros waitFor now s Hlt.
  - simpl. destruct (Z.ltb_spec waitFor now); [eauto | lia].
  - rewrite waitLoop_iteration. destruct (Z.ltb_spec waitFor now); [eauto|].
    cbv zeta.
    destruct (err (check ctx now s)); [eauto|].
    destruct (done (check ctx now s)); [eauto|].
    destruct (select ctx pickDone (clock (check ctx now s)) interval) as [t|t] eqn:Hsel;
      [eauto|].
    apply select_timer_at in Hsel. unfold timerAt in Hsel.
    specialize (Hmono now s).
    destruct (IH waitFor t (state (check ctx now s))) as [r Hr]; [nia|].
    rewrite Hr. simpl. eauto.
Qed.

End Loop.

(** C9.  One round of the loop of [waitUntil], whose deadline is
    [now + timeout].  Past the deadline it returns the timeout error and
    [check] is not evaluated.  Otherwise [check] is evaluated once: its
    error is returned as it is; nil is returned when it reports done;
    else the cancellation error is returned when the context is done
    before the interval has elapsed, and when the interval elapses first
    the loop goes round again after the sleep. *)
Theorem waitUntil_loop_contract {S : Type} (ctx : Ctx) (pickDone : Z -> bool)
    (interval : Z) (check : Ctx -> Z -> S -> Checked_ S)
    (fuel : nat) (waitFor now : Z) (s : S) :
  let loop := waitLoop ctx pickDone interval check in
  let c := check ctx now s in
  (forall timeout,
     waitUntil (Datatypes.S fuel) ctx pickDone now timeout interval check s =
     loop (Datatypes.S fuel) (now + timeout) now s)
  /\ (waitFor < now ->
      loop (Datatypes.S fuel) waitFor now s =
      Some {| result := Some "timeout exceeded"%string; final := s;
              returnedAt := now; events := [] |})
  /\ (now <= waitFor -> forall e, err c = Some e ->
      loop (Datatypes.S fuel) waitFor now s =
      Some {| result := Some e; final := state c;
              returnedAt := clock c; events := [Checked now] |})
  /\ (now <= waitFor -> err c = None -> done c = true ->
      loop (Datatypes.S fuel) waitFor now s =
      Some {| result := None; final := state c;
              returnedAt := clock c; events := [Checked now] |})
  /\ (now <= waitFor -> err c = None -> done c = false ->
      forall t, doneAt ctx = Some t -> t < clock c + Z.max 0 interval ->
      loop (Datatypes.S fuel) waitFor now s =
      Some {| result := Some (ctxErr ctx); final := state c;
              returnedAt := Z.max (clock c) t; events := [Checked now] |})
  /\ (now <= waitFor -> err c = None -> done c = false ->
      (doneAt ctx = None \/
       exists t, doneAt ctx = Some t /\ clock c + Z.max 0 interval < t) ->
      loop (Datatypes.S fuel) waitFor now s =
      option_map (addEvents [Checked now; Slept (clock c) (clock c + Z.max 0 interval)])
        (loop fuel waitFor (clock c + Z.max 0 interval) (state c))).
Proof.
  intros loop c. unfold loop.
  split; [reflexivity|].
  split; [|split; [|split; [|split]]].
  - intros Hlt. rewrite waitLoop_iteration.
    now destruct (Z.ltb_spec waitFor now); [|lia].
  - intros Hle e He. rewrite waitLoop_iteration.
    destruct (Z.ltb_spec waitFor now); [lia|]. cbv zeta. fold c. now rewrite He.
  - intros Hle He Hd. rewrite waitLoop_iteration.
    destruct (Z.ltb_spec waitFor now); [lia|]. cbv zeta. fold c. now rewrite He, Hd.
  - intros Hle He Hd t Ht Hlt. rewrite waitLoop_iteration.
    destruct (Z.ltb_spec waitFor now); [lia|]. cbv zeta. fold c. rewrite He, Hd.
    now rewrite (select_ctx_first ctx pickDone interval (clock c) t Ht Hlt).
  - intros Hle He Hd Hsel. rewrite waitLoop_iteration.
    destruct (Z.ltb_spec waitFor now); [lia|]. cbv zeta. fold c. rewrite He, Hd.
    now rewrite (select_timer_first ctx pickDone interval (clock c) Hsel).
Qed.

(** The contract at the sample check: a passed deadline; an error at the
    seventh evaluation; done at the third; cancellation at 25 during a
    sleep that started at 21; a sleep of 10 from 1 to 11. *)
Lemma waitUntil_loop_contract_witness :
  let loop := waitLoop sampleCtx (fun _ => true) 10 sampleCheck in
  loop 1%nat 5 6 0%nat =
    Some {| result := Some "timeout exceeded"%string; final := 0%nat;
            returnedAt := 6; events := [] |}
  /\ loop 1%nat 50 0 7%nat =
     Some {| result := Some "boom"%string; final := 8%nat;
             returnedAt := 1; events := [Checked 0] |}
  /\ loop 1%nat 50 0 3%nat =
     Some {| result := None; final := 4%nat; returnedAt := 1; events := [Checked 0] |}
  /\ loop 1%nat 50 20 0%nat =
     Some {| result := Some "context canceled"%string; final := 1%nat;
             returnedAt := 25; events := [Checked 20] |}
  /\ loop 2%nat 50 0 0%nat =
     option_map (addEvents [Checked 0; Slept 1 11]) (loop 1%nat 50 11 1%nat).
Proof.
  intros loop. unfold loop.
  split; [|split; [|split; [|split]]].
  - apply (waitUntil_loop_contract sampleCtx (fun _ => true) 10 sampleCheck 0 5 6 0%nat). lia.
  - apply (waitUntil_loop_contract sampleCtx (fun _ => true) 10 sampleCheck 0 50 0 7%nat);
      [lia | reflexivity].
  - apply (waitUntil_loop_contract sampleCtx (fun _ => true) 10 sampleCheck 0 50 0 3%nat);
      [lia | reflexivity | reflexivity].
  - apply (waitUntil_loop_contract sampleCtx (fun _ => true) 10 sampleCheck 0 50 20 0%nat
             ) with (t := 25); [lia | reflexivity | reflexivity | reflexivity | simpl; lia].
  - apply (waitUntil_loop_contract sampleCtx (fun _ => true) 10 sampleCheck 1 50 0 0%nat);
      [lia | reflexivity | reflexivity |].
    right. exists 25. split; [reflexivity | simpl; lia].
Defined.

End WaiterFacts.

(** ** What a pass does to the resources it lists *)

Section Pass.

Context {W : Type}.
Variable client : Provider W.
Variable DeletionTag : string.
Variable a : action.
Variable input : CleanupScope.

Lemma avoids_nil (p : Call -> bool) : avoids p [].
Proof. reflexivity. Qed.

Lemma avoids_app (p : Call -> bool) (t1 t2 : Trace) :
  avoids p t1 -> avoids p t2 -> avoids p (t1 ++ t2).
Proof. unfold avoids. intros H1 H2. now rewrite calls_app, existsb_app, H1, H2. Qed.

(** *** Network interfaces *)

Lemma cleanNetworkInterface_calls (ni : NetworkInterface) (w : W) :
  calls (traceOf (cleanNetworkInterface client DeletionTag a input ni w)) =
  niDecision DeletionTag a input ni.
Proof.
  unfold cleanNetworkInterface, niDecision, decisionTable.
  rewrite scanTags_classify.
  destruct (classify (IgnoreTag input) DeletionTag (TagSet ni)); cbn [fst snd negb];
    destruct (commit a); cbn [negb]; now run.
Qed.

Lemma cleanNetworkInterfaces_calls (w : W) :
  calls (traceOf (cleanNetworkInterfaces client DeletionTag a input w)) =
  DescribeNetworkInterfaces ::
  match describeNetworkInterfaces client w with
  | Ok nis => flat_map (niDecision DeletionTag a input) nis
  | Err _ => []
  end.
Proof.
  unfold cleanNetworkInterfaces. run. cbn [calls app]. f_equal.
  destruct (describeNetworkInterfaces client w) as [nis|e]; [|reflexivity].
  destruct nis as [|ni nis]; [reflexivity|].
  cbn [List.length Nat.eqb]. run.
  apply forM_calls. intros x w' _. apply cleanNetworkInterface_calls.
Qed.

Lemma niDecision_avoids (x : string) (ni : NetworkInterface) :
  (NetworkInterfaceId ni = x -> hasKey (IgnoreTag input) (TagSet ni) = true) ->
  existsb (concernsNetworkInterface x) (niDecision DeletionTag a input ni) = false.
Proof.
  intros H. unfold niDecision, decisionTable, classify.
  destruct (NetworkInterfaceId ni =? x) eqn:E.
  - apply String.eqb_eq in E. now rewrite (H E).
  - destruct (hasKey (IgnoreTag input) (TagSet ni)); [reflexivity|].
    destruct (hasKey DeletionTag (TagSet ni)), (commit a); simpl; rewrite ?E; reflexivity.
Qed.

Lemma cleanNetworkInterfaces_avoids (x : string) (w : W) :
  (forall nis ni, describeNetworkInterfaces client w = Ok nis -> In ni nis ->
     NetworkInterfaceId ni = x -> hasKey (IgnoreTag input) (TagSet ni) = true) ->
  avoids (concernsNetworkInterface x)
    (traceOf (cleanNetworkInterfaces client DeletionTag a input w)).
Proof.
  intros H. unfold avoids. rewrite cleanNetworkInterfaces_calls. simpl.
  destruct (describeNetworkInterfaces client w) as [nis|e]; [|reflexivity].
  specialize (H nis). 
  induction nis as [|ni nis IH]; [reflexivity|].
  simpl. rewrite existsb_app, niDecision_avoids.
  - apply IH. intros ni' Heq Hin. apply H; [reflexivity | now right].
  - apply H; [reflexivity | now left].
Qed.

(** *** Networks *)

Lemma flat_map_filter {A} (p : A -> bool) (l : list A) :
  flat_map (fun x => if p x then [x] else []) l = filter p l.
Proof.
  induction l as [|x l IH]; simpl; [reflexivity|]. rewrite IH. now destruct (p x).
Qed.

Lemma classifyVpc_value (vpc : Vpc) (l : list Vpc) (w : W) :
  valueOf (classifyVpc client DeletionTag a input vpc l w) =
  l ++ (if listsVpc DeletionTag input vpc then [vpc] else []).
Proof.
  unfold classifyVpc, listsVpc, skipsVpc.
  destruct (scanVpcTags DeletionTag input (Vpc_Tags vpc)) as [[ignore marked] cfn].
  cbn [fst snd].
  destruct (ignore || IsDefault vpc); cbn [orb negb andb];
    [now rewrite app_nil_r|].
  destruct cfn; cbn [negb andb]; [now rewrite app_nil_r|].
  destruct marked; cbn [negb]; [reflexivity|]. now rewrite app_nil_r.
Qed.

Lemma classifyVpc_calls (vpc : Vpc) (l : list Vpc) (w : W) :
  calls (traceOf (classifyVpc client DeletionTag a input vpc l w)) =
  if marksVpc DeletionTag a input vpc then [CreateTags (VpcId vpc) DeletionTag "true"] else [].
Proof.
  unfold classifyVpc, marksVpc, skipsVpc, markVPCForFutureDeletion.
  destruct (scanVpcTags DeletionTag input (Vpc_Tags vpc)) as [[ignore marked] cfn].
  cbn [fst snd].
  destruct (ignore || IsDefault vpc); cbn [orb negb andb]; [now run|].
  destruct cfn; cbn [negb andb]; [now run|].
  destruct marked; cbn [negb andb]; [now run|].
  destruct (commit a); now run.
Qed.

Lemma vpcPageFunc_value (page : list Vpc) (lastPage : bool) (l : list Vpc) (w : W) :
  valueOf (vpcPageFunc client DeletionTag a input page lastPage l w) =
  (true, l ++ flat_map (fun v => if listsVpc DeletionTag input v then [v] else []) page).
Proof.
  unfold vpcPageFunc. rewrite valueOf_bind, valueOf_ret. f_equal.
  apply foldM_value. intros; apply classifyVpc_value.
Qed.

(** The worklist of [cleanVPCs] when the listing is over. *)
Lemma vpc_listing_value (p : Paged Vpc) (w : W) :
  valueOf (eachPage DescribeVpcsPage p (vpcPageFunc client DeletionTag a input) [] w) =
  (pagedErr p, filter (listsVpc DeletionTag input) (pagedItems p)).
Proof.
  rewrite (eachPage_value _ _ _ (fun v => if listsVpc DeletionTag input v then [v] else [])).
  - now rewrite flat_map_filter.
  - intros. apply vpcPageFunc_value.
Qed.

Lemma phase_avoids (p q : Call -> bool) (cs : list Call) :
  (forall c, p c = true -> q c = false) ->
  forallb p cs = true -> existsb q cs = false.
Proof.
  intros Hpq. induction cs as [|c cs IH]; simpl; [reflexivity|].
  intros H. apply andb_prop in H. destruct H as [Hc Hcs].
  now rewrite (Hpq c Hc), IH.
Qed.

Lemma deleteNATGateways_phase (vpcId : string) (w : W) :
  forallb natPhase (calls (traceOf (deleteNATGateways client vpcId w))) = true.
Proof.
  rewrite deleteNATGateways_calls. simpl.
  destruct (describeNatGateways client vpcId w); [|reflexivity].
  now apply forallb_map_const.
Qed.

Lemma deleteRouteTables_phase (vpcId : string) (w : W) :
  forallb routeTablePhase (calls (traceOf (deleteRouteTables client vpcId w))) = true.
Proof.
  rewrite deleteRouteTables_calls. simpl.
  destruct (describeRouteTables client vpcId w); [|reflexivity].
  now apply forallb_map_const.
Qed.

Lemma deleteSubnets_phase (vpcId : string) (w : W) :
  forallb subnetPhase (calls (traceOf (deleteSubnets client vpcId w))) = true.
Proof.
  rewrite deleteSubnets_calls. simpl.
  destruct (describeSubnets client vpcId w); [|reflexivity].
  now apply forallb_map_const.
Qed.

(** No call of a teardown is a tagging or a deletion of a network. *)
Lemma cleanVPCDependencies_no_vpc_call (vpcId : string) (w : W) :
  existsb isVpcCall (calls (traceOf (cleanVPCDependencies client vpcId w))) = false.
Proof.
  rewrite (proj1 (cleanVPCDependencies_calls client vpcId w)). cbv zeta.
  rewrite !existsb_app.
  rewrite (phase_avoids natPhase), (phase_avoids igwPhase),
    (phase_avoids routeTablePhase), (phase_avoids subnetPhase);
    first [ reflexivity
          | apply deleteNATGateways_phase | apply deleteInternetGateways_phase
          | apply deleteRouteTables_phase | apply deleteSubnets_phase
          | now intros [] ].
Qed.

Lemma existsb_map_const {A} (p : Call -> bool) (f : A -> Call) (l : list A) :
  (forall x, p (f x) = false) -> existsb p (map f l) = false.
Proof. intros H. induction l; simpl; [reflexivity|]. now rewrite H. Qed.

(** The teardown and deletion of one network does not touch another. *)
Lemma deleteVPC_avoids (x vpcId : string) (w : W) :
  (vpcId =? x) = false ->
  avoids (concernsVpc x) (traceOf (deleteVPC client vpcId w)).
Proof.
  intros E. unfold avoids.
  rewrite deleteVPC_calls, (proj1 (cleanVPCDependencies_calls client vpcId w)). cbv zeta.
  rewrite !existsb_app.
  rewrite deleteNATGateways_calls, deleteRouteTables_calls, deleteSubnets_calls.
  cbn [existsb concernsVpc]. rewrite E. cbn [orb].
  assert (Hi : forall w', existsb (concernsVpc x)
                 (calls (traceOf (deleteInternetGateways client vpcId w'))) = false).
  { intros w'. unfold deleteInternetGateways. run. cbn [calls app existsb concernsVpc].
    rewrite E. cbn [orb].
    destruct (describeInternetGateways client vpcId w'); [|reflexivity]. run.
    apply (forM_trace (avoids (concernsVpc x)));
      [apply avoids_nil | apply avoids_app |].
    intros igw w'' _. unfold avoids. rewrite deleteInternetGateway_calls.
    destruct (fst (mutate client _ w'')); simpl; now rewrite E. }
  rewrite Hi.
  repeat match goal with
  | |- context [match ?r with Ok _ => _ | Err _ => _ end] => destruct r
  end; rewrite ?existsb_map_const; reflexivity.
Qed.

Lemma deleteListedVpc_avoids (x : string) (vpc : Vpc) (w : W) :
  (VpcId vpc =? x) = false ->
  avoids (concernsVpc x) (traceOf (deleteListedVpc client a vpc w)).
Proof.
  intros E. unfold deleteListedVpc. destruct (commit a); cbn [negb]; [|reflexivity].
  rewrite traceOf_bind. apply avoids_app; [now apply deleteVPC_avoids|].
  unfold avoids. now run.
Qed.

(** If every listed entry named [x] is one that [classifyVpc] skips,
    the pass issues no call that concerns network [x]. *)
Lemma cleanVPCs_avoids (x : string) (w : W) :
  (forall v, In v (pagedItems (describeVpcsPages client w)) -> VpcId v = x ->
     skipsVpc DeletionTag input v = true) ->
  avoids (concernsVpc x) (traceOf (cleanVPCs client DeletionTag a input w)).
Proof.
  intros H. unfold cleanVPCs. rewrite traceOf_bind.
  assert (Hskip : forall v, In v (pagedItems (describeVpcsPages client w)) ->
            skipsVpc DeletionTag input v = false -> (VpcId v =? x) = false).
  { intros v Hin Hs. destruct (VpcId v =? x) eqn:E; [|reflexivity].
    apply String.eqb_eq in E. rewrite (H v Hin E) in Hs. discriminate. }
  apply avoids_app.
  - apply (eachPage_trace (avoids (concernsVpc x)) (fun _ => True));
      [apply avoids_nil | apply avoids_app | reflexivity | | exact I].
    intros page lastPage l w' Hpage _. split; [exact I|].
    unfold vpcPageFunc. rewrite traceOf_bind, traceOf_ret, app_nil_r.
    apply (foldM_trace (avoids (concernsVpc x)) (fun _ => True));
      [apply avoids_nil | apply avoids_app | | exact I].
    intros v l' w'' Hv _. split; [exact I|].
    unfold avoids. rewrite classifyVpc_calls. unfold marksVpc.
    destruct (skipsVpc DeletionTag input v) eqn:Hs; [reflexivity|].
    cbn [negb andb].
    destruct (negb _ && commit a); [|reflexivity].
    simpl. now rewrite (Hskip v (Hpage v Hv) Hs).
  - rewrite vpc_listing_value. cbn [fst snd].
    destruct (pagedErr (describeVpcsPages client w)); [reflexivity|].
    destruct (List.length _ =? 0)%nat; [reflexivity|].
    rewrite traceOf_bind, traceOf_ret, app_nil_r.
    apply (forM_trace (avoids (concernsVpc x))); [apply avoids_nil | apply avoids_app |].
    intros v w' Hv. apply filter_In in Hv. destruct Hv as [Hin Hl].
    apply deleteListedVpc_avoids. apply (Hskip v Hin).
    unfold listsVpc in Hl. now destruct (skipsVpc DeletionTag input v).
Qed.

(** *** Load balancers *)

Lemma classifyLoadBalancer_value (lb : LoadBalancer) (l : list string) (w : W) :
  valueOf (classifyLoadBalancer client DeletionTag a input lb l w) =
  l ++ match describeTags client (LoadBalancerArn lb) w with
       | Ok descs =>
           match classify (IgnoreTag input) DeletionTag (allTags descs) with
           | Marked => [LoadBalancerArn lb]
           | _ => []
           end
       | Err _ => []
       end.
Proof.
  unfold classifyLoadBalancer. rewrite valueOf_bind, valueOf_query, worldOf_query.
  destruct (describeTags client (LoadBalancerArn lb) w) as [descs|e];
    [|now rewrite app_nil_r].
  rewrite scanTagDescriptions_allTags, scanTags_classify.
  destruct (classify (IgnoreTag input) DeletionTag (allTags descs)); cbn [fst snd negb];
    try reflexivity; now rewrite app_nil_r.
Qed.

Lemma classifyLoadBalancer_calls (lb : LoadBalancer) (l : list string) (w : W) :
  calls (traceOf (classifyLoadBalancer client DeletionTag a input lb l w)) =
  DescribeTags (LoadBalancerArn lb) ::
  match describeTags client (LoadBalancerArn lb) w with
  | Ok descs =>
      match classify (IgnoreTag input) DeletionTag (allTags descs), commit a with
      | Unmarked, true => [AddTags (LoadBalancerArn lb) DeletionTag "true"]
      | _, _ => []
      end
  | Err _ => []
  end.
Proof.
  unfold classifyLoadBalancer, markLoadBalancerV2ForFutureDeletion.
  rewrite traceOf_bind, calls_app, traceOf_query, valueOf_query, worldOf_query.
  cbn [calls app]. f_equal.
  destruct (describeTags client (LoadBalancerArn lb) w) as [descs|e]; [|now run].
  rewrite scanTagDescriptions_allTags, scanTags_classify.
  destruct (classify (IgnoreTag input) DeletionTag (allTags descs)); cbn [fst snd negb];
    try (now run).
  destruct (commit a); now run.
Qed.

Lemma deleteLoadBalancerV2_calls (lbArn : string) (w : W) :
  calls (traceOf (deleteLoadBalancerV2 client lbArn w)) =
  DescribeTargetGroups lbArn :: DeleteLoadBalancer lbArn ::
  match fst (mutate client (DeleteLoadBalancer lbArn) w) with
  | Some _ => []
  | None =>
      WaitUntilLoadBalancersDeleted lbArn ::
      map (fun tg => DeleteTargetGroup (TargetGroupArn tg))
          (targetGroupsOf (describeTargetGroups client lbArn w))
  end.
Proof.
  unfold deleteLoadBalancerV2. run. rewrite valueOf_exec. cbn [calls app]. do 2 f_equal.
  destruct (fst (mutate client (DeleteLoadBalancer lbArn) w)); [reflexivity|].
  run. cbn [calls app]. f_equal.
  rewrite (forM_calls _ _ (fun tg => [DeleteTargetGroup (TargetGroupArn tg)])).
  - apply flat_map_single.
  - intros tg w' _. now run.
Qed.

Lemma deleteListedLoadBalancer_avoids (x arn : string) (w : W) :
  (arn =? x) = false ->
  avoids (concernsLoadBalancer x) (traceOf (deleteListedLoadBalancer client a arn w)).
Proof.
  intros E. unfold deleteListedLoadBalancer. destruct (commit a); cbn [negb]; [|reflexivity].
  unfold avoids. run. rewrite deleteLoadBalancerV2_calls.
  cbn [existsb concernsLoadBalancer app]. rewrite E. cbn [orb].
  destruct (fst (mutate client (DeleteLoadBalancer arn) w)); [reflexivity|].
  cbn [existsb concernsLoadBalancer]. rewrite E. now rewrite existsb_map_const.
Qed.

(** If the tags the provider reports for [x], whenever they are asked
    for, contain the ignore key, the pass issues no call that concerns
    load balancer [x]: [x] is not tagged, not deleted, its target groups
    are not listed. *)
Lemma cleanLoadBalancersV2_avoids (x : string) (w : W) :
  (forall w' descs, describeTags client x w' = Ok descs ->
     hasKey (IgnoreTag input) (allTags descs) = true) ->
  avoids (concernsLoadBalancer x) (traceOf (cleanLoadBalancersV2 client DeletionTag a input w)).
Proof.
  intros H. unfold cleanLoadBalancersV2. rewrite traceOf_bind.
  set (R := fun l : list string => forall arn, In arn l -> (arn =? x) = false).
  assert (Hstep : forall lb l w', R l ->
            R (valueOf (classifyLoadBalancer client DeletionTag a input lb l w'))
            /\ avoids (concernsLoadBalancer x)
                 (traceOf (classifyLoadBalancer client DeletionTag a input lb l w'))).
  { intros lb l w' Hl. unfold avoids.
    rewrite classifyLoadBalancer_value, classifyLoadBalancer_calls.
    cbn [existsb concernsLoadBalancer orb].
    destruct (describeTags client (LoadBalancerArn lb) w') as [descs|e] eqn:Hd;
      [|now rewrite app_nil_r].
    unfold classify.
    destruct (LoadBalancerArn lb =? x) eqn:E.
    - apply String.eqb_eq in E. rewrite E in Hd. rewrite (H _ _ Hd).
      now rewrite app_nil_r.
    - destruct (hasKey (IgnoreTag input) (allTags descs)); [now rewrite app_nil_r|].
      destruct (hasKey DeletionTag (allTags descs)).
      + split; [|now destruct (commit a)].
        intros arn Hin. apply in_app_or in Hin. destruct Hin as [Hin|[<-|[]]]; auto.
      + rewrite app_nil_r. split; [exact Hl|].
        destruct (commit a); simpl; now rewrite ?E. }
  destruct (eachPage_trace (avoids (concernsLoadBalancer x)) R DescribeLoadBalancersPage
              (describeLoadBalancersPages client w) (lbPageFunc client DeletionTag a input)
              (avoids_nil _) (avoids_app _) (fun _ => eq_refl)) with (s := @nil string) (w := w)
    as [HR HP].
  - intros page lastPage l w' _ Hl. unfold lbPageFunc.
    rewrite valueOf_bind, traceOf_bind, valueOf_ret, traceOf_ret, app_nil_r. cbn [snd].
    apply (foldM_trace (avoids (concernsLoadBalancer x)) R);
      [apply avoids_nil | apply avoids_app | | exact Hl].
    intros lb l' w'' _ Hl'. now apply Hstep.
  - intros arn [].
  - apply avoids_app; [exact HP|].
    destruct (fst (valueOf _)); [reflexivity|].
    destruct (List.length _ =? 0)%nat; [reflexivity|].
    rewrite traceOf_bind, traceOf_ret, app_nil_r.
    apply (forM_trace (avoids (concernsLoadBalancer x))); [apply avoids_nil | apply avoids_app |].
    intros arn w' Hin. apply deleteListedLoadBalancer_avoids. now apply HR.
Qed.

(** *** Exclusions *)

Lemma skipsVpc_ignore (v : Vpc) :
  hasKey (IgnoreTag input) (Vpc_Tags v) = true -> skipsVpc DeletionTag input v = true.
Proof.
  intros H. unfold skipsVpc.
  pose proof (scanVpcTags_ignore DeletionTag input (Vpc_Tags v)) as Hi.
  destruct (scanVpcTags DeletionTag input (Vpc_Tags v)) as [[ignore marked] cfn].
  cbn [fst] in Hi. now rewrite Hi, H.
Qed.

Lemma skipsVpc_excluded (v : Vpc) :
  isStackKey DeletionTag = false ->
  skipsVpc DeletionTag input v =
  hasKey (IgnoreTag input) (Vpc_Tags v) || excludedVpc v.
Proof.
  intros HD. unfold skipsVpc, excludedVpc.
  rewrite (scanVpcTags_classify DeletionTag input (Vpc_Tags v) HD). unfold classify.
  destruct (hasKey (IgnoreTag input) (Vpc_Tags v)); [reflexivity|].
  destruct (hasKey DeletionTag (Vpc_Tags v)); reflexivity.
Qed.

Lemma deleteVPC_keeps_main (rtb vpcId : string) (w : W) :
  (forall v w' rts rt, describeRouteTables client v w' = Ok rts -> In rt rts ->
     RouteTableId rt = rtb -> isMain rt = true) ->
  avoids (deletesRouteTable rtb) (traceOf (deleteVPC client vpcId w)).
Proof.
  intros H. unfold avoids.
  rewrite deleteVPC_calls, (proj1 (cleanVPCDependencies_calls client vpcId w)). cbv zeta.
  rewrite !existsb_app.
  rewrite (phase_avoids natPhase (deletesRouteTable rtb) (calls (traceOf (deleteNATGateways _ _ _))));
    [|now intros [] | apply deleteNATGateways_phase].
  rewrite (phase_avoids igwPhase (deletesRouteTable rtb)
             (calls (traceOf (deleteInternetGateways _ _ _))));
    [|now intros [] | apply deleteInternetGateways_phase].
  rewrite (phase_avoids subnetPhase (deletesRouteTable rtb)
             (calls (traceOf (deleteSubnets _ _ _))));
    [|now intros [] | apply deleteSubnets_phase].
  rewrite deleteRouteTables_calls. cbn [existsb deletesRouteTable orb].
  destruct (describeRouteTables client vpcId _) as [rts|e] eqn:Hd; [|reflexivity].
  repeat rewrite orb_false_r.
  assert (H' : forall rt, In rt rts -> RouteTableId rt = rtb -> isMain rt = true)
    by (intros rt; exact (H _ _ _ rt Hd)).
  clear Hd H. rename H' into H.
  induction rts as [|rt rts IH]; [reflexivity|]. cbn [filter].
  assert (IH' := IH (fun rt' Hin => H rt' (or_intror Hin))).
  destruct (isMain rt) eqn:Hm; cbn [negb]; [exact IH'|].
  cbn [map existsb deletesRouteTable]. rewrite IH', orb_false_r.
  destruct (RouteTableId rt =? rtb) eqn:E; [|reflexivity].
  apply String.eqb_eq in E. rewrite (H rt (or_introl eq_refl) E) in Hm. discriminate.
Qed.

Lemma cleanVPCs_keeps_main (rtb : string) (w : W) :
  (forall v w' rts rt, describeRouteTables client v w' = Ok rts -> In rt rts ->
     RouteTableId rt = rtb -> isMain rt = true) ->
  avoids (deletesRouteTable rtb) (traceOf (cleanVPCs client DeletionTag a input w)).
Proof.
  intros H. unfold cleanVPCs. rewrite traceOf_bind. apply avoids_app.
  - apply (eachPage_trace (avoids (deletesRouteTable rtb)) (fun _ => True));
      [apply avoids_nil | apply avoids_app | reflexivity | | exact I].
    intros page lastPage l w' _ _. split; [exact I|].
    unfold vpcPageFunc. rewrite traceOf_bind, traceOf_ret, app_nil_r.
    apply (foldM_trace (avoids (deletesRouteTable rtb)) (fun _ => True));
      [apply avoids_nil | apply avoids_app | | exact I].
    intros v l' w'' _ _. split; [exact I|].
    unfold avoids. rewrite classifyVpc_calls. now destruct (marksVpc _ _ _ _).
  - destruct (fst (valueOf _)); [reflexivity|].
    destruct (List.length _ =? 0)%nat; [reflexivity|].
    rewrite traceOf_bind, traceOf_ret, app_nil_r.
    apply (forM_trace (avoids (deletesRouteTable rtb))); [apply avoids_nil | apply avoids_app |].
    intros v w' _. unfold deleteListedVpc. destruct (commit a); cbn [negb]; [|reflexivity].
    rewrite traceOf_bind. apply avoids_app; [now apply deleteVPC_keeps_main|].
    unfold avoids. now run.
Qed.

(** C1, as amended.  A network interface, network or load balancer
    that the cleaner of its kind lists and whose tags contain the ignore
    key is the object of no call of the pass: it is not tagged and not
    deleted, whatever [commit] is and whether or not it also carries the
    deletion key; for a network, no gateway is detached from it and none
    of its dependents is listed; for a load balancer, its target groups
    are not listed. *)
Theorem ignore_tag_protects_listed_resources (w : W) (eni vpc arn : string) :
  (forall nis ni, describeNetworkInterfaces client w = Ok nis -> In ni nis ->
     NetworkInterfaceId ni = eni -> hasKey (IgnoreTag input) (TagSet ni) = true) ->
  (forall v, In v (pagedItems (describeVpcsPages client w)) -> VpcId v = vpc ->
     hasKey (IgnoreTag input) (Vpc_Tags v) = true) ->
  (forall w' descs, describeTags client arn w' = Ok descs ->
     hasKey (IgnoreTag input) (allTags descs) = true) ->
  avoids (concernsNetworkInterface eni)
    (traceOf (cleanNetworkInterfaces client DeletionTag a input w))
  /\ avoids (concernsVpc vpc) (traceOf (cleanVPCs client DeletionTag a input w))
  /\ avoids (concernsLoadBalancer arn)
       (traceOf (cleanLoadBalancersV2 client DeletionTag a input w)).
Proof.
  intros Hni Hvpc Hlb. split; [|split].
  - now apply cleanNetworkInterfaces_avoids.
  - apply cleanVPCs_avoids. intros v Hin Hv. apply skipsVpc_ignore. now apply Hvpc.
  - now apply cleanLoadBalancersV2_avoids.
Qed.

(** C6.  With [DeletionTag] not itself a stack key: a network that is
    the default network or carries a CloudFormation stack key is the
    object of no call of the pass, with [commit] true and without the
    ignore key as well, and whether or not it carries the deletion key;
    [classifyVpc] passes over it before looking at the deletion key,
    leaving the worklist as it is and issuing no call.  A route table
    with a main association is never passed to [DeleteRouteTable]. *)
Theorem excluded_resources_are_never_touched (w : W) (vpc rtb : string) :
  isStackKey DeletionTag = false ->
  (forall v, In v (pagedItems (describeVpcsPages client w)) -> VpcId v = vpc ->
     excludedVpc v = true) ->
  (forall v w' rts rt, describeRouteTables client v w' = Ok rts -> In rt rts ->
     RouteTableId rt = rtb -> isMain rt = true) ->
  avoids (concernsVpc vpc) (traceOf (cleanVPCs client DeletionTag a input w))
  /\ avoids (deletesRouteTable rtb) (traceOf (cleanVPCs client DeletionTag a input w))
  /\ (forall v l w', excludedVpc v = true ->
        valueOf (classifyVpc client DeletionTag a input v l w') = l
        /\ calls (traceOf (classifyVpc client DeletionTag a input v l w')) = [])
  /\ (forall rt w', isMain rt = true ->
        calls (traceOf (deleteRouteTable client rt w')) = []).
Proof.
  intros HD Hvpc Hrt. split; [|split; [|split]].
  - apply cleanVPCs_avoids. intros v Hin Hv.
    rewrite (skipsVpc_excluded v HD), (Hvpc v Hin Hv). apply orb_true_r.
  - now apply cleanVPCs_keeps_main.
  - intros v l w' Hex. rewrite classifyVpc_value, classifyVpc_calls.
    unfold listsVpc, marksVpc. rewrite (skipsVpc_excluded v HD), Hex, orb_true_r.
    cbn [negb andb]. now rewrite app_nil_r.
  - intros rt w' Hm. rewrite deleteRouteTable_calls. now rewrite Hm.
Qed.

(** *** The decision table over a whole pass *)

Lemma filter_calls_app (q : Call -> bool) (t1 t2 : Trace) :
  filter q (calls (t1 ++ t2)) = filter q (calls t1) ++ filter q (calls t2).
Proof. now rewrite calls_app, filter_app. Qed.

Lemma filter_none (q : Call -> bool) (cs : list Call) :
  existsb q cs = false -> filter q cs = [].
Proof.
  induction cs as [|c cs IH]; simpl; [reflexivity|].
  intros H. apply orb_false_elim in H. destruct H as [Hc Hcs].
  rewrite Hc. now apply IH.
Qed.

Lemma flat_map_of_filter {A B} (p : A -> bool) (g : A -> list B) (l : list A) :
  flat_map g (filter p l) = flat_map (fun x => if p x then g x else []) l.
Proof.
  induction l as [|x l IH]; simpl; [reflexivity|].
  destruct (p x); simpl; now rewrite IH.
Qed.

Lemma deleteListedVpc_vpc_calls (vpc : Vpc) (w : W) :
  filter isVpcCall (calls (traceOf (deleteListedVpc client a vpc w))) =
  if commit a then [DeleteVpc (VpcId vpc)] else [].
Proof.
  unfold deleteListedVpc. destruct (commit a); cbn [negb]; [|reflexivity].
  run. rewrite deleteVPC_calls, !filter_app.
  rewrite (filter_none _ _ (cleanVPCDependencies_no_vpc_call _ _)). reflexivity.
Qed.

Lemma cleanVPCs_vpc_calls (w : W) :
  let items := pagedItems (describeVpcsPages client w) in
  filter isVpcCall (calls (traceOf (cleanVPCs client DeletionTag a input w))) =
  flat_map (fun v => if marksVpc DeletionTag a input v
                     then [CreateTags (VpcId v) DeletionTag "true"] else []) items
  ++ match pagedErr (describeVpcsPages client w) with
     | Some _ => []
     | None => flat_map (fun v => if commit a then [DeleteVpc (VpcId v)] else [])
                 (filter (listsVpc DeletionTag input) items)
     end.
Proof.
  intros items. unfold cleanVPCs. rewrite traceOf_bind, filter_calls_app. f_equal.
  - apply (eachPage_hom (fun t => filter isVpcCall (calls t)) eq_refl (filter_calls_app _));
      [reflexivity|].
    intros page lastPage l w'. split; [|now rewrite vpcPageFunc_value].
    unfold vpcPageFunc. rewrite traceOf_bind, traceOf_ret, app_nil_r.
    apply (foldM_hom (fun t => filter isVpcCall (calls t)) eq_refl (filter_calls_app _)).
    intros v l' w''. rewrite classifyVpc_calls. now destruct (marksVpc _ _ _ _).
  - rewrite vpc_listing_value. cbn [fst snd]. fold items.
    destruct (pagedErr (describeVpcsPages client w)); [reflexivity|].
    destruct (filter (listsVpc DeletionTag input) items) as [|v l]; [reflexivity|].
    cbn [List.length Nat.eqb]. rewrite traceOf_bind, traceOf_ret, app_nil_r.
    apply (forM_hom (fun t => filter isVpcCall (calls t)) eq_refl (filter_calls_app _)).
    intros v' w' _. apply deleteListedVpc_vpc_calls.
Qed.

(** Under the assumption on [DeletionTag], what [classifyVpc] tags and
    lists is what the decision table says of the networks that are not
    excluded. *)
Lemma marksVpc_table (v : Vpc) :
  isStackKey DeletionTag = false ->
  (if marksVpc DeletionTag a input v then [CreateTags (VpcId v) DeletionTag "true"] else []) =
  vpcMark DeletionTag a input v.
Proof.
  intros HD. unfold marksVpc, vpcMark. rewrite (skipsVpc_excluded v HD).
  rewrite (scanVpcTags_classify DeletionTag input (Vpc_Tags v) HD).
  unfold classify.
  destruct (excludedVpc v); [now rewrite orb_true_r|]. rewrite orb_false_r.
  destruct (hasKey (IgnoreTag input) (Vpc_Tags v)); [reflexivity|].
  destruct (hasKey DeletionTag (Vpc_Tags v)); cbn [fst snd negb andb];
    [reflexivity | now destruct (commit a)].
Qed.

Lemma listsVpc_table (v : Vpc) :
  isStackKey DeletionTag = false ->
  listsVpc DeletionTag input v = vpcListed DeletionTag input v.
Proof.
  intros HD. unfold listsVpc, vpcListed. rewrite (skipsVpc_excluded v HD).
  rewrite (scanVpcTags_classify DeletionTag input (Vpc_Tags v) HD).
  unfold classify.
  destruct (excludedVpc v); [now rewrite orb_true_r|]. rewrite orb_false_r.
  destruct (hasKey (IgnoreTag input) (Vpc_Tags v)); [reflexivity|].
  destruct (hasKey DeletionTag (Vpc_Tags v)); reflexivity.
Qed.

Lemma cleanVPCs_table (w : W) :
  isStackKey DeletionTag = false ->
  let items := pagedItems (describeVpcsPages client w) in
  filter isVpcCall (calls (traceOf (cleanVPCs client DeletionTag a input w))) =
  flat_map (vpcMark DeletionTag a input) items
  ++ match pagedErr (describeVpcsPages client w) with
     | Some _ => []
     | None => flat_map (vpcDelete DeletionTag a input) items
     end.
Proof.
  intros HD items. rewrite cleanVPCs_vpc_calls. fold items. f_equal.
  - apply flat_map_ext. intros v. now apply marksVpc_table.
  - destruct (pagedErr (describeVpcsPages client w)); [reflexivity|].
    rewrite flat_map_of_filter. apply flat_map_ext. intros v.
    unfold vpcDelete. rewrite (listsVpc_table v HD).
    now destruct (vpcListed DeletionTag input v), (commit a).
Qed.

Lemma deleteListedLoadBalancer_lb_calls (arn : string) (w : W) :
  filter isLoadBalancerCall (calls (traceOf (deleteListedLoadBalancer client a arn w))) =
  if commit a then [DeleteLoadBalancer arn] else [].
Proof.
  unfold deleteListedLoadBalancer. destruct (commit a); cbn [negb]; [|reflexivity].
  run. rewrite deleteLoadBalancerV2_calls, ?app_nil_r. cbn [filter isLoadBalancerCall].
  f_equal.
  destruct (fst (mutate client (DeleteLoadBalancer arn) w)); [reflexivity|].
  cbn [filter isLoadBalancerCall]. apply filter_none. now apply existsb_map_const.
Qed.

(** The listing phase of the load-balancer cleaner deletes nothing. *)
Lemma lb_listing_deletes_nothing (p : Paged LoadBalancer) (l : list string) (w : W) :
  avoids isDelete
    (traceOf (eachPage DescribeLoadBalancersPage p (lbPageFunc client DeletionTag a input) l w)).
Proof.
  apply (eachPage_trace (avoids isDelete) (fun _ => True));
    [apply avoids_nil | apply avoids_app | reflexivity | | exact I].
  intros page lastPage l' w' _ _. split; [exact I|].
  unfold lbPageFunc. rewrite traceOf_bind, traceOf_ret, app_nil_r.
  apply (foldM_trace (avoids isDelete) (fun _ => True));
    [apply avoids_nil | apply avoids_app | | exact I].
  intros lb l'' w'' _ _. split; [exact I|].
  unfold avoids. rewrite classifyLoadBalancer_calls.
  destruct (describeTags client (LoadBalancerArn lb) w''); [|reflexivity].
  now destruct (classify _ _ _), (commit a).
Qed.

Lemma cleanLoadBalancersV2_lb_calls (w : W) :
  let listing := eachPage DescribeLoadBalancersPage (describeLoadBalancersPages client w)
                   (lbPageFunc client DeletionTag a input) [] w in
  filter isLoadBalancerCall (calls (traceOf (cleanLoadBalancersV2 client DeletionTag a input w))) =
  filter isLoadBalancerCall (calls (traceOf listing))
  ++ match fst (valueOf listing) with
     | Some _ => []
     | None => flat_map (fun arn => if commit a then [DeleteLoadBalancer arn] else [])
                 (snd (valueOf listing))
     end.
Proof.
  intros listing. unfold cleanLoadBalancersV2. rewrite traceOf_bind, filter_calls_app.
  fold listing. f_equal.
  destruct (fst (valueOf listing)); [reflexivity|].
  destruct (snd (valueOf listing)) as [|arn l]; [reflexivity|].
  cbn [List.length Nat.eqb]. rewrite traceOf_bind, traceOf_ret, app_nil_r.
  apply (forM_hom (fun t => filter isLoadBalancerCall (calls t)) eq_refl (filter_calls_app _)).
  intros arn' w' _. apply deleteListedLoadBalancer_lb_calls.
Qed.

Lemma classifyLoadBalancer_world (lb : LoadBalancer) (l : list string) (w : W) :
  worldOf (classifyLoadBalancer client DeletionTag a input lb l w) =
  match describeTags client (LoadBalancerArn lb) w with
  | Ok descs =>
      match classify (IgnoreTag input) DeletionTag (allTags descs), commit a with
      | Unmarked, true => snd (mutate client (AddTags (LoadBalancerArn lb) DeletionTag "true") w)
      | _, _ => w
      end
  | Err _ => w
  end.
Proof.
  unfold classifyLoadBalancer, markLoadBalancerV2ForFutureDeletion.
  rewrite worldOf_bind, valueOf_query, worldOf_query.
  destruct (describeTags client (LoadBalancerArn lb) w) as [descs|e]; [|reflexivity].
  rewrite scanTagDescriptions_allTags, scanTags_classify.
  destruct (classify (IgnoreTag input) DeletionTag (allTags descs)); cbn [fst snd negb];
    try reflexivity.
  destruct (commit a); [|reflexivity]. now run.
Qed.

(** One round of the callback is one row of the table. *)
Lemma lbDecide_round (lb : LoadBalancer) (marks : list Call) (l : list string) (w : W) :
  let r := classifyLoadBalancer client DeletionTag a input lb l w in
  lbDecide client DeletionTag a input (marks, l, w) lb =
  (marks ++ filter isLoadBalancerCall (calls (traceOf r)), valueOf r, worldOf r).
Proof.
  cbv zeta. rewrite classifyLoadBalancer_value, classifyLoadBalancer_calls,
    classifyLoadBalancer_world.
  unfold lbDecide. cbn [fst snd filter isLoadBalancerCall].
  destruct (describeTags client (LoadBalancerArn lb) w) as [descs|e];
    [|now rewrite !app_nil_r].
  destruct (classify (IgnoreTag input) DeletionTag (allTags descs));
    try (destruct (commit a)); cbn [filter isLoadBalancerCall]; now rewrite ?app_nil_r.
Qed.

Lemma lbDecide_rounds (lbs : list LoadBalancer) :
  forall (marks : list Call) (l : list string) (w : W),
    let r := foldM lbs (classifyLoadBalancer client DeletionTag a input) l w in
    fold_left (lbDecide client DeletionTag a input) lbs (marks, l, w) =
    (marks ++ filter isLoadBalancerCall (calls (traceOf r)), valueOf r, worldOf r).
Proof.
  induction lbs as [|lb lbs IH]; intros marks l w; cbv zeta.
  - cbn. now rewrite app_nil_r.
  - cbn [fold_left]. rewrite lbDecide_round. cbv zeta. rewrite IH. cbv zeta.
    simpl foldM. rewrite traceOf_bind, valueOf_bind, worldOf_bind, filter_calls_app.
    now rewrite app_assoc.
Qed.

(** The listing of [cleanLoadBalancersV2] runs the table over the load
    balancers of all pages. *)
Lemma lbDecide_pages (p : Paged LoadBalancer) :
  forall (marks : list Call) (l : list string) (w : W),
    let r := eachPage DescribeLoadBalancersPage p (lbPageFunc client DeletionTag a input) l w in
    fold_left (lbDecide client DeletionTag a input) (pagedItems p) (marks, l, w) =
    (marks ++ filter isLoadBalancerCall (calls (traceOf r)), snd (valueOf r), worldOf r).
Proof.
  induction p as [items|items rest IH|e]; intros marks l w; cbv zeta.
  - cbn [pagedItems]. rewrite lbDecide_rounds. cbv zeta.
    simpl eachPage. unfold lbPageFunc.
    now rewrite !traceOf_bind, !valueOf_bind, !worldOf_bind, !worldOf_emit, !traceOf_emit,
      !traceOf_ret, !valueOf_ret, !worldOf_ret, !app_nil_r.
  - cbn [pagedItems]. rewrite fold_left_app, lbDecide_rounds. cbv zeta. rewrite IH. cbv zeta.
    simpl eachPage. unfold lbPageFunc at 3 4 5.
    rewrite !traceOf_bind, !valueOf_bind, !worldOf_bind, !worldOf_emit, !traceOf_emit,
      !traceOf_ret, !valueOf_ret, !worldOf_ret, !app_nil_r.
    cbn [fst snd app calls filter isLoadBalancerCall].
    unfold lbPageFunc. now rewrite filter_calls_app, app_assoc.
  - cbn. now rewrite app_nil_r.
Qed.

Lemma cleanLoadBalancersV2_table (w : W) :
  let t := lbDecisions client DeletionTag a input
             (pagedItems (describeLoadBalancersPages client w)) w in
  filter isLoadBalancerCall (calls (traceOf (cleanLoadBalancersV2 client DeletionTag a input w))) =
  fst (fst t)
  ++ match pagedErr (describeLoadBalancersPages client w) with
     | Some _ => []
     | None => flat_map (fun arn => if commit a then [DeleteLoadBalancer arn] else [])
                 (snd (fst t))
     end.
Proof.
  cbv zeta. rewrite cleanLoadBalancersV2_lb_calls. cbv zeta.
  unfold lbDecisions. rewrite lbDecide_pages. cbv zeta. cbn [fst snd app].
  rewrite (eachPage_err DescribeLoadBalancersPage (describeLoadBalancersPages client w)
             (lbPageFunc client DeletionTag a input)) by reflexivity.
  reflexivity.
Qed.

(** C2, as amended.  The mutating calls that the listed resources
    receive in one pass are those of the decision table.
    Network interfaces: after the listing call, each listed interface
    contributes, in order, the [CreateTags] call when it is unmarked and
    [commit] is true, the [DeleteNetworkInterface] call when it is
    marked and [commit] is true, and nothing otherwise.
    Networks: the tagging and deletion calls of the pass are the
    [CreateTags] calls of the unmarked networks that are not excluded,
    followed, when the listing did not fail, by the [DeleteVpc] calls of
    the marked networks that are not excluded; none when [commit] is
    false.
    Load balancers: an entry whose tags were fetched is tagged when
    unmarked and [commit] is true and is put on the worklist when
    marked; the listing phase deletes nothing; when the listing did not
    fail and [commit] is true each worklist entry receives one
    [DeleteLoadBalancer] call.  Over the whole pass, the tagging and
    deletion calls are those of the table run over the load balancers
    of all pages in listing order, each at the state in which the pass
    reaches it: the [AddTags] calls of the unmarked ones, followed, when
    the listing did not fail, by the [DeleteLoadBalancer] calls of the
    marked ones. *)
Theorem decision_table_of_a_pass (w : W) :
  isStackKey DeletionTag = false ->
  calls (traceOf (cleanNetworkInterfaces client DeletionTag a input w)) =
    DescribeNetworkInterfaces ::
    match describeNetworkInterfaces client w with
    | Ok nis => flat_map (niDecision DeletionTag a input) nis
    | Err _ => []
    end
  /\ filter isVpcCall (calls (traceOf (cleanVPCs client DeletionTag a input w))) =
       flat_map (vpcMark DeletionTag a input) (pagedItems (describeVpcsPages client w))
       ++ match pagedErr (describeVpcsPages client w) with
          | Some _ => []
          | None => flat_map (vpcDelete DeletionTag a input)
                      (pagedItems (describeVpcsPages client w))
          end
  /\ (forall lb l w',
        valueOf (classifyLoadBalancer client DeletionTag a input lb l w') =
          l ++ match describeTags client (LoadBalancerArn lb) w' with
               | Ok descs =>
                   match classify (IgnoreTag input) DeletionTag (allTags descs) with
                   | Marked => [LoadBalancerArn lb]
                   | _ => []
                   end
               | Err _ => []
               end
        /\ calls (traceOf (classifyLoadBalancer client DeletionTag a input lb l w')) =
             DescribeTags (LoadBalancerArn lb) ::
             match describeTags client (LoadBalancerArn lb) w' with
             | Ok descs =>
                 match classify (IgnoreTag input) DeletionTag (allTags descs), commit a with
                 | Unmarked, true => [AddTags (LoadBalancerArn lb) DeletionTag "true"]
                 | _, _ => []
                 end
             | Err _ => []
             end)
  /\ (let listing := eachPage DescribeLoadBalancersPage (describeLoadBalancersPages client w)
                       (lbPageFunc client DeletionTag a input) [] w in
      avoids isDelete (traceOf listing)
      /\ filter isLoadBalancerCall
           (calls (traceOf (cleanLoadBalancersV2 client DeletionTag a input w))) =
         filter isLoadBalancerCall (calls (traceOf listing))
         ++ match fst (valueOf listing) with
            | Some _ => []
            | None => flat_map (fun arn => if commit a then [DeleteLoadBalancer arn] else [])
                        (snd (valueOf listing))
            end)
  /\ (let table := lbDecisions client DeletionTag a input
                     (pagedItems (describeLoadBalancersPages client w)) w in
      filter isLoadBalancerCall
        (calls (traceOf (cleanLoadBalancersV2 client DeletionTag a input w))) =
      fst (fst table)
      ++ match pagedErr (describeLoadBalancersPages client w) with
         | Some _ => []
         | None => flat_map (fun arn => if commit a then [DeleteLoadBalancer arn] else [])
                     (snd (fst table))
         end).
Proof.
  intros HD. split; [|split; [|split; [|split; [split|]]]].
  - apply cleanNetworkInterfaces_calls.
  - now apply cleanVPCs_table.
  - intros lb l w'. split; [apply classifyLoadBalancer_value | apply classifyLoadBalancer_calls].
  - apply lb_listing_deletes_nothing.
  - apply cleanLoadBalancersV2_lb_calls.
  - apply cleanLoadBalancersV2_table.
Qed.

End Pass.

(** ** Failures are reported, not returned *)

Section Reporting.

Context {W : Type}.
Variable client : Provider W.
Variable DeletionTag : string.
Variable a : action.
Variable input : CleanupScope.

Lemma append_assoc (s1 s2 s3 : string) : (s1 ^^ s2) ^^ s3 = s1 ^^ s2 ^^ s3.
Proof. induction s1 as [|ch s1 IH]; simpl; [reflexivity|]. now rewrite IH. Qed.

Lemma endsWith_refl (e : string) : endsWith e e.
Proof. now exists "". Qed.

Lemma endsWith_append (e p s : string) : endsWith e s -> endsWith e (p ^^ s).
Proof. intros [q ->]. exists (p ^^ q). now rewrite append_assoc. Qed.

Lemma endsWith_trans (e e' s : string) : endsWith e e' -> endsWith e' s -> endsWith e s.
Proof. intros [q ->] [q' ->]. exists (q' ^^ q). now rewrite append_assoc. Qed.

Ltac ends := intros; unfold Errorf; repeat apply endsWith_append; apply endsWith_refl.

Lemma reported_app_l (e : error) (t1 t2 : Trace) : reported e t1 -> reported e (t1 ++ t2).
Proof.
  intros (lvl & msg & Hin & Hl & He). exists lvl, msg.
  split; [apply in_or_app; now left | now split].
Qed.

Lemma reported_app_r (e : error) (t1 t2 : Trace) : reported e t2 -> reported e (t1 ++ t2).
Proof.
  intros (lvl & msg & Hin & Hl & He). exists lvl, msg.
  split; [apply in_or_app; now right | now split].
Qed.

Lemma failuresReported_nil : failuresReported [].
Proof. intros c e []. Qed.

Lemma failuresReported_app (t1 t2 : Trace) :
  failuresReported t1 -> failuresReported t2 -> failuresReported (t1 ++ t2).
Proof.
  intros H1 H2 c e Hin Hc. apply in_app_or in Hin. destruct Hin as [Hin|Hin].
  - apply reported_app_l. now apply (H1 c).
  - apply reported_app_r. now apply (H2 c).
Qed.

Lemma failuresReported_log (lvl : Level) (msg : string) : failuresReported [EvLog lvl msg].
Proof. intros c e [H|[]]. discriminate. Qed.

Lemma failuresReported_optional_log (o : option error) (lvl : Level) (msg : error -> string) :
  failuresReported (match o with Some e => [EvLog lvl (msg e)] | None => [] end).
Proof. destruct o; [apply failuresReported_log | apply failuresReported_nil]. Qed.

Lemma failuresReported_listing (c : Call) (o : option error) :
  isListing c = true -> failuresReported [EvCall c o].
Proof. intros Hc c' e [[= <- _]|[]] Hc'. congruence. Qed.

(** A call followed by the line that reports its failure. *)
Lemma failuresReported_call (c : Call) (o : option error) (lvl : Level)
    (msg : error -> string) :
  (forall e, endsWith e (msg e)) ->
  lvl = LvlWarning \/ lvl = LvlError ->
  failuresReported ([EvCall c o] ++ match o with Some e => [EvLog lvl (msg e)] | None => [] end).
Proof.
  intros Hmsg Hlvl c' e [[= <- ->]|Hin] Hc.
  - exists lvl, (msg e). split; [right; now left | now split].
  - destruct o; simpl in Hin; [destruct Hin as [Hd|[]]; discriminate | destruct Hin].
Qed.

Lemma returned_weaken (r : option error) (t : Trace) :
  failuresReported t -> reportedOrReturned r t.
Proof. intros H c e Hin Hc. left. now apply (H c). Qed.

Lemma returned_app (r : option error) (t1 t2 : Trace) :
  reportedOrReturned r t1 -> reportedOrReturned r t2 -> reportedOrReturned r (t1 ++ t2).
Proof.
  intros H1 H2 c e Hin Hc. apply in_app_or in Hin. destruct Hin as [Hin|Hin].
  - destruct (H1 c e Hin Hc) as [H|H]; [left; now apply reported_app_l | now right].
  - destruct (H2 c e Hin Hc) as [H|H]; [left; now apply reported_app_r | now right].
Qed.

(** A failed call whose error is wrapped and returned. *)
Lemma returned_call (c : Call) (o : option error) (wrap : error -> error) :
  (forall e, endsWith e (wrap e)) ->
  reportedOrReturned (option_map wrap o) [EvCall c o].
Proof.
  intros Hw c' e [[= <- ->]|[]] _. right. exists (wrap e). now split.
Qed.

(** The caller logs what was returned to it. *)
Lemma failuresReported_returned (r : option error) (t : Trace) (lvl : Level)
    (msg : error -> string) :
  reportedOrReturned r t ->
  (forall e, endsWith e (msg e)) ->
  lvl = LvlWarning \/ lvl = LvlError ->
  failuresReported (t ++ match r with Some e => [EvLog lvl (msg e)] | None => [] end).
Proof.
  intros Ht Hmsg Hlvl c e Hin Hc. apply in_app_or in Hin. destruct Hin as [Hin|Hin].
  - destruct (Ht c e Hin Hc) as [H|(e' & -> & He)].
    + now apply reported_app_l.
    + apply reported_app_r. exists lvl, (msg e').
      split; [now left|]. split; [assumption|].
      apply (endsWith_trans e e'); [assumption | apply Hmsg].
  - destruct r; simpl in Hin; [destruct Hin as [Hd|[]]; discriminate | destruct Hin].
Qed.

Lemma failuresReported_ok (c : Call) : failuresReported [EvCall c None].
Proof. intros c' e [[=]|[]]. Qed.

Lemma failuresReported_failed (c : Call) (e : error) (lvl : Level) (msg : string) :
  endsWith e msg ->
  lvl = LvlWarning \/ lvl = LvlError ->
  failuresReported ([EvCall c (Some e)] ++ [EvLog lvl msg]).
Proof.
  intros Hmsg Hlvl c' e' [[= <- <-]|[[=]|[]]] Hc.
  exists lvl, msg. split; [right; now left | now split].
Qed.

Lemma failuresReported_call_then (c : Call) (o : option error) (lvl : Level)
    (msg : error -> string) (rest : Trace) :
  (forall e, endsWith e (msg e)) ->
  lvl = LvlWarning \/ lvl = LvlError ->
  failuresReported rest ->
  failuresReported
    ([EvCall c o] ++ match o with Some e => [EvLog lvl (msg e)] | None => [] end ++ rest).
Proof.
  intros Hmsg Hlvl Hrest. rewrite app_assoc.
  apply failuresReported_app; [now apply failuresReported_call | exact Hrest].
Qed.

(** Straight-line bodies: split the trace and close each piece. *)
Ltac reporting :=
  rewrite <- ?app_assoc;
  repeat first
    [ apply failuresReported_nil
    | apply failuresReported_log
    | apply failuresReported_ok
    | apply failuresReported_optional_log
    | apply failuresReported_call; [ends | auto]
    | apply failuresReported_call_then; [ends | auto | ]
    | apply failuresReported_failed; [ends | auto]
    | apply failuresReported_app ].

(** A teardown phase: list, then one round per object listed. *)
Lemma phase_reports {A} (c : Call) (read : W -> Result (list A)) (pre : string)
    (body : A -> M W unit) (w : W) :
  isListing c = false ->
  (forall x w', failuresReported (traceOf (body x w'))) ->
  let m := (resp <- query c read ;;
            match resp with
            | Err err => ret (Some (Errorf pre err))
            | Ok l => forM_ l body ;; ret None
            end) in
  reportedOrReturned (valueOf (m w)) (traceOf (m w)).
Proof.
  intros Hc Hbody m. unfold m. run.
  destruct (read w) as [l|e]; run.
  - apply returned_weaken. apply failuresReported_app; [apply failuresReported_ok|].
    apply (forM_trace failuresReported);
      [apply failuresReported_nil | apply failuresReported_app | intros; apply Hbody].
  - apply (returned_call c (Some e) (Errorf pre)). ends.
Qed.

Lemma cleanNetworkInterface_reports (ni : NetworkInterface) (w : W) :
  failuresReported (traceOf (cleanNetworkInterface client DeletionTag a input ni w)).
Proof.
  unfold cleanNetworkInterface.
  destruct (fst (scanTags DeletionTag input (TagSet ni))); [run; reporting|].
  destruct (snd (scanTags DeletionTag input (TagSet ni))); cbn [negb];
    destruct (commit a); cbn [negb]; run; reporting.
Qed.

Lemma cleanNetworkInterfaces_reports (w : W) :
  failuresReported (traceOf (cleanNetworkInterfaces client DeletionTag a input w)).
Proof.
  unfold cleanNetworkInterfaces. run. apply failuresReported_app.
  - now apply failuresReported_listing.
  - destruct (describeNetworkInterfaces client w) as [nis|e]; [|run; reporting].
    destruct (List.length nis =? 0)%nat; run; [reporting|].
    apply (forM_trace failuresReported);
      [apply failuresReported_nil | apply failuresReported_app |].
    intros ni w' _. apply cleanNetworkInterface_reports.
Qed.

Lemma cleanVPCDependencies_reports (vpcId : string) (w : W) :
  failuresReported (traceOf (cleanVPCDependencies client vpcId w)).
Proof.
  assert (Hn : forall w', reportedOrReturned (valueOf (deleteNATGateways client vpcId w'))
                 (traceOf (deleteNATGateways client vpcId w'))).
  { intros w'. apply phase_reports; [reflexivity|]. intros g w''. run. reporting. }
  assert (Hi : forall w', reportedOrReturned (valueOf (deleteInternetGateways client vpcId w'))
                 (traceOf (deleteInternetGateways client vpcId w'))).
  { intros w'. apply phase_reports; [reflexivity|]. intros g w''.
    unfold deleteInternetGateway. run. rewrite valueOf_exec.
    destruct (fst (mutate client (DetachInternetGateway (InternetGatewayId g) vpcId) w''));
      run; reporting. }
  assert (Hr : forall w', reportedOrReturned (valueOf (deleteRouteTables client vpcId w'))
                 (traceOf (deleteRouteTables client vpcId w'))).
  { intros w'. apply phase_reports; [reflexivity|]. intros rt w''.
    unfold deleteRouteTable. destruct (isMain rt); run; reporting. }
  assert (Hs : forall w', reportedOrReturned (valueOf (deleteSubnets client vpcId w'))
                 (traceOf (deleteSubnets client vpcId w'))).
  { intros w'. apply phase_reports; [reflexivity|]. intros sn w''. run. reporting. }
  unfold cleanVPCDependencies. run.
  apply failuresReported_app; [apply failuresReported_log|].
  rewrite (app_assoc (traceOf (deleteNATGateways client vpcId w))).
  apply failuresReported_app; [apply failuresReported_returned; [apply Hn | ends | auto]|].
  rewrite (app_assoc (traceOf (deleteInternetGateways client vpcId _))).
  apply failuresReported_app; [apply failuresReported_returned; [apply Hi | ends | auto]|].
  rewrite (app_assoc (traceOf (deleteRouteTables client vpcId _))).
  apply failuresReported_app; [apply failuresReported_returned; [apply Hr | ends | auto]|].
  apply failuresReported_returned; [apply Hs | ends | auto].
Qed.

Lemma deleteVPC_reports (vpcId : string) (w : W) :
  reportedOrReturned (valueOf (deleteVPC client vpcId w)) (traceOf (deleteVPC client vpcId w)).
Proof.
  unfold deleteVPC. run. rewrite valueOf_exec.
  apply returned_app; [apply returned_weaken, failuresReported_log|].
  apply returned_app; [apply returned_weaken, cleanVPCDependencies_reports|].
  apply returned_app; [apply returned_weaken, failuresReported_optional_log|].
  destruct (fst (mutate client (DeleteVpc vpcId) _)) as [e|]; run.
  - apply (returned_call _ (Some e) (Errorf ("failed to delete vpc " ^^ vpcId))). ends.
  - apply returned_weaken. reporting.
Qed.

Lemma classifyVpc_reports (vpc : Vpc) (l : list Vpc) (w : W) :
  failuresReported (traceOf (classifyVpc client DeletionTag a input vpc l w)).
Proof.
  unfold classifyVpc, markVPCForFutureDeletion.
  destruct (scanVpcTags DeletionTag input (Vpc_Tags vpc)) as [[ignore marked] cfn].
  destruct (ignore || IsDefault vpc); [run; reporting|].
  destruct cfn; [run; reporting|].
  destruct marked; cbn [negb]; [run; reporting|].
  destruct (commit a); run; reporting.
Qed.

Lemma cleanVPCs_reports (w : W) :
  failuresReported (traceOf (cleanVPCs client DeletionTag a input w)).
Proof.
  unfold cleanVPCs. rewrite traceOf_bind. apply failuresReported_app.
  - apply (eachPage_trace failuresReported (fun _ => True));
      [apply failuresReported_nil | apply failuresReported_app
      | intros; now apply failuresReported_listing | | exact I].
    intros page lastPage l w' _ _. split; [exact I|].
    unfold vpcPageFunc. rewrite traceOf_bind, traceOf_ret, app_nil_r.
    apply (foldM_trace failuresReported (fun _ => True));
      [apply failuresReported_nil | apply failuresReported_app | | exact I].
    intros v l' w'' _ _. split; [exact I | apply classifyVpc_reports].
  - destruct (fst (valueOf _)); [run; reporting|].
    destruct (List.length _ =? 0)%nat; [run; reporting|].
    rewrite traceOf_bind, traceOf_ret, app_nil_r.
    apply (forM_trace failuresReported);
      [apply failuresReported_nil | apply failuresReported_app |].
    intros v w' _. unfold deleteListedVpc. destruct (commit a); cbn [negb]; [|run; reporting].
    run. apply failuresReported_returned; [apply deleteVPC_reports | ends | auto].
Qed.

Lemma classifyLoadBalancer_reports (lb : LoadBalancer) (l : list string) (w : W) :
  failuresReported (traceOf (classifyLoadBalancer client DeletionTag a input lb l w)).
Proof.
  unfold classifyLoadBalancer, markLoadBalancerV2ForFutureDeletion. run.
  destruct (describeTags client (LoadBalancerArn lb) w) as [descs|e]; [|run; reporting].
  destruct (fst (scanTagDescriptions DeletionTag input descs)); [run; reporting|].
  destruct (snd (scanTagDescriptions DeletionTag input descs)); cbn [negb]; [run; reporting|].
  destruct (commit a); run; reporting.
Qed.

Lemma deleteLoadBalancerV2_reports (lbArn : string) (w : W) :
  reportedOrReturned (valueOf (deleteLoadBalancerV2 client lbArn w))
    (traceOf (deleteLoadBalancerV2 client lbArn w)).
Proof.
  unfold deleteLoadBalancerV2. run. rewrite valueOf_exec.
  apply returned_app; [apply returned_weaken, failuresReported_log|].
  rewrite (app_assoc [EvCall (DescribeTargetGroups lbArn) _]).
  apply returned_app;
    [apply returned_weaken, failuresReported_call; [ends | auto]|].
  destruct (fst (mutate client (DeleteLoadBalancer lbArn) w)) as [e|]; run.
  - apply (returned_call _ (Some e) (Errorf ("failed to delete elbv2 " ^^ lbArn))). ends.
  - apply returned_weaken. apply failuresReported_app; [apply failuresReported_ok|].
    apply failuresReported_call_then; [ends | auto |].
    apply (forM_trace failuresReported);
      [apply failuresReported_nil | apply failuresReported_app |].
    intros tg w' _. run. reporting.
Qed.

Lemma cleanLoadBalancersV2_reports (w : W) :
  failuresReported (traceOf (cleanLoadBalancersV2 client DeletionTag a input w)).
Proof.
  unfold cleanLoadBalancersV2. rewrite traceOf_bind. apply failuresReported_app.
  - apply (eachPage_trace failuresReported (fun _ => True));
      [apply failuresReported_nil | apply failuresReported_app
      | intros; now apply failuresReported_listing | | exact I].
    intros page lastPage l w' _ _. split; [exact I|].
    unfold lbPageFunc. rewrite traceOf_bind, traceOf_ret, app_nil_r.
    apply (foldM_trace failuresReported (fun _ => True));
      [apply failuresReported_nil | apply failuresReported_app | | exact I].
    intros lb l' w'' _ _. split; [exact I | apply classifyLoadBalancer_reports].
  - destruct (fst (valueOf _)); [run; reporting|].
    destruct (List.length _ =? 0)%nat; [run; reporting|].
    rewrite traceOf_bind, traceOf_ret, app_nil_r.
    apply (forM_trace failuresReported);
      [apply failuresReported_nil | apply failuresReported_app |].
    intros arn w' _. unfold deleteListedLoadBalancer.
    destruct (commit a); cbn [negb]; [|run; reporting].
    run. apply failuresReported_returned; [apply deleteLoadBalancerV2_reports | ends | auto].
Qed.

Lemma cleanNetworkInterfaces_value (w : W) :
  valueOf (cleanNetworkInterfaces client DeletionTag a input w) =
  match describeNetworkInterfaces client w with
  | Err e => Some (Errorf "failed to describe network interfaces" e)
  | Ok _ => None
  end.
Proof.
  unfold cleanNetworkInterfaces. rewrite valueOf_bind, valueOf_query, worldOf_query.
  destruct (describeNetworkInterfaces client w) as [nis|e]; [|reflexivity].
  now destruct (List.length nis =? 0)%nat.
Qed.

Lemma cleanVPCs_value (w : W) :
  valueOf (cleanVPCs client DeletionTag a input w) =
  option_map (Errorf "failed getting list of vpcs") (pagedErr (describeVpcsPages client w)).
Proof.
  unfold cleanVPCs. rewrite valueOf_bind, vpc_listing_value. cbn [fst snd].
  destruct (pagedErr (describeVpcsPages client w)); [reflexivity|].
  now destruct (List.length _ =? 0)%nat.
Qed.

Lemma cleanLoadBalancersV2_value (w : W) :
  valueOf (cleanLoadBalancersV2 client DeletionTag a input w) =
  option_map (Errorf "failed getting list of elbv2 load balancers")
    (pagedErr (describeLoadBalancersPages client w)).
Proof.
  unfold cleanLoadBalancersV2. rewrite valueOf_bind.
  rewrite (eachPage_err DescribeLoadBalancersPage (describeLoadBalancersPages client w)
             (lbPageFunc client DeletionTag a input)) by reflexivity.
  destruct (pagedErr (describeLoadBalancersPages client w)); [reflexivity|].
  now destruct (List.length _ =? 0)%nat.
Qed.

(** C4.  Each cleaner returns an error exactly when its listing fails,
    the listing error wrapped.  Every other failed call of the pass is
    reported by a warning or error line that ends with its error.  With
    [commit] true and a listing that did not fail, every resource on the
    worklist receives its delete call, whatever the outcomes of the
    calls before it. *)
Theorem clean_fails_only_when_listing_fails (w : W) :
  let enis := cleanNetworkInterfaces client DeletionTag a input w in
  let vpcs := cleanVPCs client DeletionTag a input w in
  let lbs := cleanLoadBalancersV2 client DeletionTag a input w in
  let listing := eachPage DescribeLoadBalancersPage (describeLoadBalancersPages client w)
                   (lbPageFunc client DeletionTag a input) [] w in
  valueOf enis =
    match describeNetworkInterfaces client w with
    | Err e => Some (Errorf "failed to describe network interfaces" e)
    | Ok _ => None
    end
  /\ valueOf vpcs =
       option_map (Errorf "failed getting list of vpcs") (pagedErr (describeVpcsPages client w))
  /\ valueOf lbs =
       option_map (Errorf "failed getting list of elbv2 load balancers")
         (pagedErr (describeLoadBalancersPages client w))
  /\ failuresReported (traceOf enis)
  /\ failuresReported (traceOf vpcs)
  /\ failuresReported (traceOf lbs)
  /\ (commit a = true ->
      forall nis ni, describeNetworkInterfaces client w = Ok nis -> In ni nis ->
        classify (IgnoreTag input) DeletionTag (TagSet ni) = Marked ->
        In (DeleteNetworkInterface (NetworkInterfaceId ni)) (calls (traceOf enis)))
  /\ (commit a = true ->
      pagedErr (describeVpcsPages client w) = None ->
      forall v, In v (pagedItems (describeVpcsPages client w)) ->
        listsVpc DeletionTag input v = true ->
        In (DeleteVpc (VpcId v)) (calls (traceOf vpcs)))
  /\ (commit a = true ->
      fst (valueOf listing) = None ->
      forall arn, In arn (snd (valueOf listing)) ->
        In (DeleteLoadBalancer arn) (calls (traceOf lbs))).
Proof.
  cbv zeta.
  split; [apply cleanNetworkInterfaces_value|].
  split; [apply cleanVPCs_value|].
  split; [apply cleanLoadBalancersV2_value|].
  split; [apply cleanNetworkInterfaces_reports|].
  split; [apply cleanVPCs_reports|].
  split; [apply cleanLoadBalancersV2_reports|].
  split; [|split].
  - intros Hc nis ni Hd Hin Hcl. rewrite cleanNetworkInterfaces_calls, Hd.
    right. apply in_flat_map. exists ni. split; [exact Hin|].
    unfold niDecision, decisionTable. rewrite Hcl, Hc. now left.
  - intros Hc He v Hin Hl.
    apply (proj1 (filter_In isVpcCall _ _)).
    rewrite cleanVPCs_vpc_calls. cbv zeta. rewrite He. apply in_or_app. right.
    apply in_flat_map. exists v. split; [apply filter_In; now split|].
    rewrite Hc. now left.
  - intros Hc He arn Hin.
    apply (proj1 (filter_In isLoadBalancerCall _ _)).
    rewrite cleanLoadBalancersV2_lb_calls. cbv zeta. rewrite He. apply in_or_app. right.
    apply in_flat_map. exists arn. split; [exact Hin|]. rewrite Hc. now left.
Qed.

End Reporting.

(** ** Context fetches and pagination *)

Section Listing.

Context {W : Type}.
Variable client : Provider W.
Variable DeletionTag : string.
Variable a : action.
Variable input : CleanupScope.

(** C7.  A load balancer whose tags cannot be fetched: the failure is
    logged as an error, the worklist and the provider's state are as
    before, no further call is issued for it, and the loop goes on with
    the remaining load balancers.  A load balancer whose target groups
    cannot be listed: the failure is logged as a warning, the load
    balancer itself is still deleted, no [DeleteTargetGroup] call is
    issued, and the loop goes on with the remaining worklist.  Neither
    failure is returned by the cleaner. *)
Theorem context_fetch_failure_is_skipped (w : W) :
  (forall lb rest l w' e,
     describeTags client (LoadBalancerArn lb) w' = Err e ->
     let one := classifyLoadBalancer client DeletionTag a input lb l w' in
     let others := foldM rest (classifyLoadBalancer client DeletionTag a input) l w' in
     valueOf one = l
     /\ worldOf one = w'
     /\ traceOf one =
          [EvCall (DescribeTags (LoadBalancerArn lb)) (Some e);
           EvLog LvlError ("failed getting tags for elbv2 " ^^ LoadBalancerName lb ^^ ": " ^^ e)]
     /\ foldM (lb :: rest) (classifyLoadBalancer client DeletionTag a input) l w' =
          (valueOf others, worldOf others, traceOf one ++ traceOf others))
  /\ (forall arn rest w' e,
        describeTargetGroups client arn w' = Err e ->
        let one := deleteLoadBalancerV2 client arn w' in
        let listed := deleteListedLoadBalancer client a arn w' in
        In (EvLog LvlWarning ("failed to list target groups for lb " ^^ arn ^^ ": " ^^ e))
           (traceOf one)
        /\ calls (traceOf one) =
             DescribeTargetGroups arn :: DeleteLoadBalancer arn ::
             match fst (mutate client (DeleteLoadBalancer arn) w') with
             | Some _ => []
             | None => [WaitUntilLoadBalancersDeleted arn]
             end
        /\ traceOf (forM_ (arn :: rest) (deleteListedLoadBalancer client a) w') =
             traceOf listed
             ++ traceOf (forM_ rest (deleteListedLoadBalancer client a) (worldOf listed)))
  /\ valueOf (cleanLoadBalancersV2 client DeletionTag a input w) =
       option_map (Errorf "failed getting list of elbv2 load balancers")
         (pagedErr (describeLoadBalancersPages client w)).
Proof.
  split; [|split].
  - intros lb rest l w' e Hd one others.
    assert (H1 : valueOf one = l /\ worldOf one = w'
                 /\ traceOf one =
                    [EvCall (DescribeTags (LoadBalancerArn lb)) (Some e);
                     EvLog LvlError ("failed getting tags for elbv2 "
                                     ^^ LoadBalancerName lb ^^ ": " ^^ e)]).
    { unfold one, classifyLoadBalancer.
      rewrite valueOf_bind, worldOf_bind, traceOf_bind, valueOf_query, worldOf_query,
        traceOf_query, Hd.
      repeat split. }
    destruct H1 as (Hv & Hw & Ht). repeat split; try assumption.
    unfold others. simpl foldM. unfold bind. fold one. now rewrite Hv, Hw.
  - intros arn rest w' e Hd one listed. repeat split.
    + unfold one, deleteLoadBalancerV2. run. rewrite Hd. simpl. tauto.
    + unfold one. rewrite deleteLoadBalancerV2_calls, Hd.
      now destruct (fst (mutate client (DeleteLoadBalancer arn) w')).
  - apply cleanLoadBalancersV2_value.
Qed.

Lemma before_without (p q : Event -> bool) (t : Trace) :
  existsb q t = false -> before p q t = false.
Proof.
  induction t as [|ev t IH]; simpl; [reflexivity|].
  intros H. apply orb_false_elim in H. destruct H as [_ Ht].
  now rewrite Ht, andb_false_r, IH.
Qed.

Lemma before_app (p q : Event -> bool) (t1 t2 : Trace) :
  existsb p t1 = false -> existsb q t2 = false -> before p q (t1 ++ t2) = false.
Proof.
  intros H1 H2. induction t1 as [|ev t1 IH]; simpl.
  - now apply before_without.
  - simpl in H1. apply orb_false_elim in H1. destruct H1 as [Hev Ht1].
    now rewrite Hev, IH.
Qed.

Lemma existsb_isListingEvent (t : Trace) :
  existsb isListingEvent t = existsb isListing (calls t).
Proof.
  induction t as [|[c o|lvl msg] t IH]; simpl; [reflexivity| |assumption]. now rewrite IH.
Qed.

Let quiet (t : Trace) : Prop := existsb deleteOrNothing t = false.

Lemma quiet_app (t1 t2 : Trace) : quiet t1 -> quiet t2 -> quiet (t1 ++ t2).
Proof. unfold quiet. intros H1 H2. now rewrite existsb_app, H1, H2. Qed.

Lemma vpc_listing_quiet (p : Paged Vpc) (l : list Vpc) (w : W) :
  quiet (traceOf (eachPage DescribeVpcsPage p (vpcPageFunc client DeletionTag a input) l w)).
Proof.
  apply (eachPage_trace quiet (fun _ => True)); [reflexivity | apply quiet_app | reflexivity | | exact I].
  intros page lastPage l' w' _ _. split; [exact I|].
  unfold vpcPageFunc. rewrite traceOf_bind, traceOf_ret, app_nil_r.
  apply (foldM_trace quiet (fun _ => True)); [reflexivity | apply quiet_app | | exact I].
  intros v l'' w'' _ _. split; [exact I|].
  unfold classifyVpc, markVPCForFutureDeletion.
  destruct (scanVpcTags DeletionTag input (Vpc_Tags v)) as [[ignore marked] cfn].
  destruct (ignore || IsDefault v); [reflexivity|].
  destruct cfn; [reflexivity|].
  destruct marked; cbn [negb]; [reflexivity|].
  destruct (commit a); [|reflexivity].
  run. destruct (valueOf (exec client _ _)); reflexivity.
Qed.

Lemma lb_listing_quiet (p : Paged LoadBalancer) (l : list string) (w : W) :
  quiet (traceOf (eachPage DescribeLoadBalancersPage p
                    (lbPageFunc client DeletionTag a input) l w)).
Proof.
  apply (eachPage_trace quiet (fun _ => True)); [reflexivity | apply quiet_app | reflexivity | | exact I].
  intros page lastPage l' w' _ _. split; [exact I|].
  unfold lbPageFunc. rewrite traceOf_bind, traceOf_ret, app_nil_r.
  apply (foldM_trace quiet (fun _ => True)); [reflexivity | apply quiet_app | | exact I].
  intros lb l'' w'' _ _. split; [exact I|].
  unfold classifyLoadBalancer, markLoadBalancerV2ForFutureDeletion. run.
  destruct (describeTags client (LoadBalancerArn lb) w'') as [descs|e]; [|reflexivity].
  destruct (fst (scanTagDescriptions DeletionTag input descs)); [reflexivity|].
  destruct (snd (scanTagDescriptions DeletionTag input descs)); cbn [negb]; [reflexivity|].
  destruct (commit a); [|reflexivity].
  run. destruct (valueOf (exec client _ _)); reflexivity.
Qed.

Lemma deleteVPC_lists_nothing (vpcId : string) (w : W) :
  avoids isListing (traceOf (deleteVPC client vpcId w)).
Proof.
  unfold avoids. rewrite deleteVPC_calls, (proj1 (cleanVPCDependencies_calls client vpcId w)).
  cbv zeta. rewrite !existsb_app.
  rewrite (phase_avoids natPhase isListing (calls (traceOf (deleteNATGateways _ _ _))));
    [|now intros [] | apply deleteNATGateways_phase].
  rewrite (phase_avoids igwPhase isListing (calls (traceOf (deleteInternetGateways _ _ _))));
    [|now intros [] | apply deleteInternetGateways_phase].
  rewrite (phase_avoids routeTablePhase isListing (calls (traceOf (deleteRouteTables _ _ _))));
    [|now intros [] | apply deleteRouteTables_phase].
  rewrite (phase_avoids subnetPhase isListing (calls (traceOf (deleteSubnets _ _ _))));
    [|now intros [] | apply deleteSubnets_phase].
  reflexivity.
Qed.

Lemma worklist_lists_nothing {A} (l : list A) (body : A -> M W unit) (w : W)
    (line : string) :
  (forall x w', avoids isListing (traceOf (body x w'))) ->
  existsb isListingEvent
    (traceOf ((if (List.length l =? 0)%nat then Log line ;; ret None
               else forM_ l body ;; @ret W (option error) None) w)) = false.
Proof.
  intros Hbody. rewrite existsb_isListingEvent.
  destruct (List.length l =? 0)%nat; [reflexivity|].
  rewrite traceOf_bind, traceOf_ret, app_nil_r.
  apply (forM_trace (avoids isListing)); [apply avoids_nil | apply avoids_app |].
  intros x w' _. apply Hbody.
Qed.

Lemma eachPage_requests {A S} (c : Call) (p : Paged A)
    (fn : list A -> bool -> S -> M W (bool * S)) :
  isListing c = true ->
  (forall page lastPage s w,
     avoids isListing (traceOf (fn page lastPage s w))
     /\ fst (valueOf (fn page lastPage s w)) = true) ->
  forall s w,
    List.length (filter isListing (calls (traceOf (eachPage c p fn s w)))) = requests p.
Proof.
  intros Hc Hfn.
  induction p as [items|items rest IH|e]; intros s w; simpl eachPage.
  - rewrite !traceOf_bind, worldOf_emit, traceOf_emit, traceOf_ret, app_nil_r.
    cbn [app calls filter]. rewrite Hc. cbn [List.length]. f_equal.
    now rewrite (filter_none _ _ (proj1 (Hfn _ _ _ _))).
  - rewrite !traceOf_bind, worldOf_emit, traceOf_emit.
    cbn [app calls filter]. rewrite Hc. cbn [List.length requests]. f_equal.
    rewrite calls_app, filter_app, (filter_none _ _ (proj1 (Hfn _ _ _ _))).
    rewrite (proj2 (Hfn _ _ _ _)). apply IH.
  - rewrite traceOf_bind, traceOf_emit, traceOf_ret.
    cbn [app calls filter]. now rewrite Hc.
Qed.

(** The callbacks never stop a listing, and the worklist phase lists
    nothing: a pass issues one listing request per page. *)
Lemma cleanVPCs_requests (w : W) :
  List.length (filter isListing (calls (traceOf (cleanVPCs client DeletionTag a input w)))) =
  requests (describeVpcsPages client w).
Proof.
  unfold cleanVPCs. rewrite traceOf_bind, calls_app, filter_app, length_app.
  rewrite (eachPage_requests DescribeVpcsPage _ _ eq_refl).
  2:{ intros page lastPage s w'. split; [|reflexivity].
      unfold vpcPageFunc. rewrite traceOf_bind, traceOf_ret, app_nil_r.
      apply (foldM_trace (avoids isListing) (fun _ => True));
        [apply avoids_nil | apply avoids_app | | exact I].
      intros v l w'' _ _. split; [exact I|].
      unfold avoids. rewrite classifyVpc_calls. now destruct (marksVpc _ _ _ _). }
  rewrite filter_none; [cbn [List.length]; lia|].
  destruct (fst (valueOf _)); [reflexivity|].
  rewrite <- existsb_isListingEvent.
  apply worklist_lists_nothing. intros v w'. unfold deleteListedVpc.
  destruct (commit a); cbn [negb]; [|reflexivity].
  rewrite traceOf_bind. apply avoids_app; [apply deleteVPC_lists_nothing|].
  unfold avoids. now run.
Qed.

Lemma cleanLoadBalancersV2_requests (w : W) :
  List.length (filter isListing
                 (calls (traceOf (cleanLoadBalancersV2 client DeletionTag a input w)))) =
  requests (describeLoadBalancersPages client w).
Proof.
  unfold cleanLoadBalancersV2. rewrite traceOf_bind, calls_app, filter_app, length_app.
  rewrite (eachPage_requests DescribeLoadBalancersPage _ _ eq_refl).
  2:{ intros page lastPage s w'. split; [|reflexivity].
      unfold lbPageFunc. rewrite traceOf_bind, traceOf_ret, app_nil_r.
      apply (foldM_trace (avoids isListing) (fun _ => True));
        [apply avoids_nil | apply avoids_app | | exact I].
      intros lb l w'' _ _. split; [exact I|].
      unfold avoids. rewrite classifyLoadBalancer_calls.
      cbn [existsb isListing orb].
      destruct (describeTags client (LoadBalancerArn lb) w''); [|reflexivity].
      now destruct (classify _ _ _), (commit a). }
  rewrite filter_none; [cbn [List.length]; lia|].
  destruct (fst (valueOf _)); [reflexivity|].
  rewrite <- existsb_isListingEvent.
  apply worklist_lists_nothing. intros arn w'. unfold deleteListedLoadBalancer.
  destruct (commit a); cbn [negb]; [|reflexivity].
  unfold avoids. run. rewrite deleteLoadBalancerV2_calls, ?app_nil_r.
  cbn [existsb isListing orb].
  destruct (fst (mutate client (DeleteLoadBalancer arn) w')); [reflexivity|].
  cbn [existsb isListing orb]. now apply existsb_map_const.
Qed.

(** The worklist of load balancers is that of the table run over the
    load balancers of all pages. *)
Lemma lb_listing_value (w : W) :
  snd (valueOf (eachPage DescribeLoadBalancersPage (describeLoadBalancersPages client w)
                  (lbPageFunc client DeletionTag a input) [] w)) =
  snd (fst (lbDecisions client DeletionTag a input
              (pagedItems (describeLoadBalancersPages client w)) w)).
Proof. unfold lbDecisions. now rewrite lbDecide_pages. Qed.

(** C8, as amended.  In each of the three cleaners no delete call and
    no line announcing an empty worklist comes before a listing request:
    the listing is over when the first of them is issued.  The network
    interfaces are listed by one call, the first event of the pass.  The
    worklist of networks is made of the networks of all pages, whatever
    the page boundaries.  All pages are requested: a pass of the network
    cleaner and a pass of the load-balancer cleaner issue one listing
    request per page the provider has, the failed one included, so that
    with the first conjuncts every page has been requested when the
    first delete call or empty-worklist line is issued.  The worklist of
    load balancers is made of the marked load balancers of all pages,
    whatever the page boundaries. *)
Theorem listing_is_drained_before_deleting (w : W) :
  before deleteOrNothing isListingEvent
    (traceOf (cleanNetworkInterfaces client DeletionTag a input w)) = false
  /\ before deleteOrNothing isListingEvent
       (traceOf (cleanVPCs client DeletionTag a input w)) = false
  /\ before deleteOrNothing isListingEvent
       (traceOf (cleanLoadBalancersV2 client DeletionTag a input w)) = false
  /\ (exists rest,
        traceOf (cleanNetworkInterfaces client DeletionTag a input w) =
          EvCall DescribeNetworkInterfaces (resultErr (describeNetworkInterfaces client w))
          :: rest
        /\ existsb isListingEvent rest = false)
  /\ snd (valueOf (eachPage DescribeVpcsPage (describeVpcsPages client w)
                     (vpcPageFunc client DeletionTag a input) [] w)) =
     filter (listsVpc DeletionTag input) (pagedItems (describeVpcsPages client w))
  /\ List.length (filter isListing
                    (calls (traceOf (cleanVPCs client DeletionTag a input w)))) =
     requests (describeVpcsPages client w)
  /\ List.length (filter isListing
                    (calls (traceOf (cleanLoadBalancersV2 client DeletionTag a input w)))) =
     requests (describeLoadBalancersPages client w)
  /\ snd (valueOf (eachPage DescribeLoadBalancersPage (describeLoadBalancersPages client w)
                     (lbPageFunc client DeletionTag a input) [] w)) =
     snd (fst (lbDecisions client DeletionTag a input
                 (pagedItems (describeLoadBalancersPages client w)) w)).
Proof.
  assert (Heni : exists rest,
            traceOf (cleanNetworkInterfaces client DeletionTag a input w) =
              EvCall DescribeNetworkInterfaces (resultErr (describeNetworkInterfaces client w))
              :: rest
            /\ existsb isListingEvent rest = false).
  { eexists. split; [unfold cleanNetworkInterfaces; run; reflexivity|].
    rewrite existsb_isListingEvent.
    destruct (describeNetworkInterfaces client w) as [nis|e]; [|reflexivity].
    destruct (List.length nis =? 0)%nat; [reflexivity|].
    rewrite traceOf_bind, traceOf_ret, app_nil_r.
    apply (forM_trace (avoids isListing)); [apply avoids_nil | apply avoids_app |].
    intros ni w' _. unfold avoids. rewrite cleanNetworkInterface_calls.
    unfold niDecision, decisionTable.
    now destruct (classify _ _ _), (commit a). }
  split; [|split; [|split; [|split; [|split; [|split; [|split]]]]]].
  - destruct Heni as (rest & -> & Hrest). simpl. now apply before_without.
  - unfold cleanVPCs. rewrite traceOf_bind. apply before_app; [apply vpc_listing_quiet|].
    destruct (fst (valueOf _)); [reflexivity|].
    apply worklist_lists_nothing. intros v w'. unfold deleteListedVpc.
    destruct (commit a); cbn [negb]; [|reflexivity].
    rewrite traceOf_bind. apply avoids_app; [apply deleteVPC_lists_nothing|].
    unfold avoids. now run.
  - unfold cleanLoadBalancersV2. rewrite traceOf_bind. apply before_app; [apply lb_listing_quiet|].
    destruct (fst (valueOf _)); [reflexivity|].
    apply worklist_lists_nothing. intros arn w'. unfold deleteListedLoadBalancer.
    destruct (commit a); cbn [negb]; [|reflexivity].
    unfold avoids. run. rewrite deleteLoadBalancerV2_calls, ?app_nil_r.
    cbn [existsb isListing orb].
    destruct (fst (mutate client (DeleteLoadBalancer arn) w')); [reflexivity|].
    cbn [existsb isListing orb]. now apply existsb_map_const.
  - exact Heni.
  - now rewrite vpc_listing_value.
  - apply cleanVPCs_requests.
  - apply cleanLoadBalancersV2_requests.
  - apply lb_listing_value.
Qed.

End Listing.

(** ** The pass on scripted providers *)

Lemma ignore_tag_protects_listed_resources_witness :
  avoids (concernsNetworkInterface "eni-1")
    (traceOf (cleanNetworkInterfaces (scripted protectedScript) sampleDeletionTag
                committing keep []))
  /\ avoids (concernsVpc "vpc-1")
       (traceOf (cleanVPCs (scripted protectedScript) sampleDeletionTag committing keep []))
  /\ avoids (concernsLoadBalancer "lb-1")
       (traceOf (cleanLoadBalancersV2 (scripted protectedScript) sampleDeletionTag
                   committing keep [])).
Proof.
  apply (ignore_tag_protects_listed_resources (scripted protectedScript) sampleDeletionTag
           committing keep [] "eni-1" "vpc-1" "lb-1").
  - intros nis ni [= <-] [<-|[]] _. reflexivity.
  - intros v [<-|[]] _. reflexivity.
  - intros w' descs [= <-]. reflexivity.
Defined.

(** C1 as stated fails for dependents.  A subnet carrying the ignore
    key, in a network marked for deletion, is deleted: the teardown does
    not read the tags of what it deletes. *)
Lemma ignore_tagged_subnet_is_deleted :
  let r := cleanVPCs (scripted keptSubnetScript) sampleDeletionTag committing keep [] in
  describeSubnets (scripted keptSubnetScript) "vpc-1" [] = Ok [keptSubnet]
  /\ hasKey (IgnoreTag keep) (Subnet_Tags keptSubnet) = true
  /\ calls (traceOf r) =
       [DescribeVpcsPage; DescribeNatGateways "vpc-1"; DescribeInternetGateways "vpc-1";
        DescribeRouteTables "vpc-1"; DescribeSubnets "vpc-1";
        DeleteSubnet "subnet-1"; DeleteVpc "vpc-1"]
  /\ worldOf r = [DeleteSubnet "subnet-1"; DeleteVpc "vpc-1"]
  /\ ~ avoids (deletesSubnet (SubnetId keptSubnet)) (traceOf r).
Proof.
  cbv zeta. repeat split; try (vm_compute; reflexivity).
  unfold avoids. vm_compute. discriminate.
Qed.

(** The scenario of the specification: three network interfaces, the
    first kept, the second tagged, the third deleted. *)
Lemma decision_table_of_a_pass_witness :
  calls (traceOf (cleanNetworkInterfaces (scripted scenarioScript) sampleDeletionTag
                    committing keep [])) =
  [DescribeNetworkInterfaces;
   CreateTags "eni-b" sampleDeletionTag "true";
   DeleteNetworkInterface "eni-c"].
Proof.
  rewrite (proj1 (decision_table_of_a_pass (scripted scenarioScript) sampleDeletionTag
                    committing keep [] eq_refl)).
  reflexivity.
Defined.

(** C2 as stated fails for the excluded networks.  The default network,
    listed without the ignore key and without the deletion key, receives
    no add-tag call in a committing pass. *)
Lemma untagged_default_vpc_is_not_marked :
  let t := traceOf (cleanVPCs (scripted excludedScript) sampleDeletionTag committing keep []) in
  In defaultVpc (pagedItems (describeVpcsPages (scripted excludedScript) []))
  /\ classify (IgnoreTag keep) sampleDeletionTag (Vpc_Tags defaultVpc) = Unmarked
  /\ commit committing = true
  /\ filter (fun c => isAddTag c && concernsVpc (VpcId defaultVpc) c) (calls t) = []
  /\ List.length (filter (fun c => isAddTag c && concernsVpc (VpcId defaultVpc) c) (calls t))
     <> 1%nat.
Proof.
  cbv zeta. split; [now left|]. repeat split; try (vm_compute; reflexivity).
  vm_compute. discriminate.
Qed.

Lemma excluded_resources_are_never_touched_witness :
  avoids (concernsVpc "vpc-default")
    (traceOf (cleanVPCs (scripted excludedScript) sampleDeletionTag committing keep []))
  /\ avoids (deletesRouteTable "rtb-main")
       (traceOf (cleanVPCs (scripted excludedScript) sampleDeletionTag committing keep []))
  /\ calls (traceOf (cleanVPCs (scripted excludedScript) sampleDeletionTag committing keep [])) =
       [DescribeVpcsPage; DescribeNatGateways "vpc-1"; DescribeInternetGateways "vpc-1";
        DescribeRouteTables "vpc-1"; DeleteRouteTable "rtb-1"; DescribeSubnets "vpc-1";
        DeleteVpc "vpc-1"].
Proof.
  destruct (excluded_resources_are_never_touched (scripted excludedScript) sampleDeletionTag
              committing keep [] "vpc-default" "rtb-main") as (H1 & H2 & _).
  - reflexivity.
  - intros v [<-|[<-|[]]] E; [reflexivity | discriminate E].
  - intros v w' rts rt [= <-] [<-|[<-|[]]] E; [reflexivity | discriminate E].
  - split; [exact H1|]. split; [exact H2|]. vm_compute. reflexivity.
Defined.

(** Partial failure isolation: the deletion of the first of three
    marked networks fails; the other two are still attempted, the
    failure is reported, and the cleaner returns nil. *)
Lemma clean_fails_only_when_listing_fails_witness :
  let r := cleanVPCs (scripted stuckVpcScript) sampleDeletionTag committing keep [] in
  valueOf r = None
  /\ failuresReported (traceOf r)
  /\ In (EvCall (DeleteVpc "vpc-a") (Some "DependencyViolation")) (traceOf r)
  /\ In (DeleteVpc "vpc-b") (calls (traceOf r))
  /\ In (DeleteVpc "vpc-c") (calls (traceOf r)).
Proof.
  destruct (clean_fails_only_when_listing_fails (scripted stuckVpcScript) sampleDeletionTag
              committing keep []) as (_ & Hv & _ & _ & Hr & _ & _ & Hd & _).
  cbv zeta. split; [exact Hv|]. split; [exact Hr|].
  split; [vm_compute; tauto|].
  split; [apply (Hd eq_refl eq_refl (markedVpc "vpc-b")) | apply (Hd eq_refl eq_refl (markedVpc "vpc-c"))];
    solve [simpl; tauto | reflexivity].
Defined.

(** The tags of lb-1 cannot be fetched: it is passed over and the two
    others are classified.  The target groups of lb-2 cannot be listed:
    it is deleted without them and lb-3 is deleted with its own. *)
Lemma context_fetch_failure_is_skipped_witness :
  let p := scripted flakyScript in
  let lb1 := {| LoadBalancerArn := "lb-1"; LoadBalancerName := "one" |} in
  traceOf (classifyLoadBalancer p sampleDeletionTag committing keep lb1 [] []) =
    [EvCall (DescribeTags "lb-1") (Some "Throttling");
     EvLog LvlError "failed getting tags for elbv2 one: Throttling"]
  /\ calls (traceOf (deleteLoadBalancerV2 p "lb-2" [])) =
     [DescribeTargetGroups "lb-2"; DeleteLoadBalancer "lb-2";
      WaitUntilLoadBalancersDeleted "lb-2"]
  /\ valueOf (cleanLoadBalancersV2 p sampleDeletionTag committing keep []) = None
  /\ calls (traceOf (cleanLoadBalancersV2 p sampleDeletionTag committing keep [])) =
     [DescribeLoadBalancersPage; DescribeTags "lb-1"; DescribeTags "lb-2"; DescribeTags "lb-3";
      DescribeTargetGroups "lb-2"; DeleteLoadBalancer "lb-2";
      WaitUntilLoadBalancersDeleted "lb-2";
      DescribeTargetGroups "lb-3"; DeleteLoadBalancer "lb-3";
      WaitUntilLoadBalancersDeleted "lb-3"; DeleteTargetGroup "tg-3"].
Proof.
  intros p lb1.
  destruct (context_fetch_failure_is_skipped p sampleDeletionTag committing keep [])
    as (Htags & Htgs & Hval).
  destruct (Htags lb1 [] [] [] "Throttling" eq_refl) as (_ & _ & Ht & _).
  destruct (Htgs "lb-2" [] [] "AccessDenied" eq_refl) as (_ & Hc & _).
  split; [exact Ht|]. split; [exact Hc|]. split; [exact Hval|].
  vm_compute. reflexivity.
Defined.

(** C8 as stated fails for the paginated cleaners.  The network of the
    first page is classified and tagged when its page arrives: the
    add-tag call precedes the request of the second page. *)
Lemma first_page_is_marked_before_second_is_requested :
  let t := traceOf (cleanVPCs (scripted twoPageScript) sampleDeletionTag committing keep []) in
  calls t =
    [DescribeVpcsPage; CreateTags "vpc-1" sampleDeletionTag "true"; DescribeVpcsPage;
     DescribeNatGateways "vpc-2"; DescribeInternetGateways "vpc-2";
     DescribeRouteTables "vpc-2"; DescribeSubnets "vpc-2"; DeleteVpc "vpc-2"]
  /\ before isAddTagEvent isListingEvent t = true.
Proof. cbv zeta. split; vm_compute; reflexivity. Qed.

(** The table on two pages of load balancers: the untagged one of the
    first page is tagged, the marked one of the second page is put on
    the worklist and deleted, and both pages are requested. *)
Lemma load_balancers_of_both_pages_are_decided :
  let client := scripted twoPageBalancers in
  let table := lbDecisions client sampleDeletionTag committing keep
                 (pagedItems (describeLoadBalancersPages client [])) [] in
  fst (fst table) = [AddTags "lb-1" sampleDeletionTag "true"]
  /\ snd (fst table) = ["lb-2"]
  /\ calls (traceOf (cleanLoadBalancersV2 client sampleDeletionTag committing keep [])) =
       [DescribeLoadBalancersPage; DescribeTags "lb-1";
        AddTags "lb-1" sampleDeletionTag "true";
        DescribeLoadBalancersPage; DescribeTags "lb-2";
        DescribeTargetGroups "lb-2"; DeleteLoadBalancer "lb-2";
        WaitUntilLoadBalancersDeleted "lb-2"].
Proof. cbv zeta. repeat split; vm_compute; reflexivity. Qed.

(** ** Outcomes of the deletions *)

Section Outcomes.

Context {W : Type}.
Variable client : Provider W.


(** X2.  [deleteLoadBalancerV2] lists the target groups before it
    deletes the load balancer and returns an error exactly when
    [DeleteLoadBalancer] fails, that error wrapped.  After a failed
    [DeleteLoadBalancer] nothing more is called.  After a successful one
    it waits and then deletes every target group listed at the start,
    whether or not the wait succeeded; a failed wait and a failed
    target-group deletion are not returned. *)
Theorem deleteLoadBalancerV2_outcome (lbArn : string) (w : W) :
  let o := fst (mutate client (DeleteLoadBalancer lbArn) w) in
  valueOf (deleteLoadBalancerV2 client lbArn w) =
    option_map (Errorf ("failed to delete elbv2 " ^^ lbArn)) o
  /\ calls (traceOf (deleteLoadBalancerV2 client lbArn w)) =
       DescribeTargetGroups lbArn :: DeleteLoadBalancer lbArn ::
       match o with
       | Some _ => []
       | None =>
           WaitUntilLoadBalancersDeleted lbArn ::
           map (fun tg => DeleteTargetGroup (TargetGroupArn tg))
               (targetGroupsOf (describeTargetGroups client lbArn w))
       end.
Proof.
  intros o. split; [|apply deleteLoadBalancerV2_calls].
  unfold deleteLoadBalancerV2. run. rewrite valueOf_exec. fold o.
  now destruct o.
Qed.

End Outcomes.

(** ** What the cleaners write and what they touch *)

Section Confinement.

Context {W : Type}.
Variable client : Provider W.
Variable DeletionTag : string.
Variable a : action.
Variable input : CleanupScope.

Lemma confined_nil (q : Call -> bool) : confined q [].
Proof. reflexivity. Qed.

Lemma confined_app (q : Call -> bool) (t1 t2 : Trace) :
  confined q t1 -> confined q t2 -> confined q (t1 ++ t2).
Proof. unfold confined. intros H1 H2. now rewrite calls_app, forallb_app, H1, H2. Qed.

Lemma forallb_weaken (p q : Call -> bool) (cs : list Call) :
  (forall c, p c = true -> q c = true) -> forallb p cs = true -> forallb q cs = true.
Proof.
  intros Hpq. induction cs as [|c cs IH]; simpl; [reflexivity|].
  intros H. apply andb_prop in H. destruct H as [Hc Hcs]. now rewrite (Hpq c Hc), IH.
Qed.

(** The calls of a network deletion are teardown calls followed by
    [DeleteVpc]. *)
Lemma deleteVPC_confined (q : Call -> bool) (vpcId : string) (w : W) :
  (forall c, isTeardownCall c = true -> q c = true) ->
  q (DeleteVpc vpcId) = true ->
  confined q (traceOf (deleteVPC client vpcId w)).
Proof.
  intros Hq Hv. unfold confined.
  rewrite deleteVPC_calls, (proj1 (cleanVPCDependencies_calls client vpcId w)). cbv zeta.
  rewrite !forallb_app. cbn [forallb]. rewrite Hv.
  assert (Hn : forall c, natPhase c = true -> q c = true)
    by (intros c H; apply Hq; unfold isTeardownCall; now rewrite H).
  assert (Hi : forall c, igwPhase c = true -> q c = true)
    by (intros c H; apply Hq; unfold isTeardownCall; rewrite H; now rewrite ?orb_true_r).
  assert (Hr : forall c, routeTablePhase c = true -> q c = true)
    by (intros c H; apply Hq; unfold isTeardownCall; rewrite H; now rewrite ?orb_true_r).
  assert (Hs : forall c, subnetPhase c = true -> q c = true)
    by (intros c H; apply Hq; unfold isTeardownCall; rewrite H; now rewrite ?orb_true_r).
  rewrite (forallb_weaken natPhase q _ Hn (deleteNATGateways_phase client vpcId w)).
  rewrite (forallb_weaken igwPhase q _ Hi (deleteInternetGateways_phase client vpcId _)).
  rewrite (forallb_weaken routeTablePhase q _ Hr (deleteRouteTables_phase client vpcId _)).
  rewrite (forallb_weaken subnetPhase q _ Hs (deleteSubnets_phase client vpcId _)).
  reflexivity.
Qed.

Lemma deleteLoadBalancerV2_confined (q : Call -> bool) (lbArn : string) (w : W) :
  q (DescribeTargetGroups lbArn) = true ->
  q (DeleteLoadBalancer lbArn) = true ->
  q (WaitUntilLoadBalancersDeleted lbArn) = true ->
  (forall tg, q (DeleteTargetGroup tg) = true) ->
  confined q (traceOf (deleteLoadBalancerV2 client lbArn w)).
Proof.
  intros H1 H2 H3 H4. unfold confined. rewrite deleteLoadBalancerV2_calls.
  cbn [forallb]. rewrite H1, H2.
  destruct (fst (mutate client (DeleteLoadBalancer lbArn) w)); [reflexivity|].
  cbn [forallb]. rewrite H3. now apply forallb_map_const.
Qed.

(** A pass is confined to [q] when its listing requests, the calls of
    its classification rounds and the calls of its deletions are. *)
Lemma cleanVPCs_confined (q : Call -> bool) (w : W) :
  q DescribeVpcsPage = true ->
  (forall v, In v (pagedItems (describeVpcsPages client w)) ->
     marksVpc DeletionTag a input v = true ->
     q (CreateTags (VpcId v) DeletionTag "true") = true) ->
  (forall c, isTeardownCall c = true -> q c = true) ->
  (forall v, In v (pagedItems (describeVpcsPages client w)) ->
     listsVpc DeletionTag input v = true -> commit a = true ->
     q (DeleteVpc (VpcId v)) = true) ->
  confined q (traceOf (cleanVPCs client DeletionTag a input w)).
Proof.
  intros Hpage Hmark Hdeps Hdel. unfold cleanVPCs. rewrite traceOf_bind. apply confined_app.
  - apply (eachPage_trace (confined q) (fun _ => True));
      [apply confined_nil | apply confined_app | | | exact I].
    + intros e. unfold confined. simpl. now rewrite Hpage.
    + intros page lastPage l w' Hpg _. split; [exact I|].
      unfold vpcPageFunc. rewrite traceOf_bind, traceOf_ret, app_nil_r.
      apply (foldM_trace (confined q) (fun _ => True));
        [apply confined_nil | apply confined_app | | exact I].
      intros v l' w'' Hv _. split; [exact I|].
      unfold confined. rewrite classifyVpc_calls.
      destruct (marksVpc DeletionTag a input v) eqn:Hm; [|reflexivity].
      simpl. now rewrite (Hmark v (Hpg v Hv) Hm).
  - rewrite vpc_listing_value. cbn [fst snd].
    destruct (pagedErr (describeVpcsPages client w)); [reflexivity|].
    destruct (List.length _ =? 0)%nat; [reflexivity|].
    rewrite traceOf_bind, traceOf_ret, app_nil_r.
    apply (forM_trace (confined q)); [apply confined_nil | apply confined_app |].
    intros v w' Hv. apply filter_In in Hv. destruct Hv as [Hin Hl].
    unfold deleteListedVpc. destruct (commit a) eqn:Hc; cbn [negb]; [|reflexivity].
    rewrite traceOf_bind. apply confined_app.
    + apply deleteVPC_confined; [exact Hdeps | now apply Hdel].
    + unfold confined. now run.
Qed.

Lemma cleanLoadBalancersV2_confined (q : Call -> bool) (R : list string -> Prop) (w : W) :
  q DescribeLoadBalancersPage = true ->
  R [] ->
  (forall lb l w', In lb (pagedItems (describeLoadBalancersPages client w)) -> R l ->
     R (valueOf (classifyLoadBalancer client DeletionTag a input lb l w'))
     /\ confined q (traceOf (classifyLoadBalancer client DeletionTag a input lb l w'))) ->
  (forall l arn w', R l -> In arn l -> commit a = true ->
     confined q (traceOf (deleteLoadBalancerV2 client arn w'))) ->
  confined q (traceOf (cleanLoadBalancersV2 client DeletionTag a input w)).
Proof.
  intros Hpage Hnil Hstep Hdel. unfold cleanLoadBalancersV2. rewrite traceOf_bind.
  destruct (eachPage_trace (confined q) R DescribeLoadBalancersPage
              (describeLoadBalancersPages client w) (lbPageFunc client DeletionTag a input)
              (confined_nil q) (confined_app q)) with (s := @nil string) (w := w)
    as [HR HP].
  - intros e. unfold confined. simpl. now rewrite Hpage.
  - intros page lastPage l w' Hpg Hl. unfold lbPageFunc.
    rewrite valueOf_bind, traceOf_bind, valueOf_ret, traceOf_ret, app_nil_r. cbn [snd].
    apply (foldM_trace (confined q) R); [apply confined_nil | apply confined_app | | exact Hl].
    intros lb l' w'' Hlb Hl'. apply Hstep; [now apply Hpg | exact Hl'].
  - exact Hnil.
  - apply confined_app; [exact HP|].
    destruct (fst (valueOf _)); [reflexivity|].
    destruct (List.length _ =? 0)%nat; [reflexivity|].
    rewrite traceOf_bind, traceOf_ret, app_nil_r.
    apply (forM_trace (confined q)); [apply confined_nil | apply confined_app |].
    intros arn w' Hin. unfold deleteListedLoadBalancer.
    destruct (commit a) eqn:Hc; cbn [negb]; [|reflexivity].
    rewrite traceOf_bind. apply confined_app; [now apply (Hdel _ arn w' HR)|].
    unfold confined. now run.
Qed.

Lemma forallb_flat_map {A} (q : Call -> bool) (g : A -> list Call) (l : list A) :
  (forall x, In x l -> forallb q (g x) = true) -> forallb q (flat_map g l) = true.
Proof.
  induction l as [|x l IH]; intros H; simpl; [reflexivity|].
  rewrite forallb_app, (H x (or_introl eq_refl)), IH; [reflexivity|].
  intros y Hy. apply H. now right.
Qed.

Lemma existsb_eqb_in (x : string) (ids : list string) :
  In x ids -> existsb (String.eqb x) ids = true.
Proof.
  intros H. apply existsb_exists. exists x. split; [exact H | apply String.eqb_refl].
Qed.

(** X3.  The only tag the cleaners ever write is [DeletionTag] with the
    value "true": every [CreateTags] and [AddTags] call of a pass of any
    of the three cleaners carries that key and that value. *)
Theorem only_the_deletion_tag_is_written (w : W) :
  confined (writesDeletionTag DeletionTag)
    (traceOf (cleanNetworkInterfaces client DeletionTag a input w))
  /\ confined (writesDeletionTag DeletionTag)
       (traceOf (cleanVPCs client DeletionTag a input w))
  /\ confined (writesDeletionTag DeletionTag)
       (traceOf (cleanLoadBalancersV2 client DeletionTag a input w)).
Proof.
  assert (Hw : forall r, writesDeletionTag DeletionTag (CreateTags r DeletionTag "true") = true
                         /\ writesDeletionTag DeletionTag (AddTags r DeletionTag "true") = true).
  { intros r. simpl. now rewrite String.eqb_refl. }
  split; [|split].
  - unfold confined. rewrite cleanNetworkInterfaces_calls. cbn [forallb writesDeletionTag].
    destruct (describeNetworkInterfaces client w) as [nis|e]; [|reflexivity].
    apply forallb_flat_map. intros ni _. unfold niDecision, decisionTable.
    destruct (classify _ _ _), (commit a); try reflexivity.
    cbn [forallb]. now rewrite (proj1 (Hw _)).
  - apply cleanVPCs_confined; try reflexivity.
    + intros v _ _. apply Hw.
    + intros c Hc. destruct c; try reflexivity; discriminate Hc.
  - apply (cleanLoadBalancersV2_confined _ (fun _ => True)); try reflexivity; try exact I.
    + intros lb l w' _ _. split; [exact I|].
      unfold confined. rewrite classifyLoadBalancer_calls. cbn [forallb writesDeletionTag].
      destruct (describeTags client (LoadBalancerArn lb) w'); [|reflexivity].
      destruct (classify _ _ _), (commit a); try reflexivity.
      cbn [forallb]. now rewrite (proj2 (Hw _)).
    + intros l arn w' _ _ _. now apply deleteLoadBalancerV2_confined.
Qed.

(** X4.  A cleaner tags and deletes only what its listing returned:
    every network interface, network or load balancer named by an
    add-tag or delete call of the pass is among those of the listing. *)
Theorem only_listed_resources_are_touched (w : W) :
  confined (touchesOnly match describeNetworkInterfaces client w with
                        | Ok nis => map NetworkInterfaceId nis
                        | Err _ => []
                        end)
    (traceOf (cleanNetworkInterfaces client DeletionTag a input w))
  /\ confined (touchesOnly (map VpcId (pagedItems (describeVpcsPages client w))))
       (traceOf (cleanVPCs client DeletionTag a input w))
  /\ confined (touchesOnly (map LoadBalancerArn
                              (pagedItems (describeLoadBalancersPages client w))))
       (traceOf (cleanLoadBalancersV2 client DeletionTag a input w)).
Proof.
  split; [|split].
  - unfold confined. rewrite cleanNetworkInterfaces_calls. cbn [forallb touchesOnly].
    destruct (describeNetworkInterfaces client w) as [nis|e]; [|reflexivity].
    apply forallb_flat_map. intros ni Hni.
    assert (Hin : existsb (String.eqb (NetworkInterfaceId ni)) (map NetworkInterfaceId nis) = true)
      by (apply existsb_eqb_in; now apply in_map).
    unfold niDecision, decisionTable.
    destruct (classify _ _ _), (commit a); try reflexivity; cbn [forallb touchesOnly];
      now rewrite Hin.
  - apply cleanVPCs_confined; try reflexivity.
    + intros v Hv _. simpl. apply existsb_eqb_in. now apply in_map.
    + intros c Hc. destruct c; try reflexivity; discriminate Hc.
    + intros v Hv _ _. simpl. apply existsb_eqb_in. now apply in_map.
  - set (ids := map LoadBalancerArn (pagedItems (describeLoadBalancersPages client w))).
    apply (cleanLoadBalancersV2_confined _ (fun l => forall arn, In arn l -> In arn ids));
      try reflexivity.
    + intros arn [].
    + intros lb l w' Hlb Hl.
      assert (Hin : In (LoadBalancerArn lb) ids) by (now apply in_map).
      rewrite classifyLoadBalancer_value. unfold confined.
      rewrite classifyLoadBalancer_calls. cbn [forallb touchesOnly].
      destruct (describeTags client (LoadBalancerArn lb) w'); [|now rewrite app_nil_r].
      destruct (classify _ _ _), (commit a); rewrite ?app_nil_r;
        try (split; [exact Hl | reflexivity]).
      * split; [|reflexivity]. intros arn H. apply in_app_or in H.
        destruct H as [H|[<-|[]]]; auto.
      * split; [|reflexivity]. intros arn H. apply in_app_or in H.
        destruct H as [H|[<-|[]]]; auto.
      * split; [exact Hl|]. cbn [forallb touchesOnly]. now rewrite (existsb_eqb_in _ _ Hin).
    + intros l arn w' Hl Hin _. apply deleteLoadBalancerV2_confined; try reflexivity.
      simpl. apply existsb_eqb_in. now apply Hl.
Qed.

End Confinement.

(** ** Failed listings and a degenerate scope *)

Section Edges.

Context {W : Type}.
Variable client : Provider W.
Variable DeletionTag : string.
Variable a : action.
Variable input : CleanupScope.

Lemma vpc_listing_deletes_nothing (p : Paged Vpc) (l : list Vpc) (w : W) :
  avoids isDelete
    (traceOf (eachPage DescribeVpcsPage p (vpcPageFunc client DeletionTag a input) l w)).
Proof.
  apply (eachPage_trace (avoids isDelete) (fun _ => True));
    [apply avoids_nil | apply avoids_app | reflexivity | | exact I].
  intros page lastPage l' w' _ _. split; [exact I|].
  unfold vpcPageFunc. rewrite traceOf_bind, traceOf_ret, app_nil_r.
  apply (foldM_trace (avoids isDelete) (fun _ => True));
    [apply avoids_nil | apply avoids_app | | exact I].
  intros v l'' w'' _ _. split; [exact I|].
  unfold avoids. rewrite classifyVpc_calls. now destruct (marksVpc _ _ _ _).
Qed.

(** X5.  When a listing fails nothing is deleted.  A failed
    [DescribeNetworkInterfaces] is the only event of the pass.  When a
    page of networks or of load balancers cannot be fetched the cleaner
    returns the wrapped error and issues no delete call, for no page;
    the networks of the pages before the failure have been tagged all
    the same. *)
Theorem failed_listing_deletes_nothing (w : W) (e : error) :
  (describeNetworkInterfaces client w = Err e ->
     traceOf (cleanNetworkInterfaces client DeletionTag a input w) =
       [EvCall DescribeNetworkInterfaces (Some e)]
     /\ worldOf (cleanNetworkInterfaces client DeletionTag a input w) = w)
  /\ (pagedErr (describeVpcsPages client w) = Some e ->
        valueOf (cleanVPCs client DeletionTag a input w) =
          Some (Errorf "failed getting list of vpcs" e)
        /\ avoids isDelete (traceOf (cleanVPCs client DeletionTag a input w))
        /\ filter isVpcCall (calls (traceOf (cleanVPCs client DeletionTag a input w))) =
             flat_map (fun v => if marksVpc DeletionTag a input v
                                then [CreateTags (VpcId v) DeletionTag "true"] else [])
               (pagedItems (describeVpcsPages client w)))
  /\ (pagedErr (describeLoadBalancersPages client w) = Some e ->
        valueOf (cleanLoadBalancersV2 client DeletionTag a input w) =
          Some (Errorf "failed getting list of elbv2 load balancers" e)
        /\ avoids isDelete (traceOf (cleanLoadBalancersV2 client DeletionTag a input w))).
Proof.
  split; [|split].
  - intros He. unfold cleanNetworkInterfaces, bind, query. rewrite He. now split.
  - intros He. split; [now rewrite cleanVPCs_value, He|]. split.
    + unfold cleanVPCs. rewrite traceOf_bind, vpc_listing_value, He. cbn [fst].
      apply avoids_app; [apply vpc_listing_deletes_nothing | reflexivity].
    + rewrite cleanVPCs_vpc_calls. cbv zeta. now rewrite He, app_nil_r.
  - intros He. split; [now rewrite cleanLoadBalancersV2_value, He|].
    unfold cleanLoadBalancersV2. rewrite traceOf_bind.
    rewrite (eachPage_err DescribeLoadBalancersPage (describeLoadBalancersPages client w)
               (lbPageFunc client DeletionTag a input)) by reflexivity.
    rewrite He. apply avoids_app; [apply lb_listing_deletes_nothing | reflexivity].
Qed.

Lemma classify_same (k : string) (tags : list Tag) : classify k k tags <> Marked.
Proof. unfold classify. now destruct (hasKey k tags). Qed.

Lemma listsVpc_same (v : Vpc) :
  IgnoreTag input = DeletionTag -> listsVpc DeletionTag input v = false.
Proof.
  intros E. unfold listsVpc, scanVpcTags. rewrite scanVpcTags_from. cbn [fst snd orb].
  rewrite E.
  replace (existsb (fun t => negb (Key t =? DeletionTag) && (Key t =? DeletionTag)) (Vpc_Tags v))
    with false; [apply andb_false_r|].
  induction (Vpc_Tags v) as [|t tags IH]; simpl; [reflexivity|].
  rewrite <- IH. now destruct (Key t =? DeletionTag).
Qed.

(** X6.  A scope whose ignore key is the deletion key disables the
    janitor: since the ignore case of the tag switch comes first, no
    resource is ever classified as marked, and no pass of any cleaner
    issues a delete call, with [commit] true as well. *)
Theorem ignore_key_equal_to_deletion_key_deletes_nothing (w : W) :
  IgnoreTag input = DeletionTag ->
  avoids isDelete (traceOf (cleanNetworkInterfaces client DeletionTag a input w))
  /\ avoids isDelete (traceOf (cleanVPCs client DeletionTag a input w))
  /\ avoids isDelete (traceOf (cleanLoadBalancersV2 client DeletionTag a input w)).
Proof.
  intros E. split; [|split].
  - unfold avoids. rewrite cleanNetworkInterfaces_calls.
    change (existsb isDelete
              match describeNetworkInterfaces client w with
              | Ok nis => flat_map (niDecision DeletionTag a input) nis
              | Err _ => []
              end = false).
    destruct (describeNetworkInterfaces client w) as [nis|e]; [|reflexivity].
    induction nis as [|ni nis IH]; [reflexivity|].
    cbn [flat_map]. rewrite existsb_app, IH, orb_false_r.
    unfold niDecision, decisionTable. rewrite E.
    pose proof (classify_same DeletionTag (TagSet ni)) as Hc.
    destruct (classify DeletionTag DeletionTag (TagSet ni)), (commit a);
      try reflexivity; now elim Hc.
  - unfold cleanVPCs. rewrite traceOf_bind, vpc_listing_value. cbn [fst snd].
    apply avoids_app; [apply vpc_listing_deletes_nothing|].
    destruct (pagedErr (describeVpcsPages client w)); [reflexivity|].
    replace (filter (listsVpc DeletionTag input) (pagedItems (describeVpcsPages client w)))
      with (@nil Vpc); [reflexivity|].
    induction (pagedItems (describeVpcsPages client w)) as [|v l IH]; [reflexivity|].
    simpl. now rewrite (listsVpc_same v E).
  - unfold cleanLoadBalancersV2. rewrite traceOf_bind.
    apply avoids_app; [apply lb_listing_deletes_nothing|].
    destruct (eachPage_trace (fun _ => True) (fun l : list string => l = [])
                DescribeLoadBalancersPage (describeLoadBalancersPages client w)
                (lbPageFunc client DeletionTag a input) I (fun _ _ _ _ => I) (fun _ => I))
      with (s := @nil string) (w := w) as [HR _].
    + intros page lastPage l w' _ ->. split; [|exact I]. unfold lbPageFunc.
      rewrite valueOf_bind, valueOf_ret. cbn [snd].
      apply (foldM_trace (fun _ => True) (fun l : list string => l = []));
        [exact I | intros; exact I | | reflexivity].
      intros lb l' w'' _ ->. split; [|exact I].
      rewrite classifyLoadBalancer_value. rewrite E.
      destruct (describeTags client (LoadBalancerArn lb) w'') as [descs|e']; [|reflexivity].
      pose proof (classify_same DeletionTag (allTags descs)) as Hc.
      destruct (classify DeletionTag DeletionTag (allTags descs)); try reflexivity.
      now elim Hc.
    + reflexivity.
    + rewrite HR. now destruct (fst (valueOf _)).
Qed.

End Edges.

Lemma failed_listing_deletes_nothing_witness :
  let p := scripted brokenListingScript in
  let r := cleanVPCs p sampleDeletionTag committing keep [] in
  traceOf (cleanNetworkInterfaces p sampleDeletionTag committing keep []) =
    [EvCall DescribeNetworkInterfaces (Some "RequestLimitExceeded")]
  /\ valueOf r = Some "failed getting list of vpcs: RequestLimitExceeded"
  /\ avoids isDelete (traceOf r)
  /\ calls (traceOf r) =
       [DescribeVpcsPage; CreateTags "vpc-1" sampleDeletionTag "true"; DescribeVpcsPage]
  /\ avoids isDelete (traceOf (cleanLoadBalancersV2 p sampleDeletionTag committing keep [])).
Proof.
  destruct (failed_listing_deletes_nothing (scripted brokenListingScript) sampleDeletionTag
              committing keep [] "RequestLimitExceeded") as (H1 & H2 & H3).
  destruct (H1 eq_refl) as (Ht & _).
  destruct (H2 eq_refl) as (Hv & Hd & _).
  destruct (H3 eq_refl) as (_ & Hl).
  cbv zeta. split; [exact Ht|]. split; [exact Hv|]. split; [exact Hd|].
  split; [vm_compute; reflexivity | exact Hl].
Defined.

Lemma ignore_key_equal_to_deletion_key_deletes_nothing_witness :
  let same := {| IgnoreTag := sampleDeletionTag |} in
  avoids isDelete
    (traceOf (cleanNetworkInterfaces (scripted scenarioScript) sampleDeletionTag
                committing same []))
  /\ avoids isDelete
       (traceOf (cleanVPCs (scripted stuckVpcScript) sampleDeletionTag committing same []))
  /\ avoids isDelete
       (traceOf (cleanLoadBalancersV2 (scripted flakyScript) sampleDeletionTag
                   committing same [])).
Proof.
  cbv zeta. split; [|split].
  - apply (ignore_key_equal_to_deletion_key_deletes_nothing (scripted scenarioScript)
             sampleDeletionTag committing {| IgnoreTag := sampleDeletionTag |} [] eq_refl).
  - apply (ignore_key_equal_to_deletion_key_deletes_nothing (scripted stuckVpcScript)
             sampleDeletionTag committing {| IgnoreTag := sampleDeletionTag |} [] eq_refl).
  - apply (ignore_key_equal_to_deletion_key_deletes_nothing (scripted flakyScript)
             sampleDeletionTag committing {| IgnoreTag := sampleDeletionTag |} [] eq_refl).
Defined.

(** ** The waiter as a whole *)

Section WaiterRuns.

Import Waiter.
Local Open Scope Z_scope.

Context {S : Type}.
Variable ctx : Ctx.
Variable pickDone : Z -> bool.
Variable interval : Z.
Variable check : Ctx -> Z -> S -> Checked_ S.

(** X7.  With a positive interval and a [check] that does not turn the
    clock back, [waitUntil] returns: [n] rounds beyond the first are
    enough as soon as [n] intervals exceed the timeout. *)
Theorem waitUntil_returns (n : nat) (now timeout : Z) (s : S) :
  0 < interval ->
  (forall t s', t <= clock (check ctx t s')) ->
  timeout < Z.of_nat n * interval ->
  exists r, waitUntil (Datatypes.S n) ctx pickDone now timeout interval check s = Some r.
Proof.
  intros Hpos Hmono Hn. unfold waitUntil.
  apply WaiterFacts.waitLoop_returns; [assumption | assumption | lia].
Qed.

Lemma waitLoop_sound (fuel : nat) :
  forall waitFor now s r,
    waitLoop ctx pickDone interval check fuel waitFor now s = Some r ->
    forallb (wellTimed interval waitFor) (events r) = true
    /\ (result r = None ->
        exists t s0,
          In (Checked t) (events r)
          /\ err (check ctx t s0) = None /\ done (check ctx t s0) = true
          /\ final r = state (check ctx t s0) /\ returnedAt r = clock (check ctx t s0))
    /\ (forall e, result r = Some e ->
          e = "timeout exceeded"%string \/ e = ctxErr ctx
          \/ exists t s0, err (check ctx t s0) = Some e).
Proof.
  induction fuel as [|fuel IH]; intros waitFor now s r H; [discriminate|].
  rewrite WaiterFacts.waitLoop_iteration in H.
  destruct (Z.ltb_spec waitFor now) as [Hlt|Hle].
  - injection H as <-. cbn. split; [reflexivity|]. split; [discriminate|].
    intros e [= <-]. now left.
  - cbv zeta in H.
    assert (Hnow : (now <=? waitFor) = true) by (apply Z.leb_le; lia).
    destruct (err (check ctx now s)) as [e0|] eqn:He.
    + injection H as <-. cbn. rewrite Hnow. split; [reflexivity|]. split; [discriminate|].
      intros e [= <-]. right. right. now exists now, s.
    + destruct (done (check ctx now s)) eqn:Hd.
      * injection H as <-. cbn. rewrite Hnow. split; [reflexivity|]. split.
        -- intros _. exists now, s. repeat split; try assumption. now left.
        -- discriminate.
      * destruct (select ctx pickDone (clock (check ctx now s)) interval) as [t|t] eqn:Hsel.
        -- injection H as <-. cbn. rewrite Hnow. split; [reflexivity|]. split; [discriminate|].
           intros e [= <-]. right. now left.
        -- destruct (waitLoop ctx pickDone interval check fuel waitFor t
                       (state (check ctx now s))) as [r'|] eqn:Hr; [|discriminate].
           injection H as <-. destruct (IH _ _ _ _ Hr) as (H1 & H2 & H3).
           apply WaiterFacts.select_timer_at in Hsel. unfold timerAt in Hsel.
           cbn. rewrite Hnow, H1, Hsel, Z.eqb_refl. split; [reflexivity|]. split.
           ++ intros Hnone. destruct (H2 Hnone) as (t' & s0 & Hin & Hrest).
              exists t', s0. split; [right; right; exact Hin | exact Hrest].
           ++ exact H3.
Qed.

(** X8.  What a returned [waitUntil] guarantees.  [check] was never
    evaluated after the deadline and every sleep lasted one interval.
    Nil is returned only after an evaluation of [check] that reported
    done without error, and the state and clock returned are those that
    evaluation left.  An error returned is the timeout error, the
    context's error or an error of [check]. *)
Theorem waitUntil_sound (fuel : nat) (now timeout : Z) (s : S) (r : Returned S) :
  waitUntil fuel ctx pickDone now timeout interval check s = Some r ->
  forallb (wellTimed interval (now + timeout)) (events r) = true
  /\ (result r = None ->
      exists t s0,
        In (Checked t) (events r)
        /\ err (check ctx t s0) = None /\ done (check ctx t s0) = true
        /\ final r = state (check ctx t s0) /\ returnedAt r = clock (check ctx t s0))
  /\ (forall e, result r = Some e ->
        e = "timeout exceeded"%string \/ e = ctxErr ctx
        \/ exists t s0, err (check ctx t s0) = Some e).
Proof. unfold waitUntil. apply waitLoop_sound. Qed.

End WaiterRuns.

Lemma waitUntil_returns_witness :
  exists r, Waiter.waitUntil 7 sampleCtx (fun _ => true) 0%Z 50%Z 10%Z sampleCheck 0%nat = Some r.
Proof.
  apply (waitUntil_returns sampleCtx (fun _ => true) 10%Z sampleCheck 6 0%Z 50%Z 0%nat).
  - lia.
  - intros t s'. unfold sampleCheck. simpl. lia.
  - simpl. lia.
Defined.

(** The sample check reports done at its fourth evaluation, after
    three sleeps of 3. *)
Lemma waitUntil_sound_witness :
  let r := {| Waiter.result := None; Waiter.final := 4%nat; Waiter.returnedAt := 13%Z;
              Waiter.events := [Waiter.Checked 0; Waiter.Slept 1 4; Waiter.Checked 4;
                                Waiter.Slept 5 8; Waiter.Checked 8; Waiter.Slept 9 12;
                                Waiter.Checked 12] |} in
  Waiter.waitUntil 5 sampleCtx (fun _ => true) 0%Z 50%Z 3%Z sampleCheck 0%nat = Some r
  /\ forallb (wellTimed 3 50) (Waiter.events r) = true.
Proof.
  cbv zeta. split; [reflexivity|].
  apply (waitUntil_sound sampleCtx (fun _ => true) 3%Z sampleCheck 5 0%Z 50%Z 0%nat).
  reflexivity.
Defined.

(** ** The tag loops and the lines of the log *)

Section TagKeys.

Variable DeletionTag : string.
Variable input : CleanupScope.

Lemma existsb_keys_le (p : string -> bool) (tags tags' : list Tag) :
  (forall k, hasKey k tags = true -> hasKey k tags' = true) ->
  existsb (fun t => p (Key t)) tags = true -> existsb (fun t => p (Key t)) tags' = true.
Proof.
  intros Hk H. apply existsb_exists in H. destruct H as (t & Hin & Hp).
  assert (Ht : hasKey (Key t) tags = true).
  { apply existsb_exists. exists t. split; [exact Hin | apply String.eqb_refl]. }
  apply Hk, existsb_exists in Ht. destruct Ht as (t' & Hin' & Heq).
  apply String.eqb_eq in Heq. apply existsb_exists. exists t'. split; [exact Hin'|].
  now rewrite Heq.
Qed.

Lemma existsb_keys (p : string -> bool) (tags tags' : list Tag) :
  (forall k, hasKey k tags = hasKey k tags') ->
  existsb (fun t => p (Key t)) tags = existsb (fun t => p (Key t)) tags'.
Proof.
  intros Hk.
  destruct (existsb (fun t => p (Key t)) tags) eqn:H1,
           (existsb (fun t => p (Key t)) tags') eqn:H2; try reflexivity.
  - rewrite (existsb_keys_le p tags tags') in H2; [discriminate| |exact H1].
    intros k. now rewrite Hk.
  - rewrite (existsb_keys_le p tags' tags) in H1; [discriminate| |exact H2].
    intros k. now rewrite Hk.
Qed.

(** X9.  The tag loops look at keys only.  The two flags of the scan of
    [cleanNetworkInterfaces] and [cleanLoadBalancersV2] are: the ignore
    key occurs; the deletion key occurs and is not the ignore key.  Two
    tag lists with the same keys, in any order, with any repetitions and
    any values, are scanned alike, by the scan of [cleanVPCs] as
    well. *)
Theorem tag_scans_depend_on_keys_only (tags tags' : list Tag) :
  (forall k, hasKey k tags = hasKey k tags') ->
  scanTags DeletionTag input tags =
    (hasKey (IgnoreTag input) tags,
     negb (DeletionTag =? IgnoreTag input) && hasKey DeletionTag tags)
  /\ scanTags DeletionTag input tags = scanTags DeletionTag input tags'
  /\ scanVpcTags DeletionTag input tags = scanVpcTags DeletionTag input tags'.
Proof.
  intros Hk. split; [|split].
  - unfold scanTags. rewrite scanTags_from. cbn [orb]. f_equal.
    clear Hk. unfold hasKey. induction tags as [|t ts IH]; simpl; [now rewrite andb_false_r|].
    rewrite IH.
    destruct (Key t =? DeletionTag) eqn:E.
    + apply String.eqb_eq in E. rewrite E.
      now destruct (DeletionTag =? IgnoreTag input).
    + rewrite andb_false_r. reflexivity.
  - unfold scanTags. rewrite !scanTags_from. cbn [orb]. f_equal; [apply Hk|].
    apply (existsb_keys (fun k => negb (k =? IgnoreTag input) && (k =? DeletionTag))), Hk.
  - unfold scanVpcTags. rewrite !scanVpcTags_from. cbn [orb]. f_equal; [f_equal|].
    + apply Hk.
    + apply (existsb_keys (fun k => negb (k =? IgnoreTag input) && (k =? DeletionTag))), Hk.
    + apply (existsb_keys (fun k => negb (k =? IgnoreTag input)
                                    && (negb (k =? DeletionTag) && isStackKey k))), Hk.
Qed.

End TagKeys.

Lemma tag_scans_depend_on_keys_only_witness :
  let tags := [tag "team"; tag sampleDeletionTag] in
  let tags' := [{| Key := sampleDeletionTag; Value := "false" |};
                {| Key := "team"; Value := "ops" |}; tag sampleDeletionTag] in
  scanTags sampleDeletionTag keep tags = (false, true)
  /\ scanTags sampleDeletionTag keep tags = scanTags sampleDeletionTag keep tags'
  /\ scanVpcTags sampleDeletionTag keep tags = scanVpcTags sampleDeletionTag keep tags'.
Proof.
  apply (tag_scans_depend_on_keys_only sampleDeletionTag keep
           [tag "team"; tag sampleDeletionTag]
           [{| Key := sampleDeletionTag; Value := "false" |};
            {| Key := "team"; Value := "ops" |}; tag sampleDeletionTag]).
  intros k. unfold hasKey, tag. cbn [existsb Key].
  destruct ("team" =? k), (sampleDeletionTag =? k); reflexivity.
Defined.

Section EmptyWorklist.

Context {W : Type}.
Variable client : Provider W.
Variable DeletionTag : string.
Variable a : action.
Variable input : CleanupScope.

Let silent (t : Trace) : Prop := existsb nothingToDelete t = false.

Lemma silent_app (t1 t2 : Trace) : silent t1 -> silent t2 -> silent (t1 ++ t2).
Proof. unfold silent. intros H1 H2. now rewrite existsb_app, H1, H2. Qed.

Lemma silent_quiet (t : Trace) : existsb deleteOrNothing t = false -> silent t.
Proof.
  unfold silent. induction t as [|[c o|lvl msg] t IH]; simpl; [reflexivity| |].
  - intros H. apply orb_false_elim in H. now apply IH.
  - intros H. apply orb_false_elim in H. destruct H as [-> H]. now apply IH.
Qed.

Lemma silent_optional_log (o : option error) (lvl : Level) (msg : error -> string) :
  lvl <> LvlInfo ->
  silent (match o with Some e => [EvLog lvl (msg e)] | None => [] end).
Proof. intros Hl. destruct o; [|reflexivity]. now destruct lvl. Qed.

Ltac silence :=
  repeat first
    [ reflexivity
    | apply silent_optional_log; discriminate
    | apply silent_app ].

Lemma cleanNetworkInterface_silent (ni : NetworkInterface) (w : W) :
  silent (traceOf (cleanNetworkInterface client DeletionTag a input ni w)).
Proof.
  unfold cleanNetworkInterface.
  destruct (fst (scanTags DeletionTag input (TagSet ni))); [reflexivity|].
  destruct (snd (scanTags DeletionTag input (TagSet ni))); cbn [negb];
    destruct (commit a); cbn [negb]; run; silence.
Qed.

Lemma phase_silent {A} (c : Call) (read : W -> Result (list A)) (pre : string)
    (body : A -> M W unit) (w : W) :
  (forall x w', silent (traceOf (body x w'))) ->
  silent (traceOf ((resp <- query c read ;;
                    match resp with
                    | Err err => ret (Some (Errorf pre err))
                    | Ok l => forM_ l body ;; ret None
                    end) w)).
Proof.
  intros Hbody. run. apply silent_app; [reflexivity|].
  destruct (read w) as [l|e]; run; [|reflexivity].
  apply (forM_trace silent); [reflexivity | apply silent_app | intros; apply Hbody].
Qed.

Lemma deleteVPC_silent (vpcId : string) (w : W) :
  silent (traceOf (deleteVPC client vpcId w)).
Proof.
  assert (Hn : forall w', silent (traceOf (deleteNATGateways client vpcId w'))).
  { intros w'. apply phase_silent. intros g w''. run. silence. }
  assert (Hi : forall w', silent (traceOf (deleteInternetGateways client vpcId w'))).
  { intros w'. apply phase_silent. intros g w''. unfold deleteInternetGateway. run.
    rewrite valueOf_exec.
    destruct (fst (mutate client (DetachInternetGateway (InternetGatewayId g) vpcId) w''));
      run; silence. }
  assert (Hr : forall w', silent (traceOf (deleteRouteTables client vpcId w'))).
  { intros w'. apply phase_silent. intros rt w''. unfold deleteRouteTable.
    destruct (isMain rt); run; silence. }
  assert (Hs : forall w', silent (traceOf (deleteSubnets client vpcId w'))).
  { intros w'. apply phase_silent. intros sn w''. run. silence. }
  unfold deleteVPC, cleanVPCDependencies. run. rewrite valueOf_exec.
  destruct (fst (mutate client (DeleteVpc vpcId) _)); run;
    repeat first [ apply Hn | apply Hi | apply Hr | apply Hs | reflexivity
                 | apply silent_optional_log; discriminate | apply silent_app ].
Qed.

Lemma deleteLoadBalancerV2_silent (lbArn : string) (w : W) :
  silent (traceOf (deleteLoadBalancerV2 client lbArn w)).
Proof.
  unfold deleteLoadBalancerV2. run. rewrite valueOf_exec.
  destruct (fst (mutate client (DeleteLoadBalancer lbArn) w)); run;
    repeat first [ reflexivity | apply silent_optional_log; discriminate
                 | apply (forM_trace silent); [reflexivity | apply silent_app |]
                 | apply silent_app ].
  intros tg w' _. run. silence.
Qed.

(** X10.  When the line announcing that there is nothing to delete is
    logged.  The network-interface cleaner logs it exactly when the
    listing succeeded and is empty: a listing of interfaces that are all
    ignored, or all tagged by this pass, leaves no such line.  The
    network and load-balancer cleaners log it exactly when the listing
    completed and the worklist is empty, whatever was listed. *)
Theorem nothing_to_delete_line (w : W) :
  existsb nothingToDelete (traceOf (cleanNetworkInterfaces client DeletionTag a input w)) =
    match describeNetworkInterfaces client w with
    | Ok [] => true
    | _ => false
    end
  /\ existsb nothingToDelete (traceOf (cleanVPCs client DeletionTag a input w)) =
       match pagedErr (describeVpcsPages client w) with
       | Some _ => false
       | None =>
           (List.length (filter (listsVpc DeletionTag input)
                           (pagedItems (describeVpcsPages client w))) =? 0)%nat
       end
  /\ (let listing := eachPage DescribeLoadBalancersPage (describeLoadBalancersPages client w)
                       (lbPageFunc client DeletionTag a input) [] w in
      existsb nothingToDelete (traceOf (cleanLoadBalancersV2 client DeletionTag a input w)) =
        match fst (valueOf listing) with
        | Some _ => false
        | None => (List.length (snd (valueOf listing)) =? 0)%nat
        end).
Proof.
  split; [|split].
  - unfold cleanNetworkInterfaces. run. rewrite existsb_app. cbn [existsb nothingToDelete orb].
    destruct (describeNetworkInterfaces client w) as [[|ni nis]|e]; try reflexivity.
    cbn [List.length Nat.eqb]. run.
    apply (forM_trace silent); [reflexivity | apply silent_app |].
    intros x w' _. apply cleanNetworkInterface_silent.
  - unfold cleanVPCs. rewrite traceOf_bind, existsb_app.
    rewrite (silent_quiet _ (vpc_listing_quiet client DeletionTag a input _ _ _)).
    rewrite vpc_listing_value. cbn [fst snd orb].
    destruct (pagedErr (describeVpcsPages client w)); [reflexivity|].
    destruct (filter _ _) as [|v l]; [reflexivity|].
    cbn [List.length Nat.eqb]. run.
    apply (forM_trace silent); [reflexivity | apply silent_app |].
    intros x w' _. unfold deleteListedVpc. destruct (commit a); cbn [negb]; [|reflexivity].
    run. apply silent_app; [apply deleteVPC_silent | apply silent_optional_log; discriminate].
  - cbv zeta. unfold cleanLoadBalancersV2. rewrite traceOf_bind, existsb_app.
    rewrite (silent_quiet _ (lb_listing_quiet client DeletionTag a input _ _ _)).
    cbn [orb].
    destruct (fst (valueOf _)); [reflexivity|].
    destruct (snd (valueOf _)) as [|arn l]; [reflexivity|].
    cbn [List.length Nat.eqb]. run.
    apply (forM_trace silent); [reflexivity | apply silent_app |].
    intros x w' _. unfold deleteListedLoadBalancer.
    destruct (commit a); cbn [negb]; [|reflexivity].
    run. apply silent_app;
      [apply deleteLoadBalancerV2_silent | apply silent_optional_log; discriminate].
Qed.

End EmptyWorklist.

(** ** Dry run and the two passes *)

Section DryRunReport.

Context {W : Type}.
Variable client : Provider W.
Variable DeletionTag : string.
Variable input : CleanupScope.

(** X11.  The whole trace of a dry run of the network-interface
    cleaner: the listing call, then either the line for an empty
    listing or, in listing order, one debug line for each ignored
    interface and one for each marked interface.  An interface that a
    committing pass would tag leaves no trace in a dry run. *)
Theorem dry_run_report (w : W) :
  traceOf (cleanNetworkInterfaces client DeletionTag {| commit := false |} input w) =
  EvCall DescribeNetworkInterfaces (resultErr (describeNetworkInterfaces client w)) ::
  match describeNetworkInterfaces client w with
  | Err _ => []
  | Ok [] => [EvLog LvlInfo "no unattached network interfaces to delete"]
  | Ok nis => flat_map (dryRunLines DeletionTag input) nis
  end.
Proof.
  unfold cleanNetworkInterfaces. run. cbn [app]. f_equal.
  destruct (describeNetworkInterfaces client w) as [[|ni nis]|e]; try reflexivity.
  cbn [List.length Nat.eqb]. run.
  apply (forM_hom (fun t => t) eq_refl (fun _ _ => eq_refl)).
  intros x w' _. unfold cleanNetworkInterface, dryRunLines. rewrite scanTags_classify.
  now destruct (classify (IgnoreTag input) DeletionTag (TagSet x)).
Qed.

End DryRunReport.

Section TwoPasses.

Variable DeletionTag : string.
Variable input : CleanupScope.

Let pass := cleanNetworkInterfaces interfaceStore DeletionTag {| commit := true |} input.

Let round (cur : list NetworkInterface) (ni : NetworkInterface) : list NetworkInterface :=
  match classify (IgnoreTag input) DeletionTag (TagSet ni) with
  | Ignored => cur
  | Unmarked => map (addTag (NetworkInterfaceId ni) DeletionTag "true") cur
  | Marked => filter (fun x => negb (NetworkInterfaceId x =? NetworkInterfaceId ni)) cur
  end.

Lemma round_world (ni : NetworkInterface) (cur : list NetworkInterface) :
  worldOf (cleanNetworkInterface interfaceStore DeletionTag {| commit := true |} input ni cur)
  = round cur ni.
Proof.
  unfold cleanNetworkInterface, round. rewrite scanTags_classify.
  now destruct (classify (IgnoreTag input) DeletionTag (TagSet ni)).
Qed.

Lemma rounds_world (l cur : list NetworkInterface) :
  worldOf (forM_ l (cleanNetworkInterface interfaceStore DeletionTag {| commit := true |} input)
             cur)
  = fold_left round l cur.
Proof.
  revert cur. induction l as [|ni l IH]; intros cur; [reflexivity|].
  simpl forM_. rewrite worldOf_bind, IH, round_world. reflexivity.
Qed.

Lemma addTag_id (id k v : string) (ni : NetworkInterface) :
  NetworkInterfaceId (addTag id k v ni) = NetworkInterfaceId ni.
Proof. unfold addTag. now destruct (NetworkInterfaceId ni =? id). Qed.

Lemma map_addTag_others (id k v : string) (l : list NetworkInterface) :
  ~ In id (map NetworkInterfaceId l) -> map (addTag id k v) l = l.
Proof.
  induction l as [|x l IH]; simpl; [reflexivity|]. intros H.
  rewrite IH by tauto. unfold addTag.
  destruct (NetworkInterfaceId x =? id) eqn:E; [|reflexivity].
  apply String.eqb_eq in E. tauto.
Qed.

Lemma filter_others (id : string) (l : list NetworkInterface) :
  ~ In id (map NetworkInterfaceId l) ->
  filter (fun x => negb (NetworkInterfaceId x =? id)) l = l.
Proof.
  induction l as [|x l IH]; simpl; [reflexivity|]. intros H.
  rewrite IH by tauto.
  destruct (NetworkInterfaceId x =? id) eqn:E; [|reflexivity].
  apply String.eqb_eq in E. tauto.
Qed.

Lemma rounds_fold (l done : list NetworkInterface) :
  NoDup (map NetworkInterfaceId (done ++ l)) ->
  fold_left round l (done ++ l) = done ++ afterPass DeletionTag input l.
Proof.
  revert done. induction l as [|ni l IH]; intros done Hnd.
  - reflexivity.
  - rewrite map_app in Hnd. cbn [map] in Hnd.
    pose proof (NoDup_remove_2 _ _ _ Hnd) as Hout.
    assert (Hdone : ~ In (NetworkInterfaceId ni) (map NetworkInterfaceId done))
      by (intros H; apply Hout, in_or_app; now left).
    assert (Hl : ~ In (NetworkInterfaceId ni) (map NetworkInterfaceId l))
      by (intros H; apply Hout, in_or_app; now right).
    cbn [fold_left]. unfold afterPass. cbn [flat_map]. fold (afterPass DeletionTag input l).
    unfold round at 2.
    destruct (classify (IgnoreTag input) DeletionTag (TagSet ni)).
    + replace (done ++ ni :: l) with ((done ++ [ni]) ++ l) by now rewrite <- app_assoc.
      rewrite IH; [now rewrite <- app_assoc|].
      rewrite <- app_assoc, map_app. exact Hnd.
    + rewrite filter_app. cbn [filter]. rewrite String.eqb_refl. cbn [negb].
      rewrite (filter_others _ done Hdone), (filter_others _ l Hl).
      apply IH. rewrite map_app. now apply NoDup_remove_1 in Hnd.
    + rewrite map_app. cbn [map].
      rewrite (map_addTag_others _ _ _ done Hdone), (map_addTag_others _ _ _ l Hl).
      set (ni' := addTag (NetworkInterfaceId ni) DeletionTag "true" ni).
      replace (done ++ ni' :: l) with ((done ++ [ni']) ++ l) by now rewrite <- app_assoc.
      rewrite IH; [now rewrite <- app_assoc|].
      rewrite <- app_assoc, map_app. cbn [app map]. unfold ni'. now rewrite addTag_id.
Qed.

Lemma pass_world (w : list NetworkInterface) :
  NoDup (map NetworkInterfaceId w) ->
  worldOf (pass w) = afterPass DeletionTag input w.
Proof.
  intros Hnd. unfold pass, cleanNetworkInterfaces.
  rewrite worldOf_bind, valueOf_query, worldOf_query. cbn [describeNetworkInterfaces interfaceStore].
  destruct w as [|ni l]; [reflexivity|].
  cbn [List.length Nat.eqb]. rewrite worldOf_bind, worldOf_ret, rounds_world.
  apply (rounds_fold (ni :: l) []). exact Hnd.
Qed.

Lemma afterPass_ids (l : list NetworkInterface) (id : string) :
  In id (map NetworkInterfaceId (afterPass DeletionTag input l)) ->
  In id (map NetworkInterfaceId l).
Proof.
  induction l as [|ni l IH]; [trivial|].
  unfold afterPass. cbn [flat_map]. fold (afterPass DeletionTag input l).
  rewrite map_app, in_app_iff. cbn [map].
  intros [H|H]; [|right; now apply IH].
  left. destruct (classify _ _ _); cbn [map] in H;
    [ destruct H as [H|[]]; exact H
    | destruct H
    | destruct H as [H|[]]; now rewrite addTag_id in H ].
Qed.

Lemma afterPass_NoDup (l : list NetworkInterface) :
  NoDup (map NetworkInterfaceId l) ->
  NoDup (map NetworkInterfaceId (afterPass DeletionTag input l)).
Proof.
  induction l as [|ni l IH]; intros Hnd; [constructor|].
  cbn [map] in Hnd. inversion Hnd as [|? ? Hout Hnd']; subst.
  unfold afterPass. cbn [flat_map]. fold (afterPass DeletionTag input l).
  rewrite map_app.
  assert (Hfresh : ~ In (NetworkInterfaceId ni)
                       (map NetworkInterfaceId (afterPass DeletionTag input l)))
    by (intros H; now apply Hout, afterPass_ids).
  destruct (classify _ _ _); cbn [map app]; [| now apply IH |].
  - constructor; [exact Hfresh | now apply IH].
  - rewrite addTag_id. constructor; [exact Hfresh | now apply IH].
Qed.

Lemma hasKey_app (k : string) (l1 l2 : list Tag) :
  hasKey k (l1 ++ l2) = hasKey k l1 || hasKey k l2.
Proof. unfold hasKey. apply existsb_app. Qed.

Lemma afterPass_twice (l : list NetworkInterface) :
  IgnoreTag input <> DeletionTag ->
  afterPass DeletionTag input (afterPass DeletionTag input l) =
  filter (fun ni => hasKey (IgnoreTag input) (TagSet ni)) l.
Proof.
  intros Hne.
  assert (E : (DeletionTag =? IgnoreTag input) = false)
    by (apply String.eqb_neq; congruence).
  induction l as [|ni l IH]; [reflexivity|].
  unfold afterPass at 2. cbn [flat_map]. fold (afterPass DeletionTag input l).
  unfold afterPass at 1. rewrite flat_map_app. fold (afterPass DeletionTag input (afterPass DeletionTag input l)).
  rewrite IH. cbn [filter]. unfold classify at 2.
  destruct (hasKey (IgnoreTag input) (TagSet ni)) eqn:Hi.
  - cbn [flat_map]. unfold classify. now rewrite Hi.
  - destruct (hasKey DeletionTag (TagSet ni)) eqn:Hd; [reflexivity|].
    cbn [flat_map]. unfold classify, addTag. rewrite String.eqb_refl. cbn [TagSet].
    rewrite !hasKey_app, Hi, Hd. unfold hasKey at 1 2. cbn [existsb Key].
    now rewrite E, String.eqb_refl.
Qed.

Lemma afterPass_ignored (l : list NetworkInterface) :
  afterPass DeletionTag input (filter (fun ni => hasKey (IgnoreTag input) (TagSet ni)) l) =
  filter (fun ni => hasKey (IgnoreTag input) (TagSet ni)) l.
Proof.
  induction l as [|ni l IH]; [reflexivity|]. cbn [filter].
  destruct (hasKey (IgnoreTag input) (TagSet ni)) eqn:Hi; [|exact IH].
  unfold afterPass. cbn [flat_map]. fold (afterPass DeletionTag input (filter (fun ni => hasKey (IgnoreTag input) (TagSet ni)) l)).
  rewrite IH. unfold classify. now rewrite Hi.
Qed.

Lemma filter_NoDup (l : list NetworkInterface) (p : NetworkInterface -> bool) :
  NoDup (map NetworkInterfaceId l) -> NoDup (map NetworkInterfaceId (filter p l)).
Proof.
  induction l as [|ni l IH]; intros Hnd; [constructor|].
  cbn [map] in Hnd. inversion Hnd as [|? ? Hout Hnd']; subst. cbn [filter].
  destruct (p ni); [|now apply IH]. cbn [map]. constructor; [|now apply IH].
  intros H. apply Hout. apply in_map_iff in H. destruct H as (x & Hx & Hin).
  apply filter_In in Hin. apply in_map_iff. exists x. tauto.
Qed.

(** X12.  The two-pass protocol on a provider that applies the calls.
    Run against a store of network interfaces with distinct
    identifiers, with an ignore key different from the deletion key: a
    committing pass keeps the ignored interfaces, tags the unmarked ones
    and removes the marked ones; a second pass leaves exactly the
    interfaces that carry the ignore key; a third pass changes
    nothing. *)
Theorem two_passes_leave_the_ignored (w : list NetworkInterface) :
  NoDup (map NetworkInterfaceId w) ->
  IgnoreTag input <> DeletionTag ->
  let clean := cleanNetworkInterfaces interfaceStore DeletionTag {| commit := true |} input in
  let w1 := worldOf (clean w) in
  let w2 := worldOf (clean w1) in
  w1 = afterPass DeletionTag input w
  /\ w2 = filter (fun ni => hasKey (IgnoreTag input) (TagSet ni)) w
  /\ worldOf (clean w2) = w2.
Proof.
  intros Hnd Hne clean w1 w2. fold pass in clean.
  assert (H1 : w1 = afterPass DeletionTag input w) by (now apply pass_world).
  assert (H2 : w2 = filter (fun ni => hasKey (IgnoreTag input) (TagSet ni)) w).
  { unfold w2, clean. rewrite H1, pass_world by now apply afterPass_NoDup.
    now apply afterPass_twice. }
  split; [exact H1|]. split; [exact H2|].
  unfold clean. rewrite H2, pass_world by now apply filter_NoDup.
  apply afterPass_ignored.
Qed.

End TwoPasses.

Lemma two_passes_leave_the_ignored_witness :
  let clean := cleanNetworkInterfaces interfaceStore sampleDeletionTag committing keep in
  worldOf (clean sampleInterfaces) =
    [{| NetworkInterfaceId := "eni-a"; NetworkInterface_SubnetId := "subnet-1";
        Description := ""; TagSet := [tag "keep"] |};
     {| NetworkInterfaceId := "eni-b"; NetworkInterface_SubnetId := "subnet-1";
        Description := ""; TagSet := [tag sampleDeletionTag] |}]
  /\ worldOf (clean (worldOf (clean sampleInterfaces))) =
     [{| NetworkInterfaceId := "eni-a"; NetworkInterface_SubnetId := "subnet-1";
         Description := ""; TagSet := [tag "keep"] |}].
Proof.
  destruct (two_passes_leave_the_ignored sampleDeletionTag keep sampleInterfaces)
    as (H1 & H2 & _).
  - repeat constructor; simpl; intuition discriminate.
  - discriminate.
  - cbv zeta in H1, H2. cbv zeta. unfold committing. rewrite H2, H1. split; reflexivity.
Defined.

(** ** The operations a cleaner needs *)

Section Operations.

Context {W : Type}.
Variable client : Provider W.
Variable DeletionTag : string.
Variable a : action.
Variable input : CleanupScope.

(** X13.  The provider operations of each cleaner.  The
    network-interface cleaner calls nothing but
    [DescribeNetworkInterfaces], [CreateTags] and
    [DeleteNetworkInterface]; the network cleaner nothing but
    [DescribeVpcs], [CreateTags], [DeleteVpc] and the describe, detach
    and delete calls of the four teardown phases; the load-balancer
    cleaner nothing but the seven load-balancing operations. *)
Theorem operations_of_the_cleaners (w : W) :
  confined interfaceOperation (traceOf (cleanNetworkInterfaces client DeletionTag a input w))
  /\ confined networkOperation (traceOf (cleanVPCs client DeletionTag a input w))
  /\ confined loadBalancerOperation
       (traceOf (cleanLoadBalancersV2 client DeletionTag a input w)).
Proof.
  split; [|split].
  - unfold confined. rewrite cleanNetworkInterfaces_calls. cbn [forallb interfaceOperation].
    destruct (describeNetworkInterfaces client w) as [nis|e]; [|reflexivity].
    apply forallb_flat_map. intros ni _. unfold niDecision, decisionTable.
    now destruct (classify _ _ _), (commit a).
  - apply cleanVPCs_confined; try reflexivity.
    intros c Hc. unfold networkOperation. rewrite Hc. now destruct c.
  - apply (cleanLoadBalancersV2_confined _ _ _ _ _ (fun _ => True)); try reflexivity;
      try exact I.
    + intros lb l w' _ _. split; [exact I|].
      unfold confined. rewrite classifyLoadBalancer_calls. cbn [forallb loadBalancerOperation].
      destruct (describeTags client (LoadBalancerArn lb) w'); [|reflexivity].
      now destruct (classify _ _ _), (commit a).
    + intros l arn w' _ _ _. now apply deleteLoadBalancerV2_confined.
Qed.

End Operations.

(** ** Counting requests and polls *)

Section Requests.

Context {W : Type}.
Variable client : Provider W.
Variable DeletionTag : string.
Variable a : action.
Variable input : CleanupScope.

(** X14.  The callbacks never stop a listing: a pass of the network or
    load-balancer cleaner issues exactly one listing request per page
    the provider has, up to and including a request that fails, and the
    network-interface cleaner exactly one. *)
Theorem every_page_is_requested (w : W) :
  List.length (filter isListing
                 (calls (traceOf (cleanNetworkInterfaces client DeletionTag a input w)))) = 1%nat
  /\ List.length (filter isListing
                    (calls (traceOf (cleanVPCs client DeletionTag a input w)))) =
     requests (describeVpcsPages client w)
  /\ List.length (filter isListing
                    (calls (traceOf (cleanLoadBalancersV2 client DeletionTag a input w)))) =
     requests (describeLoadBalancersPages client w).
Proof.
  split; [|split].
  - rewrite cleanNetworkInterfaces_calls. cbn [filter isListing List.length]. f_equal.
    rewrite filter_none; [reflexivity|].
    destruct (describeNetworkInterfaces client w) as [nis|e]; [|reflexivity].
    induction nis as [|ni nis IH]; [reflexivity|].
    cbn [flat_map]. rewrite existsb_app, IH, orb_false_r.
    unfold niDecision, decisionTable. now destruct (classify _ _ _), (commit a).
  - apply cleanVPCs_requests.
  - apply cleanLoadBalancersV2_requests.
Qed.

End Requests.

Section Polls.

Import Waiter.
Local Open Scope Z_scope.

Context {S : Type}.
Variable ctx : Ctx.
Variable pickDone : Z -> bool.
Variable interval : Z.
Variable check : Ctx -> Z -> S -> Checked_ S.

Lemma waitLoop_polls (fuel : nat) :
  0 < interval ->
  (forall t s, t <= clock (check ctx t s)) ->
  forall waitFor now s r,
    waitLoop ctx pickDone interval check fuel waitFor now s = Some r ->
    checks (events r) = 0%nat
    \/ (Z.of_nat (checks (events r)) - 1) * interval <= waitFor - now.
Proof.
  intros Hpos Hmono.
  induction fuel as [|fuel IH]; intros waitFor now s r H; [discriminate|].
  rewrite WaiterFacts.waitLoop_iteration in H.
  destruct (Z.ltb_spec waitFor now) as [Hlt|Hle].
  - injection H as <-. now left.
  - cbv zeta in H. right.
    destruct (err (check ctx now s)) as [e0|].
    + injection H as <-. cbn. lia.
    + destruct (done (check ctx now s)).
      * injection H as <-. cbn. lia.
      * destruct (select ctx pickDone (clock (check ctx now s)) interval) as [t|t] eqn:Hsel.
        -- injection H as <-. cbn. lia.
        -- destruct (waitLoop ctx pickDone interval check fuel waitFor t
                       (state (check ctx now s))) as [r'|] eqn:Hr; [|discriminate].
           injection H as <-.
           apply WaiterFacts.select_timer_at in Hsel. unfold timerAt in Hsel.
           specialize (Hmono now s).
           cbn [events addEvents app checks].
           destruct (IH _ _ _ _ Hr) as [H0|Hb]; [rewrite H0; cbn; lia|].
           rewrite Nat2Z.inj_succ. nia.
Qed.

(** X15.  A bound on the polling.  With a positive interval and a
    [check] that does not turn the clock back, successive evaluations of
    [check] are at least one interval apart and none comes after the
    deadline: a wait that returns has evaluated [check] at most
    [timeout / interval + 1] times, and not at all when the timeout is
    negative. *)
Theorem waitUntil_polls (fuel : nat) (now timeout : Z) (s : S) (r : Returned S) :
  0 < interval ->
  (forall t s', t <= clock (check ctx t s')) ->
  waitUntil fuel ctx pickDone now timeout interval check s = Some r ->
  (timeout < 0 -> checks (events r) = 0%nat)
  /\ (0 <= timeout -> Z.of_nat (checks (events r)) <= timeout / interval + 1).
Proof.
  intros Hpos Hmono H. unfold waitUntil in H.
  destruct (waitLoop_polls fuel Hpos Hmono _ _ _ _ H) as [H0|Hb].
  - split; [now intros _|]. intros Ht. rewrite H0.
    pose proof (Z.div_pos timeout interval Ht Hpos). simpl. lia.
  - replace (now + timeout - now) with timeout in Hb by lia. split.
    + intros Ht. destruct (checks (events r)); [reflexivity|]. nia.
    + intros Ht. apply Z.le_sub_le_add_r.
      apply Z.div_le_lower_bound; [exact Hpos | lia].
Qed.

End Polls.

(** Timeout 50, interval 3, a check that is done at its fourth
    evaluation: four evaluations, against a bound of seventeen. *)
Lemma waitUntil_polls_witness :
  exists r,
    Waiter.waitUntil 5 sampleCtx (fun _ => true) 0%Z 50%Z 3%Z sampleCheck 0%nat = Some r
    /\ checks (Waiter.events r) = 4%nat
    /\ (Z.of_nat (checks (Waiter.events r)) <= 50 / 3 + 1)%Z.
Proof.
  eexists. split; [reflexivity|]. split; [reflexivity|].
  apply (waitUntil_polls sampleCtx (fun _ => true) 3%Z sampleCheck 5 0%Z 50%Z 0%nat).
  - lia.
  - intros t s'. unfold sampleCheck. simpl. lia.
  - reflexivity.
  - lia.
Defined.
